(** * Seal browser extension: background service worker and popup

    A shallow embedding of the two scripts of the extension:

    - the background service worker (credential store on
      [chrome.storage.local], API functions, internal handlers and the
      external message listener), and
    - the popup ([handleFile], [displayFileInfo]);

    together with the internal message listener of the worker, the
    popup's sign-in flows ([sendMessage], [init], [handleLogin],
    [handleLogout], [openInViewer], [formatFileSize]) and the login
    route of the web application ([POST]).

    JavaScript values are JSON-shaped ([jsval]); a handler is a function
    of the state it reads and writes ([M], a state-and-exception monad).
    What the platform supplies and the scripts only call (the URL parser,
    [fetch], [JSON.parse], [Date], [toLowerCase], the wording of engine
    errors) is a variable of the section, so every theorem holds for
    every behaviour of the platform.  Calls to [console] have no effect on
    the state and are left out.  Each handler is run to completion: the
    interleaving of two handlers at their [await] points is outside this
    model. *)

From Stdlib Require Import ZArith String Ascii List Bool Lia.
From stdpp Require Import base option strings gmap fin_maps.

Set Warnings "-register-all".

Local Open Scope string_scope.
Local Open Scope Z_scope.

(** ** JavaScript values *)

Module JS.

(** Values that travel as JSON (messages, HTTP bodies, stored items,
    parsed files), plus [undefined].  Numbers are the integers: the
    scripts only test numbers for truthiness and hand them to [Date]. *)
Inductive jsval : Type :=
| JUndefined
| JNull
| JBool (b : bool)
| JNum (n : Z)
| JStr (s : string)
| JArr (items : list jsval)
| JObj (fields : list (string * jsval)).

(** The three error classes the scripts meet. *)
Inductive exn_kind : Type := ErrorK | TypeErrorK | SyntaxErrorK.

Record exn : Type := Exn { kind : exn_kind; message : string }.

(** Errors raised by the engine rather than by a [throw] of the
    scripts; their wording belongs to the engine. *)
Inductive engine_error : Type :=
| ReadOfNullish (receiver : jsval) (prop : string)
| NotAFunction (receiver : jsval) (method : string)
| InvalidURL (url : string).

(** ToBoolean. *)
Definition truthy (v : jsval) : bool :=
  match v with
  | JUndefined | JNull => false
  | JBool b => b
  | JNum n => negb (n =? 0)
  | JStr s => negb (String.eqb s "")
  | JArr _ | JObj _ => true
  end.

(** [a || b] on values. *)
Definition js_or (a b : jsval) : jsval := if truthy a then a else b.

(** Own property of an object literal; the first binding of a key is
    the one that counts. *)
Fixpoint assoc (k : string) (fields : list (string * jsval)) : option jsval :=
  match fields with
  | [] => None
  | (k', v) :: rest => if String.eqb k k' then Some v else assoc k rest
  end.

(** [a === b].  Primitives compare by value; two arrays or objects that
    were deserialised separately are never the same reference. *)
Definition strict_eq (a b : jsval) : bool :=
  match a, b with
  | JUndefined, JUndefined => true
  | JNull, JNull => true
  | JBool x, JBool y => Bool.eqb x y
  | JNum x, JNum y => x =? y
  | JStr x, JStr y => String.eqb x y
  | _, _ => false
  end.

(** [s.startsWith(p)] and [s.endsWith(p)]. *)
Definition startsWith (s p : string) : bool := String.prefix p s.

Definition endsWith (s p : string) : bool :=
  let n := String.length s in
  let m := String.length p in
  (m <=? n)%nat && String.eqb (String.substring (n - m) m s) p.

(** [allowedOrigins.includes(x)] on an array of strings. *)
Definition includes (l : list string) (x : string) : bool :=
  existsb (String.eqb x) l.

End JS.

Export JS.

(** ** State and exceptions *)

(** A computation over a state [S] that returns a value or throws; the
    state reached when it throws is kept (JavaScript does not roll
    back). *)
Definition M (S A : Type) : Type := S -> (exn + A) * S.

Definition ret {S A : Type} (a : A) : M S A := fun s => (inr a, s).

Definition throw {S A : Type} (e : exn) : M S A := fun s => (inl e, s).

Definition lift {S A : Type} (r : exn + A) : M S A := fun s => (r, s).

Definition bind {S A B : Type} (m : M S A) (k : A -> M S B) : M S B :=
  fun s =>
    match m s with
    | (inl e, s') => (inl e, s')
    | (inr a, s') => k a s'
    end.

(** [try { m } catch (err) { h err }]. *)
Definition try_catch {S A : Type} (m : M S A) (h : exn -> M S A) : M S A :=
  fun s =>
    match m s with
    | (inl e, s') => h e s'
    | (inr a, s') => (inr a, s')
    end.

Definition modify {S : Type} (f : S -> S) : M S unit := fun s => (inr tt, f s).

Definition gets {S A : Type} (f : S -> A) : M S A := fun s => (inr (f s), s).

Notation "'do' x <- m ; k" := (bind m (fun x => k))
  (at level 10, x name, m at level 100, k at level 200).
Notation "'run' m ; k" := (bind m (fun _ => k))
  (at level 10, m at level 100, k at level 200).

(** ** The background service worker: data *)

(** A call of [fetch]: the URL, the method, the [Authorization] header
    when one is attached, and the object given to [JSON.stringify] as
    the body.  Every call of the worker sends [Content-Type:
    application/json]; that header is not recorded. *)
Record request : Type := Request {
  url : string;
  method : string;
  authorization : option string;
  body : option jsval
}.

(** What the worker reads of a [Response]: the status and the outcome of
    [response.json()]. *)
Record response : Type := Response {
  status : Z;
  json : exn + jsval
}.

(** [response.ok]: the status is in the range 200-299. *)
Definition ok (r : response) : bool := (200 <=? status r) && (status r <=? 299).

(** The worker's world: the items of [chrome.storage.local] and the
    calls of [fetch] issued so far, oldest first. *)
Record world : Type := World {
  storage : gmap string jsval;
  network : list request
}.

Definition set_storage (f : gmap string jsval -> gmap string jsval) (w : world) : world :=
  {| storage := f (storage w); network := network w |}.

(** [sender.url] of an external message. *)
Record sender : Type := Sender { sender_url : option string }.

(** What the external listener does with a message: the argument of its
    one call of [sendResponse], and whether it returned [true] to keep
    the channel open. *)
Record reply : Type := Reply { sent : jsval; keepOpen : bool }.

Definition API_BASE : string := "https://seal.email/api".

Definition allowedOrigins : list string := ["https://seal.email"; "http://localhost:3000"].

(** [chrome.storage.local.get(keys, cb)]: the object of the keys that are
    stored. *)
Definition storage_get (keys : list string) : M world jsval :=
  gets (fun w => JObj (omap (fun k => pair k <$> storage w !! k) keys)).

(** [chrome.storage.local.set(items, cb)]: items are serialised, so a
    property whose value is [undefined] is not written. *)
Definition storage_set (items : list (string * jsval)) : M world unit :=
  modify (set_storage (fun st =>
    fold_right (fun kv m => match kv.2 with JUndefined => m | v => <[kv.1 := v]> m end) st items)).

(** [chrome.storage.local.remove(keys, cb)]. *)
Definition storage_remove (keys : list string) : M world unit :=
  modify (set_storage (fun st => fold_right delete st keys)).

Definition getStoredAuth : M world jsval :=
  do data <- storage_get ["authToken"; "userEmail"];
  ret (js_or data (JObj [])).

Definition storeAuth (token email : jsval) : M world unit :=
  storage_set [("authToken", token); ("userEmail", email)].

Definition clearAuth : M world unit :=
  storage_remove ["authToken"; "userEmail"].

(** ** The popup: data *)

Inductive screen : Type := Loading | Login | Drop | Info | Error.

(** [els.infoExpires]: the expired badge (set through [innerHTML]) or a
    text. *)
Inductive expires_view : Type := ExpiredBadge | ExpiresText (t : string).

(** [els.infoAccess]: the two spans the popup writes. *)
Inductive access_view : Type := AccessGranted | AccessDenied.

(** The platform calls [handleFile] makes on the way, oldest first. *)
Inductive call : Type := FileText | JSONParse (text : string).

(** The popup's variables, the parts of the page it writes, and the
    calls made so far. *)
Record popup : Type := Popup {
  currentSealFile : jsval;
  currentRawText : option string;
  userEmail : jsval;
  activeScreen : screen;
  errorMessage : string;
  infoFilename : string;
  infoSize : string;
  infoDate : string;
  infoExpires : expires_view;
  infoRecipients : string;
  infoRecipientsTitle : string;
  accessRowHidden : bool;
  infoAccess : access_view;
  btnOpenViewerDisabled : bool;
  btnOpenViewerText : string;
  calls : list call
}.

(** A dropped [File]: its name, its size in bytes and the outcome of
    [file.text()]. *)
Record file : Type := File {
  name : string;
  size : Z;
  text : exn + string
}.

(** The verdict a user reads off the info screen. *)
Record verdict : Type := Verdict {
  isExpired : bool;
  hasAccess : bool;
  accessKnown : bool
}.

Definition shownVerdict (p : popup) : verdict :=
  {| isExpired := match infoExpires p with ExpiredBadge => true | ExpiresText _ => false end;
     hasAccess := match infoAccess p with AccessGranted => true | AccessDenied => false end;
     accessKnown := negb (accessRowHidden p) |}.

Definition set_currentFile (v : jsval) (t : option string) (p : popup) : popup :=
  Popup v t (userEmail p) (activeScreen p) (errorMessage p) (infoFilename p) (infoSize p)
    (infoDate p) (infoExpires p) (infoRecipients p) (infoRecipientsTitle p)
    (accessRowHidden p) (infoAccess p) (btnOpenViewerDisabled p) (btnOpenViewerText p) (calls p).

Definition set_activeScreen (s : screen) (p : popup) : popup :=
  Popup (currentSealFile p) (currentRawText p) (userEmail p) s (errorMessage p) (infoFilename p)
    (infoSize p) (infoDate p) (infoExpires p) (infoRecipients p) (infoRecipientsTitle p)
    (accessRowHidden p) (infoAccess p) (btnOpenViewerDisabled p) (btnOpenViewerText p) (calls p).

Definition set_errorMessage (m : string) (p : popup) : popup :=
  Popup (currentSealFile p) (currentRawText p) (userEmail p) (activeScreen p) m (infoFilename p)
    (infoSize p) (infoDate p) (infoExpires p) (infoRecipients p) (infoRecipientsTitle p)
    (accessRowHidden p) (infoAccess p) (btnOpenViewerDisabled p) (btnOpenViewerText p) (calls p).

Definition set_infoFilename (t : string) (p : popup) : popup :=
  Popup (currentSealFile p) (currentRawText p) (userEmail p) (activeScreen p) (errorMessage p) t
    (infoSize p) (infoDate p) (infoExpires p) (infoRecipients p) (infoRecipientsTitle p)
    (accessRowHidden p) (infoAccess p) (btnOpenViewerDisabled p) (btnOpenViewerText p) (calls p).

Definition set_infoSize (t : string) (p : popup) : popup :=
  Popup (currentSealFile p) (currentRawText p) (userEmail p) (activeScreen p) (errorMessage p)
    (infoFilename p) t (infoDate p) (infoExpires p) (infoRecipients p) (infoRecipientsTitle p)
    (accessRowHidden p) (infoAccess p) (btnOpenViewerDisabled p) (btnOpenViewerText p) (calls p).

Definition set_infoDate (t : string) (p : popup) : popup :=
  Popup (currentSealFile p) (currentRawText p) (userEmail p) (activeScreen p) (errorMessage p)
    (infoFilename p) (infoSize p) t (infoExpires p) (infoRecipients p) (infoRecipientsTitle p)
    (accessRowHidden p) (infoAccess p) (btnOpenViewerDisabled p) (btnOpenViewerText p) (calls p).

Definition set_infoExpires (v : expires_view) (p : popup) : popup :=
  Popup (currentSealFile p) (currentRawText p) (userEmail p) (activeScreen p) (errorMessage p)
    (infoFilename p) (infoSize p) (infoDate p) v (infoRecipients p) (infoRecipientsTitle p)
    (accessRowHidden p) (infoAccess p) (btnOpenViewerDisabled p) (btnOpenViewerText p) (calls p).

Definition set_infoRecipients (t : string) (p : popup) : popup :=
  Popup (currentSealFile p) (currentRawText p) (userEmail p) (activeScreen p) (errorMessage p)
    (infoFilename p) (infoSize p) (infoDate p) (infoExpires p) t (infoRecipientsTitle p)
    (accessRowHidden p) (infoAccess p) (btnOpenViewerDisabled p) (btnOpenViewerText p) (calls p).

Definition set_infoRecipientsTitle (t : string) (p : popup) : popup :=
  Popup (currentSealFile p) (currentRawText p) (userEmail p) (activeScreen p) (errorMessage p)
    (infoFilename p) (infoSize p) (infoDate p) (infoExpires p) (infoRecipients p) t
    (accessRowHidden p) (infoAccess p) (btnOpenViewerDisabled p) (btnOpenViewerText p) (calls p).

Definition set_accessRowHidden (b : bool) (p : popup) : popup :=
  Popup (currentSealFile p) (currentRawText p) (userEmail p) (activeScreen p) (errorMessage p)
    (infoFilename p) (infoSize p) (infoDate p) (infoExpires p) (infoRecipients p)
    (infoRecipientsTitle p) b (infoAccess p) (btnOpenViewerDisabled p) (btnOpenViewerText p)
    (calls p).

Definition set_infoAccess (v : access_view) (p : popup) : popup :=
  Popup (currentSealFile p) (currentRawText p) (userEmail p) (activeScreen p) (errorMessage p)
    (infoFilename p) (infoSize p) (infoDate p) (infoExpires p) (infoRecipients p)
    (infoRecipientsTitle p) (accessRowHidden p) v (btnOpenViewerDisabled p) (btnOpenViewerText p)
    (calls p).

Definition set_btnOpenViewer (disabled : bool) (t : string) (p : popup) : popup :=
  Popup (currentSealFile p) (currentRawText p) (userEmail p) (activeScreen p) (errorMessage p)
    (infoFilename p) (infoSize p) (infoDate p) (infoExpires p) (infoRecipients p)
    (infoRecipientsTitle p) (accessRowHidden p) (infoAccess p) disabled t (calls p).

Definition log_call (c : call) (p : popup) : popup :=
  Popup (currentSealFile p) (currentRawText p) (userEmail p) (activeScreen p) (errorMessage p)
    (infoFilename p) (infoSize p) (infoDate p) (infoExpires p) (infoRecipients p)
    (infoRecipientsTitle p) (accessRowHidden p) (infoAccess p) (btnOpenViewerDisabled p)
    (btnOpenViewerText p) (calls p ++ [c]).

Definition showScreen (s : screen) : M popup unit := modify (set_activeScreen s).

Definition showError (m : string) : M popup unit :=
  run modify (set_errorMessage m);
  showScreen Error.

(** The messages of [handleFile]. *)
Definition msgUnsupported : string :=
  "Please select a .seal file. This file type is not supported.".
Definition msgTooLarge : string :=
  "This file is too large to open in the extension. Please use seal.email/viewer instead.".
Definition msgNotSeal : string := "This file is not a valid .seal file.".
Definition msgIncomplete : string :=
  "This file is not a valid .seal file. It may be corrupted or incomplete.".
Definition msgCorrupted : string := "Could not read this file. It may be corrupted.".
Definition msgUnexpected : string := "An unexpected error occurred: ".

(** ** Reading the credential store *)

(** [stored.authToken] and [stored.userEmail] as [getStoredAuth] returns
    them: [undefined] for a key that is not stored. *)
Definition storedToken (w : world) : jsval := default JUndefined (storage w !! "authToken").

Definition storedEmail (w : world) : jsval := default JUndefined (storage w !! "userEmail").



(** What a key holds after [chrome.storage.local.set] was given [v] for
    it: an [undefined] is not written, and the key keeps what it held. *)
Definition written (v : jsval) (old : option jsval) : option jsval :=
  match v with
  | JUndefined => old
  | _ => Some v
  end.

(** The world after [storeAuth(token, email)] with two defined values. *)
Definition withAuth (token email : jsval) (w : world) : world :=
  set_storage (fun st => <["authToken" := token]> (<["userEmail" := email]> st)) w.

(** The world after [clearAuth()]. *)
Definition withoutAuth (w : world) : world :=
  set_storage (fun st => delete "authToken" (delete "userEmail" st)) w.

(** The world after one more call of [fetch]. *)
Definition sending (req : request) (w : world) : world :=
  {| storage := storage w; network := network w ++ [req] |}.

(** A field of a message or of a request object. *)
Definition field (k : string) (fields : list (string * jsval)) : jsval :=
  default JUndefined (assoc k fields).

(** ** The background service worker: tabs *)

(** The worker's world together with its use of [chrome.tabs]: the URLs
    it opened in new tabs and the messages it sent to tabs, oldest
    first. *)
Record agent : Type := Agent {
  agentWorld : world;
  tabsCreated : list string;
  tabMessages : list (Z * jsval)
}.

(** A computation on the world, run inside the agent. *)
Definition inWorld {A : Type} (m : M world A) : M agent A :=
  fun a =>
    ((m (agentWorld a)).1,
     {| agentWorld := (m (agentWorld a)).2; tabsCreated := tabsCreated a;
        tabMessages := tabMessages a |}).

(** The own properties of [messageHandlers]. *)
Definition handlerNames : list string :=
  ["checkAuth"; "fetchRecipientKeys"; "saveMetadata"; "attachToGmail"; "openLogin";
   "getStoredEmail"; "loginWithCredentials"; "logout"].

(** The properties [messageHandlers] inherits from [Object.prototype].
    Looked up by an action of that name they are truthy, and calling
    them as [handler(request, sender)] and then reading [then] of the
    result throws a [TypeError] in every case. *)
Definition objectPrototypeNames : list string :=
  ["constructor"; "__defineGetter__"; "__defineSetter__"; "hasOwnProperty";
   "__lookupGetter__"; "__lookupSetter__"; "isPrototypeOf"; "propertyIsEnumerable";
   "toString"; "valueOf"; "__proto__"; "toLocaleString"].

(** ** The login route of the web application: data *)

(** What the route reads of a [NextRequest]: the [Origin] header, which
    the CORS helper looks at, and the outcome of [request.json()]. *)
Record serverRequest : Type := ServerRequest {
  requestOrigin : option string;
  requestJson : exn + jsval
}.

(** A [NextResponse.json(body, {status, headers})]. *)
Record nextResponse : Type := NextResponse {
  responseStatus : Z;
  responseBody : jsval;
  responseHeaders : list (string * string)
}.

(** JSON serialisation of an object literal: a property whose value is
    [undefined] is left out. *)
Fixpoint serialised (fields : list (string * jsval)) : list (string * jsval) :=
  match fields with
  | [] => []
  | (k, JUndefined) :: rest => serialised rest
  | (k, v) :: rest => (k, v) :: serialised rest
  end.

Definition respond (status : Z) (fields : list (string * jsval))
    (headers : list (string * string)) : nextResponse :=
  {| responseStatus := status; responseBody := JObj (serialised fields);
     responseHeaders := headers |}.

(** The response as the extension's [fetch] sees it. *)
Definition onTheWire (r : nextResponse) : response :=
  {| status := responseStatus r; json := inr (responseBody r) |}.

(** ** The popup: the page around the file viewer *)

(** An awaited promise: fulfilled, rejected, or never settled. *)
Inductive promise (A : Type) : Type :=
| Resolved (v : A)
| Rejected (e : exn)
| Pending.

Arguments Resolved {A} v.
Arguments Rejected {A} e.
Arguments Pending {A}.

(** The promise of an [async] function whose body has run to its end. *)
Definition outcomeOf {S A : Type} (r : (exn + A) * S) : promise A * S :=
  (match r.1 with
   | inl e => Rejected e
   | inr v => Resolved v
   end, r.2).

(** [try { m } finally { f }]. *)
Definition try_finally {S A : Type} (m : M S A) (f : M S unit) : M S A :=
  fun s =>
    match f (m s).2 with
    | (inl e, s') => (inl e, s')
    | (inr _, s') => ((m s).1, s')
    end.

(** What arrives of a value sent through [chrome.runtime] messaging,
    which serialises it as JSON: a property whose value is [undefined]
    is left out, and [undefined] inside an array arrives as [null]. *)
Fixpoint wire (v : jsval) : jsval :=
  match v with
  | JArr l => JArr (List.map (fun x => match wire x with JUndefined => JNull | y => y end) l)
  | JObj fields =>
      JObj ((fix go (fs : list (string * jsval)) : list (string * jsval) :=
               match fs with
               | [] => []
               | (k, x) :: rest =>
                   match wire x with
                   | JUndefined => go rest
                   | y => (k, y) :: go rest
                   end
               end) fields)
  | _ => v
  end.

(** The login form: the text and the [hidden] flag of
    [els.loginError], and [els.btnLoginSubmit]. *)
Record loginForm : Type := LoginForm {
  loginErrorText : string;
  loginErrorHidden : bool;
  btnLoginSubmitDisabled : bool;
  btnLoginSubmitText : string
}.

(** The popup page: the file viewer, the text of
    [els.userEmailDisplay], the login form, whether
    [setupEventListeners] has run, the downloads started (content of
    the blob and file name) and the tabs opened, oldest first; and the
    background worker the page talks to. *)
Record page : Type := Page {
  viewer : popup;
  userEmailDisplay : string;
  form : loginForm;
  listening : bool;
  downloads : list (string * string);
  tabsOpened : list string;
  worker : agent
}.

Definition set_viewer (f : popup -> popup) (g : page) : page :=
  Page (f (viewer g)) (userEmailDisplay g) (form g) (listening g) (downloads g) (tabsOpened g)
    (worker g).

Definition set_userEmailDisplay (v : string) (g : page) : page :=
  Page (viewer g) v (form g) (listening g) (downloads g) (tabsOpened g) (worker g).

Definition set_form (f : loginForm -> loginForm) (g : page) : page :=
  Page (viewer g) (userEmailDisplay g) (f (form g)) (listening g) (downloads g) (tabsOpened g)
    (worker g).

Definition set_listening (b : bool) (g : page) : page :=
  Page (viewer g) (userEmailDisplay g) (form g) b (downloads g) (tabsOpened g) (worker g).

Definition set_downloads (l : list (string * string)) (g : page) : page :=
  Page (viewer g) (userEmailDisplay g) (form g) (listening g) l (tabsOpened g) (worker g).

Definition set_tabsOpened (l : list string) (g : page) : page :=
  Page (viewer g) (userEmailDisplay g) (form g) (listening g) (downloads g) l (worker g).

Definition set_worker (a : agent) (g : page) : page :=
  Page (viewer g) (userEmailDisplay g) (form g) (listening g) (downloads g) (tabsOpened g) a.

Definition set_userEmail (v : jsval) (p : popup) : popup :=
  Popup (currentSealFile p) (currentRawText p) v (activeScreen p) (errorMessage p) (infoFilename p)
    (infoSize p) (infoDate p) (infoExpires p) (infoRecipients p) (infoRecipientsTitle p)
    (accessRowHidden p) (infoAccess p) (btnOpenViewerDisabled p) (btnOpenViewerText p) (calls p).

(** A computation of the file viewer, run inside the page. *)
Definition inViewer {A : Type} (m : M popup A) : M page A :=
  fun g => ((m (viewer g)).1, set_viewer (fun _ => (m (viewer g)).2) g).

(** [await x; k]: the rest of an [async] function runs once the awaited
    promise has settled, and never when it does not settle. *)
Definition await {S A B : Type} (x : promise A * S) (k : exn + A -> M S B) : promise B * S :=
  match x.1 with
  | Resolved v => outcomeOf (k (inr v) x.2)
  | Rejected e => outcomeOf (k (inl e) x.2)
  | Pending => (Pending, x.2)
  end.

(** The messages of the login form. *)
Definition msgLoginFailed : string := "Login failed. Check your email and password.".

(** ** Numbers as text *)

(** The decimal digits of a positive number, most significant first. *)
Fixpoint digitsOf (fuel : nat) (n : N) (acc : string) : string :=
  match fuel with
  | O => acc
  | S fuel' =>
      let acc' := String (ascii_of_N (48 + n mod 10)) acc in
      if (n / 10 =? 0)%N then acc' else digitsOf fuel' (n / 10)%N acc'
  end.

(** The text of an integer, as [n + ' B'] has it. *)
Definition numberText (n : Z) : string :=
  match n with
  | Z0 => "0"
  | Zpos p => digitsOf (Pos.size_nat p) (Npos p) ""
  | Zneg p => "-" ++ digitsOf (Pos.size_nat p) (Npos p) ""
  end.

(** The popup's [formatFileSize] on a number of bytes that is a
    non-negative integer below [2 ^ 53].  There every integer is a
    number of the language and prints with all its digits, and the
    divisors are powers of two, so the quotient is exact in floating
    point and [toFixed(1)] gives the nearest tenth of the true quotient,
    the larger one on a tie.  Outside that range (where the language
    rounds the number or prints it with an exponent) this reading says
    nothing: the result is [None]. *)
Module Integer.

(** [(num / den).toFixed(1)]. *)
Definition toFixed1 (num den : Z) : string :=
  let n := (20 * num + den) / (2 * den) in
  numberText (n / 10) ++ "." ++ numberText (n mod 10).

Definition formatFileSize (bytes : Z) : option string :=
  if (0 <=? bytes) && (bytes <? 2 ^ 53) then
    Some (if bytes <? 1024 then numberText bytes ++ " B"
          else if bytes <? 1024 * 1024 then toFixed1 bytes 1024 ++ " KB"
          else toFixed1 bytes (1024 * 1024) ++ " MB")
  else None.

End Integer.

(** ** A sample platform

    One concrete behaviour of the platform, used to run the scripts on
    concrete inputs.  Each function agrees with the browser on the
    inputs the examples give it. *)

Module Sample.

Definition engineText (e : engine_error) : string :=
  match e with
  | ReadOfNullish _ k => "Cannot read properties of null or undefined: " ++ k
  | NotAFunction _ m => m ++ " is not a function"
  | InvalidURL _ => "Invalid URL"
  end.

(** The origin of the page URLs the examples use. *)
Definition URL_origin (u : string) : option string :=
  if String.prefix "https://seal.email/" u then Some "https://seal.email"
  else if String.prefix "http://localhost:3000/" u then Some "http://localhost:3000"
  else if String.prefix "https://evil.example/" u then Some "https://evil.example"
  else None.

(** The decimal digits of a natural number, most significant first. *)
Fixpoint digits (fuel : nat) (n : N) (acc : string) : string :=
  match fuel with
  | O => acc
  | S fuel' =>
      let acc' := String (ascii_of_N (48 + n mod 10)) acc in
      if (n / 10 =? 0)%N then acc' else digits fuel' (n / 10)%N acc'
  end.

Definition decimal (n : Z) : string :=
  match n with
  | Z0 => "0"
  | Zpos p => digits (Pos.size_nat p) (Npos p) ""
  | Zneg p => "-" ++ digits (Pos.size_nat p) (Npos p) ""
  end.

Definition ToString_other (v : jsval) : exn + string :=
  match v with
  | JNum n => inr (decimal n)
  | _ => inr "[object Object]"
  end.

(** Percent-encoding of the at sign; letters, digits and dots are kept. *)
Fixpoint encodeURIComponent (s : string) : string :=
  match s with
  | EmptyString => EmptyString
  | String c rest =>
      if Ascii.eqb c "@"%char then "%40" ++ encodeURIComponent rest
      else String c (encodeURIComponent rest)
  end.

Definition manifest_version : string := "1.0.0".

(** The one login the sample backend accepts. *)
Definition knownLogin (b : option jsval) : bool :=
  match b with
  | Some (JObj fs) =>
      strict_eq (field "email" fs) (JStr "u@x.com") && strict_eq (field "password" fs) (JStr "pw")
  | _ => false
  end.

(** A backend that knows one user, [u@x.com], through a session cookie
    or through the password [pw]; it has a key for [a@x], none for
    [missing@x], and fails on any other key lookup. *)
Definition fetch (req : request) : exn + response :=
  if String.eqb (url req) "https://seal.email/api/auth/status" then
    inr {| status := 200;
           json := inr (JObj [("authenticated", JBool true); ("email", JStr "u@x.com")]) |}
  else if String.eqb (url req) "https://seal.email/api/auth/login" then
    if knownLogin (body req) then
      inr {| status := 200;
             json := inr (JObj [("authenticated", JBool true); ("email", JStr "u@x.com");
                                ("token", JStr "tok")]) |}
    else
      inr {| status := 401;
             json := inr (JObj [("error", JStr "Invalid email or password")]) |}
  else if String.eqb (url req) "https://seal.email/api/users/public-key/a%40x" then
    inr {| status := 200; json := inr (JObj [("publicKey", JStr "pk")]) |}
  else if String.eqb (url req) "https://seal.email/api/users/public-key/missing%40x" then
    inr {| status := 404; json := inr (JObj [("error", JStr "Not found")]) |}
  else if String.prefix "https://seal.email/api/users/public-key/" (url req) then
    inr {| status := 500; json := inr (JObj [("error", JStr "Internal server error")]) |}
  else inl {| kind := TypeErrorK; message := "Failed to fetch" |}.

(** The double quote character. *)
Definition dq : string := String (Ascii.Ascii false true false false false true false false) "".

(** Three file texts: a complete envelope that never expires, one whose
    [expiresAt] is the number 0, and one without a payload. *)
Definition completeText : string :=
  "{" ++ dq ++ "version" ++ dq ++ ":1," ++ dq ++ "fileId" ++ dq ++ ":" ++ dq ++ "f1" ++ dq ++ ","
      ++ dq ++ "payload" ++ dq ++ ":" ++ dq ++ "ct" ++ dq ++ "}".

Definition epochText : string :=
  "{" ++ dq ++ "version" ++ dq ++ ":1," ++ dq ++ "fileId" ++ dq ++ ":" ++ dq ++ "f1" ++ dq ++ ","
      ++ dq ++ "payload" ++ dq ++ ":" ++ dq ++ "ct" ++ dq ++ ","
      ++ dq ++ "metadata" ++ dq ++ ":{" ++ dq ++ "expiresAt" ++ dq ++ ":0}}".

Definition noPayloadText : string :=
  "{" ++ dq ++ "version" ++ dq ++ ":1," ++ dq ++ "fileId" ++ dq ++ ":" ++ dq ++ "f1" ++ dq ++ "}".

Definition complete : jsval :=
  JObj [("version", JNum 1); ("fileId", JStr "f1"); ("payload", JStr "ct")].

Definition epoch : jsval :=
  JObj [("version", JNum 1); ("fileId", JStr "f1"); ("payload", JStr "ct");
        ("metadata", JObj [("expiresAt", JNum 0)])].

Definition noPayload : jsval := JObj [("version", JNum 1); ("fileId", JStr "f1")].

Definition zeroVersionText : string :=
  "{" ++ dq ++ "version" ++ dq ++ ":0," ++ dq ++ "fileId" ++ dq ++ ":" ++ dq ++ "f1" ++ dq ++ ","
      ++ dq ++ "payload" ++ dq ++ ":" ++ dq ++ "ct" ++ dq ++ "}".

Definition zeroVersion : jsval :=
  JObj [("version", JNum 0); ("fileId", JStr "f1"); ("payload", JStr "ct")].

Definition JSON_parse (t : string) : string + jsval :=
  if String.eqb t completeText then inr complete
  else if String.eqb t epochText then inr epoch
  else if String.eqb t noPayloadText then inr noPayload
  else if String.eqb t zeroVersionText then inr zeroVersion
  else inl "Unexpected token".

(** [new Date(n)] for a number is the time value [n]; the one date
    string the examples use is 1 January 2020, midnight UTC. *)
Definition Date_value (v : jsval) : exn + option Z :=
  match v with
  | JNum n => inr (Some n)
  | JStr s => inr (if String.eqb s "2020-01-01T00:00:00.000Z" then Some 1577836800000 else None)
  | _ => inr None
  end.

(** 14 November 2023, in milliseconds. *)
Definition now : Z := 1700000000000.

Definition toLocaleDateString (d : option Z) : string :=
  match d with
  | Some _ => "1/1/2020"
  | None => "Invalid Date"
  end.

Definition lowerChar (c : ascii) : ascii :=
  let n := nat_of_ascii c in
  if ((65 <=? n) && (n <=? 90))%nat then ascii_of_nat (n + 32) else c.

(** Lower-casing of the ASCII letters. *)
Fixpoint toLowerCase (s : string) : string :=
  match s with
  | EmptyString => EmptyString
  | String c rest => String (lowerChar c) (toLowerCase rest)
  end.

Definition gt0_other (v : jsval) : exn + bool := inr false.

(** Sizes under 1024 bytes are shown in bytes. *)
Definition formatFileSize (v : jsval) : exn + string :=
  match v with
  | JNum n => inr (if n <? 1024 then decimal n ++ " B" else "1.0 KB")
  | _ => inr "NaN MB"
  end.

Definition emptyWorld : world := {| storage := ∅; network := [] |}.

(** A popup in front of its drop screen, signed in as [user]. *)
Definition dropScreen (user : jsval) : popup :=
  {| currentSealFile := JNull; currentRawText := None; userEmail := user;
     activeScreen := Drop; errorMessage := ""; infoFilename := ""; infoSize := "";
     infoDate := ""; infoExpires := ExpiresText ""; infoRecipients := "";
     infoRecipientsTitle := ""; accessRowHidden := true; infoAccess := AccessDenied;
     btnOpenViewerDisabled := false; btnOpenViewerText := "Open in Secure Viewer";
     calls := [] |}.

(** A store holding the token [tok] for [old@x.com]. *)
Definition signedInWorld : world :=
  {| storage := <["authToken" := JStr "tok"]> (<["userEmail" := JStr "old@x.com"]> ∅);
     network := [] |}.

(** A page of the production site, and a page of another site. *)
Definition sealSender : sender := {| sender_url := Some "https://seal.email/login" |}.

Definition evilSender : sender := {| sender_url := Some "https://evil.example/phish" |}.

Definition handoff (token email : jsval) : list (string * jsval) :=
  [("type", JStr "SEAL_AUTH_TOKEN"); ("token", token); ("email", email)].


(** An envelope without an expiry, for [a@x.com]. *)
Definition lowerCaseFields : list (string * jsval) :=
  [("version", JNum 1); ("fileId", JStr "f1"); ("payload", JStr "ct");
   ("recipients", JArr [JObj [("email", JStr "a@x.com")]])].

(** An envelope whose [expiresAt] is the number 0. *)
Definition epochFields : list (string * jsval) :=
  [("version", JNum 1); ("fileId", JStr "f1"); ("payload", JStr "ct");
   ("metadata", JObj [("expiresAt", JNum 0)])].

Definition sealFileOf (t : string) : file :=
  {| name := "report.seal"; size := 64; text := inr t |}.

(** A backend whose sessions have expired and that stores the metadata
    of files. *)
Definition expiredBackend (req : request) : exn + response :=
  if String.eqb (url req) "https://seal.email/api/auth/status" then
    inr {| status := 401; json := inr (JObj [("authenticated", JBool false)]) |}
  else if String.eqb (url req) "https://seal.email/api/files" then
    inr {| status := 200; json := inr (JObj [("success", JBool true)]) |}
  else inl {| kind := TypeErrorK; message := "Failed to fetch" |}.

(** No network. *)
Definition offline (req : request) : exn + response :=
  inl {| kind := TypeErrorK; message := "Failed to fetch" |}.

(** One Gmail tab, which accepts what is relayed to it. *)
Definition gmailTabs : list Z := [7].

Definition tabs_sendMessage (id : Z) (m : jsval) : string + jsval :=
  if id =? 7 then inr (JObj [("success", JBool true)])
  else inl "Could not establish connection. Receiving end does not exist.".

(** The CORS helper echoes the origin of the request. *)
Definition corsHeaders (r : serverRequest) : exn + list (string * string) :=
  inr match requestOrigin r with
      | Some o => [("Access-Control-Allow-Origin", o)]
      | None => []
      end.

Definition env_supabaseUrl : option string := Some "https://project.supabase.co".

Definition env_supabaseAnonKey : option string := Some "anon".

(** An identity service that knows [u@x.com] with the password [pw]. *)
Definition signInWithPassword (supabaseUrl supabaseAnonKey : string) (email password : jsval)
  : exn + jsval :=
  if strict_eq email (JStr "u@x.com") && strict_eq password (JStr "pw") then
    inr (JObj [("data", JObj [("user", JObj [("email", JStr "u@x.com")]);
                              ("session", JObj [("access_token", JStr "tok")])]);
               ("error", JNull)])
  else
    inr (JObj [("data", JObj [("user", JNull); ("session", JNull)]);
               ("error", JObj [("message", JStr "Invalid login credentials")])]).

Definition portClosedText : string :=
  "The message port closed before a response was received.".

(** Trimming of spaces. *)
Fixpoint trimStart (s : list ascii) : list ascii :=
  match s with
  | c :: rest => if Ascii.eqb c " "%char then trimStart rest else s
  | [] => []
  end.

Definition trim (s : string) : string :=
  string_of_list_ascii
    (List.rev (trimStart (List.rev (trimStart (list_ascii_of_string s))))).

(** A worker that has not used the tabs. *)
Definition idle (w : world) : agent := {| agentWorld := w; tabsCreated := []; tabMessages := [] |}.

(** A popup that has just been opened by a user whose worker is [a]. *)
Definition opened (a : agent) : page :=
  {| viewer := set_activeScreen Loading (dropScreen JNull);
     userEmailDisplay := "";
     form := {| loginErrorText := ""; loginErrorHidden := true;
                btnLoginSubmitDisabled := false; btnLoginSubmitText := "Sign in" |};
     listening := false; downloads := []; tabsOpened := []; worker := a |}.

(** The login request of the extension as the route receives it. *)
Definition loginPost (email password : jsval) : serverRequest :=
  {| requestOrigin := Some "chrome-extension://seal";
     requestJson := inr (JObj [("email", email); ("password", password)]) |}.

(** An envelope that carries the name of the file it encrypts. *)
Definition namedText : string :=
  "{" ++ dq ++ "version" ++ dq ++ ":1," ++ dq ++ "fileId" ++ dq ++ ":" ++ dq ++ "f1" ++ dq ++ ","
      ++ dq ++ "payload" ++ dq ++ ":" ++ dq ++ "ct" ++ dq ++ ","
      ++ dq ++ "metadata" ++ dq ++ ":{" ++ dq ++ "originalName" ++ dq ++ ":" ++ dq ++ "report.pdf"
      ++ dq ++ "}}".

Definition namedFields : list (string * jsval) :=
  [("version", JNum 1); ("fileId", JStr "f1"); ("payload", JStr "ct");
   ("metadata", JObj [("originalName", JStr "report.pdf")])].

(** [JSON.parse] that also reads the named envelope. *)
Definition JSON_parse_named (t : string) : string + jsval :=
  if String.eqb t namedText then inr (JObj namedFields) else JSON_parse t.

(** A platform that formats sizes as the popup's [formatFileSize]. *)
Definition formatSizes (v : jsval) : exn + string :=
  match v with
  | JNum n => inr (default "NaN MB" (Integer.formatFileSize n))
  | _ => inr "NaN MB"
  end.


(** A conversion to text that fails on an object whose [toString] is
    not a function, as the language does. *)
Definition strictText (v : jsval) : exn + string :=
  match v with
  | JNum n => inr (decimal n)
  | JObj fs =>
      match assoc "toString" fs with
      | Some (JNum _) =>
          inl {| kind := TypeErrorK; message := "Cannot convert object to primitive value" |}
      | _ => inr "[object Object]"
      end
  | _ => inr "[object Object]"
  end.

(** A backend whose session names an email that is such an object. *)
Definition oddSession (req : request) : exn + response :=
  if String.eqb (url req) "https://seal.email/api/auth/status" then
    inr {| status := 200;
           json := inr (JObj [("authenticated", JBool true);
                              ("email", JObj [("toString", JNum 0)])]) |}
  else inl {| kind := TypeErrorK; message := "Failed to fetch" |}.

End Sample.

Section Seal.

(** ** What the platform supplies *)

(** The wording of an engine error. *)
Variable engineText : engine_error -> string.

(** [new URL(u).origin]; [None] when the constructor throws. *)
Variable URL_origin : string -> option string.

(** [`${v}`] for a value that is not a string, a boolean, [null] or
    [undefined]: the digits of a number, the conversion of an array or
    an object, which can throw. *)
Variable ToString_other : jsval -> exn + string.

Variable encodeURIComponent : string -> string.

(** A call of [fetch] resolves with a response or rejects. *)
Variable fetch : request -> exn + response.

(** [chrome.runtime.getManifest().version]. *)
Variable manifest_version : string.

(** ** Reading values *)

Definition typeError (e : engine_error) : exn :=
  {| kind := TypeErrorK; message := engineText e |}.

(** [v.k] for the property names the scripts read.  Reading a property
    of [null] or [undefined] throws; a primitive has none of these
    properties except the [length] of a string. *)
Definition prop (v : jsval) (k : string) : exn + jsval :=
  match v with
  | JUndefined | JNull => inl (typeError (ReadOfNullish v k))
  | JObj fields => inr (default JUndefined (assoc k fields))
  | JStr s => inr (if String.eqb k "length" then JNum (Z.of_nat (String.length s)) else JUndefined)
  | JArr l => inr (if String.eqb k "length" then JNum (Z.of_nat (List.length l)) else JUndefined)
  | JBool _ | JNum _ => inr JUndefined
  end.

(** Template-literal conversion [`${v}`]. *)
Definition ToString (v : jsval) : exn + string :=
  match v with
  | JStr s => inr s
  | JUndefined => inr "undefined"
  | JNull => inr "null"
  | JBool true => inr "true"
  | JBool false => inr "false"
  | _ => ToString_other v
  end.

(** ** The background service worker: API functions *)

(** [authHeaders]: the [Authorization] header, attached when the stored
    token is truthy. *)
Definition authHeaders : M world (option string) :=
  do stored <- getStoredAuth;
  do authToken <- lift (prop stored "authToken");
  if truthy authToken then
    do t <- lift (ToString authToken);
    ret (Some ("Bearer " ++ t))
  else ret None.

Definition do_fetch (req : request) : M world response :=
  fun w => (fetch req, {| storage := storage w; network := network w ++ [req] |}).

Definition checkAuth : M world jsval :=
  try_catch
    (do headers <- authHeaders;
     do response <- do_fetch {| url := API_BASE ++ "/auth/status"; method := "GET";
                                authorization := headers; body := None |};
     if negb (ok response) then
       run clearAuth;
       ret (JObj [("authenticated", JBool false)])
     else
       do data <- lift (json response);
       do authenticated <- lift (prop data "authenticated");
       (* [data.authenticated && data.email]; when truthy it is [data.email] *)
       do email <- (if truthy authenticated then lift (prop data "email") else ret authenticated);
       run (if truthy email then
              do stored <- getStoredAuth;
              do storedEmail <- lift (prop stored "userEmail");
              if negb (strict_eq storedEmail email) then
                do authToken <- lift (prop stored "authToken");
                storeAuth (js_or authToken (JStr "")) email
              else ret tt
            else clearAuth);
       ret data)
    (fun err => ret (JObj [("authenticated", JBool false); ("error", JStr (message err))])).

Definition fetchPublicKey (email : string) : M world jsval :=
  try_catch
    (do headers <- authHeaders;
     do response <- do_fetch {| url := API_BASE ++ "/users/public-key/" ++ encodeURIComponent email;
                                method := "GET"; authorization := headers; body := None |};
     if negb (ok response) then
       if status response =? 404 then
         ret (JObj [("found", JBool false); ("email", JStr email)])
       else
         throw {| kind := ErrorK; message := "Failed to fetch key for " ++ email |}
     else
       do data <- lift (json response);
       do publicKey <- lift (prop data "publicKey");
       ret (JObj [("found", JBool true); ("email", JStr email); ("publicKey", publicKey)]))
    (fun err => ret (JObj [("found", JBool false); ("email", JStr email);
                           ("error", JStr (message err))])).

(** ** The background service worker: internal handlers *)

Definition getStoredEmail : M world jsval :=
  do stored <- getStoredAuth;
  do storedEmail <- lift (prop stored "userEmail");
  ret (JObj [("email", js_or storedEmail JNull)]).

Definition loginWithCredentials (request : jsval) : M world jsval :=
  do email <- lift (prop request "email");
  do password <- lift (prop request "password");
  if negb (truthy email) || negb (truthy password) then
    ret (JObj [("authenticated", JBool false); ("error", JStr "Email and password are required")])
  else
    try_catch
      (do response <- do_fetch {| url := API_BASE ++ "/auth/login"; method := "POST";
                                  authorization := None;
                                  body := Some (JObj [("email", email); ("password", password)]) |};
       do data <- lift (json response);
       do failed <- (if negb (ok response) then ret true
                     else do authenticated <- lift (prop data "authenticated");
                          ret (negb (truthy authenticated)));
       if (failed : bool) then
         do error <- lift (prop data "error");
         ret (JObj [("authenticated", JBool false); ("error", js_or error (JStr "Login failed"))])
       else
         do token <- lift (prop data "token");
         do dataEmail <- lift (prop data "email");
         run storeAuth token dataEmail;
         ret (JObj [("authenticated", JBool true); ("email", dataEmail)]))
      (fun err => ret (JObj [("authenticated", JBool false); ("error", JStr (message err))])).

Definition logout : M world jsval :=
  run clearAuth;
  ret (JObj [("success", JBool true)]).

(** ** The background service worker: the external listener *)

(** [sender.url ? new URL(sender.url).origin : ''] *)
Definition senderOrigin (s : sender) : exn + string :=
  match sender_url s with
  | Some u =>
      if truthy (JStr u) then
        match URL_origin u with
        | Some o => inr o
        | None => inl (typeError (InvalidURL u))
        end
      else inr ""
  | None => inr ""
  end.

Definition onMessageExternal (message : jsval) (s : sender) : M world reply :=
  do origin <- lift (senderOrigin s);
  if negb (includes allowedOrigins origin) then
    ret {| sent := JObj [("error", JStr "Unauthorized origin")]; keepOpen := false |}
  else
    do type <- lift (prop message "type");
    if strict_eq type (JStr "SEAL_AUTH_TOKEN") then
      do token <- lift (prop message "token");
      do email <- lift (prop message "email");
      if truthy token && truthy email then
        run storeAuth token email;
        ret {| sent := JObj [("success", JBool true)]; keepOpen := true |}
      else
        ret {| sent := JObj [("error", JStr "Missing token or email")]; keepOpen := true |}
    else if strict_eq type (JStr "SEAL_LOGOUT") then
      run clearAuth;
      ret {| sent := JObj [("success", JBool true)]; keepOpen := true |}
    else if strict_eq type (JStr "SEAL_PING") then
      ret {| sent := JObj [("installed", JBool true); ("version", JStr manifest_version)];
             keepOpen := false |}
    else
      ret {| sent := JObj [("error", JStr "Unknown message type")]; keepOpen := false |}.

(** ** The popup: what the platform supplies *)

(** [JSON.parse(text)]: the value, or the message of the [SyntaxError]. *)
Variable JSON_parse : string -> string + jsval.

(** [new Date(v)]: the time value in milliseconds, [None] for an invalid
    date; the conversion of an array or an object can throw. *)
Variable Date_value : jsval -> exn + option Z.

(** The time value of [new Date()]. *)
Variable now : Z.

Variable toLocaleDateString : option Z -> string.

(** [s.toLowerCase()]. *)
Variable toLowerCase : string -> string.

(** [v > 0] for a string, an array or an object. *)
Variable gt0_other : jsval -> exn + bool.

(** [formatFileSize(bytes)] (floating-point division and [toFixed]). *)
Variable formatFileSize : jsval -> exn + string.

(** ** The popup: [displayFileInfo] and [handleFile] *)

Definition and_then {A B : Type} (r : exn + A) (k : A -> exn + B) : exn + B :=
  match r with
  | inl e => inl e
  | inr a => k a
  end.

(** [v > 0]. *)
Definition js_gt0 (v : jsval) : exn + bool :=
  match v with
  | JNum n => inr (0 <? n)
  | JBool b => inr b
  | JUndefined | JNull => inr false
  | _ => gt0_other v
  end.

(** [a < b] on the time values of two dates, the second one valid. *)
Definition before (a : option Z) (b : Z) : bool :=
  match a with
  | Some t => t <? b
  | None => false
  end.

Fixpoint emailsOf (l : list jsval) : exn + list jsval :=
  match l with
  | [] => inr []
  | r :: rest =>
      and_then (prop r "email") (fun e =>
      and_then (emailsOf rest) (fun es => inr (e :: es)))
  end.

(** [recipients.map(r => r.email)]. *)
Definition mapEmails (recipients : jsval) : exn + list jsval :=
  match recipients with
  | JArr l => emailsOf l
  | _ => inl (typeError (NotAFunction recipients "map"))
  end.

(** The text of one element in [Array.prototype.join]. *)
Definition elementText (v : jsval) : exn + string :=
  match v with
  | JUndefined | JNull => inr ""
  | _ => ToString v
  end.

(** [l.join(sep)]. *)
Fixpoint join (l : list jsval) (sep : string) : exn + string :=
  match l with
  | [] => inr ""
  | x :: rest =>
      and_then (elementText x) (fun s =>
      match rest with
      | [] => inr s
      | _ :: _ => and_then (join rest sep) (fun r => inr (s ++ sep ++ r))
      end)
  end.

(** [v.toLowerCase()]. *)
Definition callToLowerCase (v : jsval) : exn + string :=
  match v with
  | JStr s => inr (toLowerCase s)
  | JUndefined | JNull => inl (typeError (ReadOfNullish v "toLowerCase"))
  | _ => inl (typeError (NotAFunction v "toLowerCase"))
  end.

(** The callback of [some]:
    [r => r.email.toLowerCase() === userEmail.toLowerCase()]. *)
Definition sameEmail (user r : jsval) : exn + bool :=
  and_then (prop r "email") (fun e =>
  and_then (callToLowerCase e) (fun a =>
  and_then (callToLowerCase user) (fun b =>
  inr (String.eqb a b)))).

Fixpoint someSameEmail (user : jsval) (l : list jsval) : exn + bool :=
  match l with
  | [] => inr false
  | r :: rest =>
      and_then (sameEmail user r) (fun found =>
      if (found : bool) then inr true else someSameEmail user rest)
  end.

(** [recipients.some(r => ...)]. *)
Definition someRecipient (recipients user : jsval) : exn + bool :=
  match recipients with
  | JArr l => someSameEmail user l
  | _ => inl (typeError (NotAFunction recipients "some"))
  end.

(** The text of [els.infoRecipients] for a non-empty list of emails. *)
Definition recipientsText (emails : list jsval) : exn + string :=
  if (List.length emails <=? 2)%nat then join emails ", "
  else
    and_then (ToString (nth 0 emails JUndefined)) (fun first =>
    and_then (ToString (JNum (Z.of_nat (List.length emails) - 1))) (fun more =>
    inr (first ++ " +" ++ more ++ " more"))).

Definition displayFileInfo (sealFile : jsval) (fileSize : Z) : M popup unit :=
  do metadata <- lift (prop sealFile "metadata");
  let meta := js_or metadata (JObj []) in
  do originalName <- lift (prop meta "originalName");
  do filenameText <- lift (ToString (js_or originalName (JStr "Unknown file")));
  run modify (set_infoFilename filenameText);
  do originalSize <- lift (prop meta "originalSize");
  do sizeText <- lift (formatFileSize (js_or originalSize (JNum fileSize)));
  run modify (set_infoSize sizeText);
  (* Encrypted date *)
  do encryptedAt <- lift (prop meta "encryptedAt");
  run (if truthy encryptedAt then
         do d <- lift (Date_value encryptedAt);
         modify (set_infoDate (toLocaleDateString d))
       else modify (set_infoDate "Unknown"));
  (* Expiration *)
  do expiresAtField <- lift (prop meta "expiresAt");
  do expired <- (if truthy expiresAtField then
                   do expiresAt <- lift (Date_value expiresAtField);
                   let expired := before expiresAt now in
                   run modify (set_infoExpires
                                 (if expired then ExpiredBadge
                                  else ExpiresText (toLocaleDateString expiresAt)));
                   ret expired
                 else
                   run modify (set_infoExpires (ExpiresText "Never"));
                   ret false);
  (* Recipients *)
  do recipients <- lift (prop sealFile "recipients");
  do listed <- (if truthy recipients then
                  do len <- lift (prop recipients "length");
                  lift (js_gt0 len)
                else ret false);
  run (if (listed : bool) then
         do emails <- lift (mapEmails recipients);
         do shown <- lift (recipientsText emails);
         run modify (set_infoRecipients shown);
         do title <- lift (join emails ", ");
         modify (set_infoRecipientsTitle title)
       else modify (set_infoRecipients "Unknown"));
  (* User access check *)
  do user <- gets userEmail;
  do access <- (if truthy user && truthy recipients then lift (someRecipient recipients user)
                else ret false);
  run (if truthy user then
         run modify (set_accessRowHidden false);
         modify (set_infoAccess (if (access : bool) then AccessGranted else AccessDenied))
       else modify (set_accessRowHidden true));
  (* Button state *)
  run (if (expired : bool) then modify (set_btnOpenViewer true "File has expired")
       else if negb access && truthy user then
         modify (set_btnOpenViewer true "You are not a recipient")
       else modify (set_btnOpenViewer false "Open in Secure Viewer"));
  showScreen Info.

Definition parseJSON (t : string) : exn + jsval :=
  match JSON_parse t with
  | inl m => inl {| kind := SyntaxErrorK; message := m |}
  | inr v => inr v
  end.

Definition handleFile (f : file) : M popup unit :=
  (* Validate file extension *)
  if negb (endsWith (name f) ".seal") then showError msgUnsupported
  (* Size guard *)
  else if size f >? 10 * 1024 * 1024 then showError msgTooLarge
  else
    try_catch
      (run modify (log_call FileText);
       do t <- lift (text f);
       (* Quick sanity check before full parse *)
       if negb (startsWith t "{") then showError msgNotSeal
       else
         run modify (log_call (JSONParse t));
         do sealFile <- lift (parseJSON t);
         (* Validate structure *)
         do version <- lift (prop sealFile "version");
         do fileId <- lift (prop sealFile "fileId");
         do payload <- lift (prop sealFile "payload");
         if negb (truthy version) || negb (truthy fileId) || negb (truthy payload) then
           showError msgIncomplete
         else
           run modify (set_currentFile sealFile (Some t));
           displayFileInfo sealFile (size f))
      (fun err =>
         match kind err with
         | SyntaxErrorK => showError msgCorrupted
         | _ => showError (msgUnexpected ++ message err)
         end).

(** ** Operations on the credential store *)

(** The paths along which the worker writes the store: an external
    message, and the internal [logout], [loginWithCredentials] and
    [checkAuth] handlers. *)
Inductive operation : Type :=
| External (message : jsval) (s : sender)
| InternalLogout
| InternalLogin (request : jsval)
| InternalCheckAuth.

(** The world once the operation has completed. *)
Definition after (op : operation) (w : world) : world :=
  match op with
  | External message s => (onMessageExternal message s w).2
  | InternalLogout => (logout w).2
  | InternalLogin request => (loginWithCredentials request w).2
  | InternalCheckAuth => (checkAuth w).2
  end.


(** The [Authorization] header [authHeaders] builds in a world. *)
Definition bearer (w : world) : exn + option string :=
  if truthy (storedToken w) then
    match ToString (storedToken w) with
    | inl e => inl e
    | inr t => inr (Some ("Bearer " ++ t))
    end
  else inr None.

Definition statusRequest (h : option string) : request :=
  {| url := API_BASE ++ "/auth/status"; method := "GET"; authorization := h; body := None |}.

Definition keyRequest (email : string) (h : option string) : request :=
  {| url := API_BASE ++ "/users/public-key/" ++ encodeURIComponent email; method := "GET";
     authorization := h; body := None |}.

Definition loginRequest (email password : jsval) : request :=
  {| url := API_BASE ++ "/auth/login"; method := "POST"; authorization := None;
     body := Some (JObj [("email", email); ("password", password)]) |}.

(** The answer of a handler whose [catch] block has run. *)
Definition notAuthenticated (err : exn) : jsval :=
  JObj [("authenticated", JBool false); ("error", JStr (message err))].

(** ** Reading an envelope *)

(** [(sealFile.metadata || {}).k] for a parsed envelope object. *)
Definition metaField (k : string) (fields : list (string * jsval)) : jsval :=
  match js_or (field "metadata" fields) (JObj []) with
  | JObj m => field k m
  | JStr s => if String.eqb k "length" then JNum (Z.of_nat (String.length s)) else JUndefined
  | JArr l => if String.eqb k "length" then JNum (Z.of_nat (List.length l)) else JUndefined
  | _ => JUndefined
  end.

(** The entries of the recipients list; none when there is no list. *)
Definition entries (recipients : jsval) : list jsval :=
  match recipients with
  | JArr l => l
  | _ => []
  end.

(** The state [showError(m)] leaves. *)
Definition rejected (m : string) (p : popup) : (exn + unit) * popup :=
  (inr tt, set_activeScreen Error (set_errorMessage m p)).

(** The size guard: 10 MiB. *)
Definition sizeLimit : Z := 10 * 1024 * 1024.

(** ** Envelopes of the documented shape *)

Definition stringOrAbsent (v : jsval) : Prop := v = JUndefined \/ exists s, v = JStr s.

Definition numberOrAbsent (v : jsval) : Prop := v = JUndefined \/ exists n, v = JNum n.

(** A recipient entry: an object whose [email] is a string. *)
Definition recipientEntry (r : jsval) : Prop :=
  exists o m, r = JObj o /\ field "email" o = JStr m.

(** The optional parts of an envelope as the file format gives them:
    [metadata] with a string [originalName], a number [originalSize]
    and string dates, and [recipients] a list of entries. *)
Definition typedEnvelope (fields : list (string * jsval)) : Prop :=
  stringOrAbsent (metaField "originalName" fields) /\
  numberOrAbsent (metaField "originalSize" fields) /\
  stringOrAbsent (metaField "encryptedAt" fields) /\
  stringOrAbsent (metaField "expiresAt" fields) /\
  (field "recipients" fields = JUndefined \/
   exists l, field "recipients" fields = JArr l /\ Forall recipientEntry l).

(** The conversions of numbers and strings do not throw. *)
Definition platformConverts : Prop :=
  (forall n, exists t, ToString_other (JNum n) = inr t) /\
  (forall n, exists t, formatFileSize (JNum n) = inr t) /\
  (forall s, exists d, Date_value (JStr s) = inr d).

(** The popup knows no identity, or knows an email string. *)
Definition identity (user : jsval) : Prop := user = JNull \/ exists e, user = JStr e.

(** ** The background service worker: the remaining API functions *)

Definition filesRequest (h : option string)
    (fileId filename recipientEmails expiresAt senderEmail : jsval) : request :=
  {| url := API_BASE ++ "/files"; method := "POST"; authorization := h;
     body := Some (JObj [("fileId", fileId); ("filename", filename);
                         ("recipientEmails", recipientEmails); ("expiresAt", expiresAt);
                         ("senderEmail", senderEmail)]) |}.

(** [saveFileMetadata]: the [catch] block logs and throws the error
    again. *)
Definition saveFileMetadata (fileId filename recipientEmails expiresAt senderEmail : jsval)
  : M world jsval :=
  try_catch
    (do headers <- authHeaders;
     do response <- do_fetch (filesRequest headers fileId filename recipientEmails expiresAt
                                senderEmail);
     if negb (ok response) then
       throw {| kind := ErrorK; message := "Failed to save file metadata" |}
     else lift (json response))
    (fun err => throw err).

(** [fetchPublicKey] called with any value, as [emails.map(fetchPublicKey)]
    can.  The value is converted where a template or
    [encodeURIComponent] needs its text: in the [try] block, and in the
    [console.error] of the [catch] block, where a conversion that
    throws makes the call reject. *)
Definition fetchPublicKeyOf (email : jsval) : M world jsval :=
  try_catch
    (do headers <- authHeaders;
     do shown <- lift (ToString email);
     do response <- do_fetch (keyRequest shown headers);
     if negb (ok response) then
       if status response =? 404 then
         ret (JObj [("found", JBool false); ("email", email)])
       else
         throw {| kind := ErrorK; message := "Failed to fetch key for " ++ shown |}
     else
       do data <- lift (json response);
       do publicKey <- lift (prop data "publicKey");
       ret (JObj [("found", JBool true); ("email", email); ("publicKey", publicKey)]))
    (fun err =>
       do logged <- lift (ToString email);
       ret (JObj [("found", JBool false); ("email", email); ("error", JStr (message err))])).

(** A promise run until it settles: its outcome as a value. *)
Definition settle {S A : Type} (m : M S A) : M S (exn + A) :=
  fun s => (inr (m s).1, (m s).2).

(** [emails.map(fetchPublicKey)]: every call is started and settles.
    The calls only read the store, so their answers do not depend on
    how they interleave; the calls of [fetch] are recorded in the order
    of the list. *)
Fixpoint settleKeys (emails : list jsval) : M world (list (exn + jsval)) :=
  match emails with
  | [] => ret []
  | email :: rest =>
      do r <- settle (fetchPublicKeyOf email);
      do rs <- settleKeys rest;
      ret (r :: rs)
  end.

(** [Promise.all]: the values in order, or the first rejection. *)
Fixpoint promiseAll (settled : list (exn + jsval)) : exn + list jsval :=
  match settled with
  | [] => inr []
  | inl e :: _ => inl e
  | inr v :: rest =>
      match promiseAll rest with
      | inl e => inl e
      | inr vs => inr (v :: vs)
      end
  end.

(** The [fetchRecipientKeys] handler. *)
Definition fetchRecipientKeys (request : jsval) : M world jsval :=
  do emails <- lift (prop request "emails");
  match emails with
  | JArr l =>
      do settled <- settleKeys l;
      do results <- lift (promiseAll settled);
      ret (JObj [("recipients", JArr results)])
  | JUndefined | JNull => throw (typeError (ReadOfNullish emails "map"))
  | _ => throw (typeError (NotAFunction emails "map"))
  end.

(** The [saveMetadata] handler. *)
Definition saveMetadata (request : jsval) : M world jsval :=
  do fileId <- lift (prop request "fileId");
  do filename <- lift (prop request "filename");
  do recipientEmails <- lift (prop request "recipientEmails");
  do expiresAt <- lift (prop request "expiresAt");
  do senderEmail <- lift (prop request "senderEmail");
  saveFileMetadata fileId filename recipientEmails expiresAt senderEmail.

(** What [fetchPublicKey] answers for a header and the outcome of its
    call of [fetch]. *)
Definition keyAnswer (email : string) (outcome : exn + response) : jsval :=
  let failed e := JObj [("found", JBool false); ("email", JStr email);
                        ("error", JStr (message e))] in
  match outcome with
  | inl e => failed e
  | inr r =>
      if ok r then
        match json r with
        | inl e => failed e
        | inr data =>
            match prop data "publicKey" with
            | inl e => failed e
            | inr publicKey =>
                JObj [("found", JBool true); ("email", JStr email); ("publicKey", publicKey)]
            end
        end
      else if status r =? 404 then JObj [("found", JBool false); ("email", JStr email)]
      else failed {| kind := ErrorK; message := "Failed to fetch key for " ++ email |}
  end.

(** ** The background service worker: the internal listener *)

(** [chrome.tabs.query({active: true, currentWindow: true, url:
    'https://mail.google.com/*'})]: the ids of the matching tabs. *)
Variable gmailTabs : list Z.

(** [chrome.tabs.sendMessage(id, message, callback)]: the response of
    the tab, or the message of [chrome.runtime.lastError]. *)
Variable tabs_sendMessage : Z -> jsval -> string + jsval.

(** The [attachToGmail] handler. *)
Definition attachToGmail (request : jsval) : M agent jsval :=
  match gmailTabs with
  | [] => throw {| kind := ErrorK; message := "No Gmail tab found" |}
  | id :: _ =>
      do sealFile <- lift (prop request "sealFile");
      do filename <- lift (prop request "filename");
      let relay := JObj [("action", JStr "attachSealFile"); ("sealFile", sealFile);
                         ("filename", filename)] in
      run modify (fun a => {| agentWorld := agentWorld a; tabsCreated := tabsCreated a;
                              tabMessages := tabMessages a ++ [(id, relay)] |});
      match tabs_sendMessage id relay with
      | inl lastError => throw {| kind := ErrorK; message := lastError |}
      | inr response => ret response
      end
  end.

(** The [openLogin] handler. *)
Definition openLogin : M agent jsval :=
  run modify (fun a => {| agentWorld := agentWorld a;
                          tabsCreated := tabsCreated a ++ ["https://seal.email/login?from=extension"];
                          tabMessages := tabMessages a |});
  ret (JObj [("success", JBool true)]).

(** [messageHandlers[name]] for an own property. *)
Definition messageHandlers (name : string) : option (jsval -> M agent jsval) :=
  if String.eqb name "checkAuth" then Some (fun _ => inWorld checkAuth)
  else if String.eqb name "fetchRecipientKeys" then
    Some (fun request => inWorld (fetchRecipientKeys request))
  else if String.eqb name "saveMetadata" then Some (fun request => inWorld (saveMetadata request))
  else if String.eqb name "attachToGmail" then Some attachToGmail
  else if String.eqb name "openLogin" then Some (fun _ => openLogin)
  else if String.eqb name "getStoredEmail" then Some (fun _ => inWorld getStoredEmail)
  else if String.eqb name "loginWithCredentials" then
    Some (fun request => inWorld (loginWithCredentials request))
  else if String.eqb name "logout" then Some (fun _ => inWorld logout)
  else None.

(** The listener of [chrome.runtime.onMessage]: the answer given to
    [sendResponse], or [None] when the listener returns without
    answering. *)
Definition onMessage (request : jsval) : M agent (option reply) :=
  do action <- lift (prop request "action");
  do name <- lift (ToString action);
  match messageHandlers name with
  | Some handler =>
      do answer <- try_catch (handler request)
                     (fun err => ret (JObj [("error", JStr (message err))]));
      ret (Some {| sent := answer; keepOpen := true |})
  | None =>
      if includes objectPrototypeNames name then throw (typeError (NotAFunction request name))
      else ret None
  end.

(** ** The login route of the web application *)

(** [corsHeaders(request)], from the CORS helper of the application. *)
Variable corsHeaders : serverRequest -> exn + list (string * string).

(** [process.env.NEXT_PUBLIC_SUPABASE_URL] and
    [process.env.NEXT_PUBLIC_SUPABASE_ANON_KEY]. *)
Variable env_supabaseUrl : option string.
Variable env_supabaseAnonKey : option string.

(** [createClient(url, key).auth.signInWithPassword({email, password})]:
    the [{data, error}] object, or what creating the client or the call
    throws. *)
Variable signInWithPassword : string -> string -> jsval -> jsval -> exn + jsval.

(** A variable of the environment that is set and not empty. *)
Definition configured (v : option string) : option string :=
  match v with
  | Some s => if truthy (JStr s) then Some s else None
  | None => None
  end.

(** [error?.message]. *)
Definition optionalMessage (error : jsval) : exn + jsval :=
  match error with
  | JUndefined | JNull => inr JUndefined
  | _ => prop error "message"
  end.

(** [POST /api/auth/login].  The state is the list of sign-in attempts
    made, oldest first. *)
Definition POST (request : serverRequest) : M (list (jsval * jsval)) nextResponse :=
  do headers <- lift (corsHeaders request);
  try_catch
    (do posted <- lift (requestJson request);
     do email <- lift (prop posted "email");
     do password <- lift (prop posted "password");
     if negb (truthy email) || negb (truthy password) then
       ret (respond 400 [("error", JStr "Email and password are required")] headers)
     else
       match configured env_supabaseUrl, configured env_supabaseAnonKey with
       | Some supabaseUrl, Some supabaseAnonKey =>
           run modify (fun attempts => (attempts ++ [(email, password)])%list);
           do result <- lift (signInWithPassword supabaseUrl supabaseAnonKey email password);
           do data <- lift (prop result "data");
           do error <- lift (prop result "error");
           do refused <- (if truthy error then ret true
                          else do session <- lift (prop data "session");
                               ret (negb (truthy session)));
           if (refused : bool) then
             do reason <- lift (optionalMessage error);
             ret (respond 401 [("error", js_or reason (JStr "Invalid email or password"))]
                    headers)
           else
             do user <- lift (prop data "user");
             do userEmail <- lift (prop user "email");
             do session <- lift (prop data "session");
             do token <- lift (prop session "access_token");
             ret (respond 200 [("authenticated", JBool true); ("email", userEmail);
                               ("token", token)] headers)
       | _, _ => ret (respond 500 [("error", JStr "Server configuration error")] headers)
       end)
    (fun err => ret (respond 500 [("error", JStr "Internal server error")] headers)).

(** The ways the route answers. *)
Inductive routeAnswer (h : list (string * string)) : nextResponse -> Prop :=
| Signed (email token : jsval) :
    routeAnswer h (respond 200 [("authenticated", JBool true); ("email", email);
                                ("token", token)] h)
| Refused (status : Z) (error : jsval) :
    In status [400; 401; 500] -> truthy error = true ->
    routeAnswer h {| responseStatus := status; responseBody := JObj [("error", error)];
                     responseHeaders := h |}.

(** The message the [catch] block of [handleFile] shows for an error. *)
Definition caughtMessage (err : exn) : string :=
  match kind err with
  | SyntaxErrorK => msgCorrupted
  | _ => msgUnexpected ++ message err
  end.

(** ** The popup: talking to the worker *)

(** The message of [chrome.runtime.lastError] when no listener has
    answered. *)
Variable portClosedText : string.

(** [chrome.runtime.sendMessage(message, callback)] from the popup: the
    listener of the worker runs on what arrives of the message, and the
    callback gets what arrives of the answer, or [lastError] when the
    listener threw or returned without answering. *)
Definition deliver (message : jsval) (a : agent) : (string + jsval) * agent :=
  match onMessage (wire message) a with
  | (inr (Some r), a') => (inr (wire (sent r)), a')
  | (_, a') => (inl portClosedText, a')
  end.

(** [sendMessage].  An exception inside the callback leaves the promise
    unsettled. *)
Definition sendMessage (message : jsval) (g : page) : promise jsval * page :=
  let delivered := deliver message (worker g) in
  let g' := set_worker delivered.2 g in
  match delivered.1 with
  | inl lastError => (Rejected {| kind := ErrorK; message := lastError |}, g')
  | inr response =>
      (* [response && response.error] *)
      match (if truthy response then prop response "error" else inr response) with
      | inl _ => (Pending, g')
      | inr error =>
          if truthy error then
            match ToString error with
            | inl _ => (Pending, g')
            | inr m => (Rejected {| kind := ErrorK; message := m |}, g')
            end
          else (Resolved (js_or response (JObj [])), g')
      end
  end.

(** ** The popup: signing in and out *)

Definition setupEventListeners : M page unit := modify (set_listening true).

(** [element.textContent = v]: the text the element gets.  The value
    is converted to a string, [null] and [undefined] to the empty one;
    a conversion that throws makes the assignment throw. *)
Definition textContent (v : jsval) : exn + string :=
  match v with
  | JUndefined | JNull => inr ""
  | _ => ToString v
  end.

(** The branch both [init] and [handleLogin] take when the result is
    [authenticated] and has an [email]: the variable is assigned
    first, then the text of the display, then the screen changes. *)
Definition signedIn (result : jsval) : M page unit :=
  do email <- lift (prop result "email");
  run modify (set_viewer (set_userEmail email));
  do shown <- lift (textContent email);
  run modify (set_userEmailDisplay shown);
  inViewer (showScreen Drop).

Definition init (g : page) : promise unit * page :=
  await (sendMessage (JObj [("action", JStr "checkAuth")]) (inViewer (showScreen Loading) g).2)
    (fun settled =>
       run try_catch
             (do authResult <- lift settled;
              do authenticated <- lift (prop authResult "authenticated");
              (* [authResult.authenticated && authResult.email] *)
              do both <- (if truthy authenticated then lift (prop authResult "email")
                          else ret authenticated);
              if truthy both then signedIn authResult
              else inViewer (showScreen Login))
             (fun err => inViewer (showScreen Login));
       setupEventListeners).

(** [els.loginEmail.value.trim()]. *)
Variable trim : string -> string.

Definition showLoginError (v : string) (f : loginForm) : loginForm :=
  {| loginErrorText := v; loginErrorHidden := false;
     btnLoginSubmitDisabled := btnLoginSubmitDisabled f;
     btnLoginSubmitText := btnLoginSubmitText f |}.

Definition set_btnLoginSubmit (disabled : bool) (t : string) (f : loginForm) : loginForm :=
  {| loginErrorText := loginErrorText f; loginErrorHidden := loginErrorHidden f;
     btnLoginSubmitDisabled := disabled; btnLoginSubmitText := t |}.

Definition hideLoginError (f : loginForm) : loginForm :=
  {| loginErrorText := loginErrorText f; loginErrorHidden := true;
     btnLoginSubmitDisabled := btnLoginSubmitDisabled f;
     btnLoginSubmitText := btnLoginSubmitText f |}.

(** [handleLogin], for the values of the two inputs of the form. *)
Definition handleLogin (loginEmail loginPassword : string) (g : page) : promise unit * page :=
  let email := trim loginEmail in
  let password := loginPassword in
  let g0 := set_form (fun f => set_btnLoginSubmit true "Signing in..." (hideLoginError f)) g in
  await (sendMessage (JObj [("action", JStr "loginWithCredentials"); ("email", JStr email);
                            ("password", JStr password)]) g0)
    (fun settled =>
       try_finally
         (try_catch
            (do result <- lift settled;
             do authenticated <- lift (prop result "authenticated");
             do both <- (if truthy authenticated then lift (prop result "email")
                         else ret authenticated);
             if truthy both then signedIn result
             else
               do error <- lift (prop result "error");
               do shown <- lift (textContent (js_or error (JStr msgLoginFailed)));
               modify (set_form (showLoginError shown)))
            (fun err =>
               do shown <- lift (textContent (js_or (JStr (message err))
                                                (JStr msgLoginFailed)));
               modify (set_form (showLoginError shown))))
         (modify (set_form (set_btnLoginSubmit false "Sign in")))).

Definition handleLogout (g : page) : promise unit * page :=
  await (sendMessage (JObj [("action", JStr "logout")]) g)
    (fun _ =>
       (* a rejection is ignored *)
       run modify (set_viewer (set_userEmail JNull));
       run modify (set_viewer (set_currentFile JNull None));
       inViewer (showScreen Login)).

(** The back buttons of the info screen and of the error screen. *)
Definition backToDrop : M popup unit :=
  run modify (set_currentFile JNull None);
  showScreen Drop.

(** ** The popup: opening the viewer *)

(** [openInViewer]: the file in memory is downloaded as it was read,
    and the callback of the download opens the viewer. *)
Definition openInViewer : M page unit :=
  do current <- gets (fun g => currentSealFile (viewer g));
  if negb (truthy current) then ret tt
  else
    do raw <- gets (fun g => currentRawText (viewer g));
    (* [new Blob([currentRawText])] *)
    let blob := match raw with Some t => t | None => "null" end in
    do metadata <- lift (prop current "metadata");
    (* [metadata?.originalName] *)
    do originalName <- lift (match metadata with
                             | JUndefined | JNull => inr JUndefined
                             | _ => prop metadata "originalName"
                             end);
    do base <- lift (ToString (js_or originalName (JStr "file")));
    run modify (fun g => set_downloads (downloads g ++ [(blob, base ++ ".seal")]) g);
    modify (fun g => set_tabsOpened (tabsOpened g ++ ["https://seal.email/viewer"]) g).

(** The message [handleLogin] sends, and the state of the form while
    the answer is awaited. *)
Definition loginMessage (email password : string) : list (string * jsval) :=
  [("action", JStr "loginWithCredentials"); ("email", JStr email); ("password", JStr password)].

Definition signingIn (g : page) : page :=
  set_form (fun f => set_btnLoginSubmit true "Signing in..." (hideLoginError f)) g.

(** The rest of [handleLogin] after its [await]: the [try] and
    [catch] blocks, then the [finally] block. *)
Definition tryLogin (settled : exn + jsval) : M page unit :=
  try_catch
    (do result <- lift settled;
     do authenticated <- lift (prop result "authenticated");
     do both <- (if truthy authenticated then lift (prop result "email")
                 else ret authenticated);
     if truthy both then signedIn result
     else
       do error <- lift (prop result "error");
       do shown <- lift (textContent (js_or error (JStr msgLoginFailed)));
       modify (set_form (showLoginError shown)))
    (fun err =>
       do shown <- lift (textContent (js_or (JStr (message err)) (JStr msgLoginFailed)));
       modify (set_form (showLoginError shown))).

Definition afterLogin (settled : exn + jsval) : M page unit :=
  try_finally (tryLogin settled) (modify (set_form (set_btnLoginSubmit false "Sign in"))).

(** The platform's [formatFileSize] agrees with the integer one on the
    sizes a file can have. *)
Definition formatsIntegers : Prop :=
  forall (n : Z) (shown : string),
    Integer.formatFileSize n = Some shown -> formatFileSize (JNum n) = inr shown.

(** The rest of [init] after its [await]. *)
Definition afterInit (settled : exn + jsval) : M page unit :=
  run try_catch
        (do authResult <- lift settled;
         do authenticated <- lift (prop authResult "authenticated");
         do both <- (if truthy authenticated then lift (prop authResult "email")
                     else ret authenticated);
         if truthy both then signedIn authResult
         else inViewer (showScreen Login))
        (fun err => inViewer (showScreen Login));
  setupEventListeners.

(** The text [handleLogin] shows for an error it caught:
    [err.message || 'Login failed. ...']. *)
Definition loginFailure (err : exn) : string :=
  if String.eqb (message err) "" then msgLoginFailed else message err.

(** The page once the popup is signed in as [email], shown as [shown]. *)
Definition signedInAs (email : jsval) (shown : string) (g : page) : page :=
  set_viewer (set_activeScreen Drop)
    (set_userEmailDisplay shown (set_viewer (set_userEmail email) g)).

(** A file passes the five checks of [handleFile] with the text [t] and
    the parsed value [sealFile]: the suffix, the size, the opening
    brace, the parse and the three fields of the envelope. *)
Definition passesChecks (f : file) (t : string) (sealFile : jsval) : Prop :=
  endsWith (name f) ".seal" = true /\ size f <= sizeLimit /\
  text f = inr t /\ startsWith t "{" = true /\ JSON_parse t = inr sealFile /\
  exists version fileId payload,
    prop sealFile "version" = inr version /\ prop sealFile "fileId" = inr fileId /\
    prop sealFile "payload" = inr payload /\
    truthy version = true /\ truthy fileId = true /\ truthy payload = true.

(** ** Running the store operations *)

(** Reduce the tests and the applications a case analysis leaves. *)
Ltac step := cbn [negb andb orb]; cbv beta iota.

Arguments storeAuth : simpl never.
Arguments clearAuth : simpl never.

Lemma includes_In (l : list string) (x : string) : includes l x = true <-> In x l.
Proof.
  unfold includes. rewrite existsb_exists. split.
  - intros [y [Hy Heq]]. apply String.eqb_eq in Heq. now subst.
  - intros H. exists x. split; [assumption | apply String.eqb_refl].
Qed.

Lemma includes_not_In (l : list string) (x : string) : ~ In x l -> includes l x = false.
Proof.
  intros H. destruct (includes l x) eqn:E; [| reflexivity].
  apply includes_In in E. contradiction.
Qed.

Lemma truthy_defined (v : jsval) : truthy v = true -> v <> JUndefined.
Proof. intros H ->. discriminate. Qed.

Lemma storeAuth_run (token email : jsval) (w : world) :
  token <> JUndefined -> email <> JUndefined ->
  storeAuth token email w = (inr tt, withAuth token email w).
Proof.
  intros Ht He. unfold storeAuth, storage_set, modify, withAuth, set_storage. simpl.
  destruct token; try congruence; destruct email; try congruence; reflexivity.
Qed.

Lemma clearAuth_run (w : world) : clearAuth w = (inr tt, withoutAuth w).
Proof. reflexivity. Qed.

Lemma getStoredAuth_run (w : world) :
  exists stored,
    getStoredAuth w = (inr stored, w) /\
    prop stored "authToken" = inr (storedToken w) /\
    prop stored "userEmail" = inr (storedEmail w).
Proof.
  unfold getStoredAuth, storage_get, gets, bind, ret, storedToken, storedEmail.
  eexists. split; [reflexivity |].
  simpl. destruct (storage w !! "authToken"), (storage w !! "userEmail"); simpl; auto.
Qed.

(** ** The external listener *)

(** C1.  A message whose sender origin is not on the allow-list gets
    the answer [{error: 'Unauthorized origin'}], whatever the message is
    (its [type] is not read: the answer is the same for a message on
    which reading [type] would throw), and the world, credential store
    included, is left as it was. *)
Theorem external_origin_gate (message : jsval) (s : sender) (w : world) (origin : string) :
  senderOrigin s = inr origin ->
  ~ In origin allowedOrigins ->
  onMessageExternal message s w
  = (inr {| sent := JObj [("error", JStr "Unauthorized origin")]; keepOpen := false |}, w).
Proof.
  intros Ho Hnot. unfold onMessageExternal, bind, lift, ret.
  rewrite Ho. now rewrite (includes_not_In _ _ Hnot).
Qed.

Lemma prop_field (fields : list (string * jsval)) (k : string) :
  prop (JObj fields) k = inr (field k fields).
Proof. reflexivity. Qed.

(** C2 (amended).  For an auth-token-handoff message from an
    allow-listed origin: when the token and the email are both truthy,
    the pair is stored with [storeAuth] and the answer is
    [{success: true}]; when either is absent or falsy (an empty string,
    0, [false], [null]), the answer is [{error: 'Missing token or
    email'}] and the world, credential store included, is unchanged. *)
Theorem handoff_truthy_pair (fields : list (string * jsval)) (s : sender) (w : world)
    (origin : string) :
  senderOrigin s = inr origin ->
  In origin allowedOrigins ->
  field "type" fields = JStr "SEAL_AUTH_TOKEN" ->
  (truthy (field "token" fields) = true -> truthy (field "email" fields) = true ->
   onMessageExternal (JObj fields) s w
   = (inr {| sent := JObj [("success", JBool true)]; keepOpen := true |},
      withAuth (field "token" fields) (field "email" fields) w) /\
   storeAuth (field "token" fields) (field "email" fields) w
   = (inr tt, withAuth (field "token" fields) (field "email" fields) w)) /\
  (assoc "token" fields = None \/ assoc "email" fields = None \/
   truthy (field "token" fields) = false \/ truthy (field "email" fields) = false ->
   onMessageExternal (JObj fields) s w
   = (inr {| sent := JObj [("error", JStr "Missing token or email")]; keepOpen := true |}, w)).
Proof.
  intros Ho Hin Hty. apply includes_In in Hin.
  assert (Hrun : onMessageExternal (JObj fields) s w
                 = (if truthy (field "token" fields) && truthy (field "email" fields)
                    then match storeAuth (field "token" fields) (field "email" fields) w with
                         | (inl e, w') => (inl e, w')
                         | (inr _, w') =>
                             (inr {| sent := JObj [("success", JBool true)]; keepOpen := true |}, w')
                         end
                    else (inr {| sent := JObj [("error", JStr "Missing token or email")];
                                 keepOpen := true |}, w))).
  { unfold onMessageExternal, bind, lift, ret. rewrite Ho, Hin, !prop_field, Hty. simpl.
    destruct (truthy (field "token" fields) && truthy (field "email" fields)); reflexivity. }
  split.
  - intros Ht He.
    pose proof (storeAuth_run _ _ w (truthy_defined _ Ht) (truthy_defined _ He)) as Hs.
    split; [| exact Hs]. now rewrite Hrun, Ht, He, Hs.
  - intros H.
    assert (Hf : truthy (field "token" fields) = false \/ truthy (field "email" fields) = false).
    { unfold field. destruct H as [-> | [-> | [H | H]]]; simpl; auto. }
    rewrite Hrun.
    destruct Hf as [Hf | Hf]; rewrite Hf; [| rewrite andb_false_r]; reflexivity.
Qed.

(** ** Running the API functions *)

Lemma authHeaders_run (w : world) : authHeaders w = (bearer w, w).
Proof.
  destruct (getStoredAuth_run w) as (stored & Hg & Ht & _).
  unfold authHeaders, bearer, bind, lift, ret. rewrite Hg, Ht.
  destruct (truthy (storedToken w)); [| reflexivity].
  now destruct (ToString (storedToken w)).
Qed.

(** [checkAuth], path by path. *)
Lemma checkAuth_run (w : world) :
  checkAuth w =
  match bearer w with
  | inl e => (inr (notAuthenticated e), w)
  | inr h =>
      let w1 := sending (statusRequest h) w in
      match fetch (statusRequest h) with
      | inl e => (inr (notAuthenticated e), w1)
      | inr r =>
          if ok r then
            match json r with
            | inl e => (inr (notAuthenticated e), w1)
            | inr data =>
                match prop data "authenticated" with
                | inl e => (inr (notAuthenticated e), w1)
                | inr a =>
                    match (if truthy a then prop data "email" else inr a) with
                    | inl e => (inr (notAuthenticated e), w1)
                    | inr email =>
                        if truthy email then
                          if strict_eq (storedEmail w) email then (inr data, w1)
                          else (inr data, withAuth (js_or (storedToken w) (JStr "")) email w1)
                        else (inr data, withoutAuth w1)
                    end
                end
            end
          else (inr (JObj [("authenticated", JBool false)]), withoutAuth w1)
      end
  end.
Proof.
  unfold checkAuth, try_catch, bind. rewrite authHeaders_run.
  destruct (bearer w) as [e | h]; [reflexivity |].
  unfold do_fetch. fold (statusRequest h). fold (sending (statusRequest h) w).
  destruct (fetch (statusRequest h)) as [e | r]; [reflexivity |].
  destruct (ok r); step; [| reflexivity].
  unfold lift, ret.
  destruct (json r) as [e | data]; [reflexivity |].
  destruct (prop data "authenticated") as [e | a]; [reflexivity |].
  destruct (getStoredAuth_run (sending (statusRequest h) w)) as (stored & Hg & Ht & He).
  change (storedEmail (sending (statusRequest h) w)) with (storedEmail w) in He.
  change (storedToken (sending (statusRequest h) w)) with (storedToken w) in Ht.
  assert (Hstore : forall email, truthy email = true ->
            storeAuth (js_or (storedToken w) (JStr "")) email (sending (statusRequest h) w)
            = (inr tt, withAuth (js_or (storedToken w) (JStr "")) email
                         (sending (statusRequest h) w))).
  { intros email Hemail. apply storeAuth_run; [| now apply truthy_defined].
    unfold js_or. destruct (truthy (storedToken w)) eqn:E;
      [now apply truthy_defined | discriminate]. }
  destruct (truthy a) eqn:Ha.
  - destruct (prop data "email") as [e | email]; [reflexivity |].
    destruct (truthy email) eqn:Hemail; [| reflexivity].
    step. rewrite Hg, He.
    destruct (strict_eq (storedEmail w) email); step; [reflexivity |].
    rewrite Ht, (Hstore _ Hemail). reflexivity.
  - rewrite Ha. reflexivity.
Qed.

Lemma storeAuth_returns (token email : jsval) (w : world) :
  storeAuth token email w = (inr tt, (storeAuth token email w).2).
Proof. reflexivity. Qed.

Lemma storeAuth_network (token email : jsval) (w : world) :
  network (storeAuth token email w).2 = network w.
Proof. reflexivity. Qed.

(** [loginWithCredentials], path by path. *)
Lemma loginWithCredentials_run (fields : list (string * jsval)) (w : world) :
  loginWithCredentials (JObj fields) w =
  let email := field "email" fields in
  let password := field "password" fields in
  if negb (truthy email) || negb (truthy password) then
    (inr (JObj [("authenticated", JBool false);
                ("error", JStr "Email and password are required")]), w)
  else
    let w1 := sending (loginRequest email password) w in
    match fetch (loginRequest email password) with
    | inl e => (inr (notAuthenticated e), w1)
    | inr r =>
        match json r with
        | inl e => (inr (notAuthenticated e), w1)
        | inr data =>
            match (if ok r then and_then (prop data "authenticated")
                                  (fun a => inr (negb (truthy a)))
                   else inr true) with
            | inl e => (inr (notAuthenticated e), w1)
            | inr true =>
                match prop data "error" with
                | inl e => (inr (notAuthenticated e), w1)
                | inr error =>
                    (inr (JObj [("authenticated", JBool false);
                                ("error", js_or error (JStr "Login failed"))]), w1)
                end
            | inr false =>
                match prop data "token", prop data "email" with
                | inr token, inr dataEmail =>
                    (inr (JObj [("authenticated", JBool true); ("email", dataEmail)]),
                     (storeAuth token dataEmail w1).2)
                | inl e, _ | _, inl e => (inr (notAuthenticated e), w1)
                end
            end
        end
    end.
Proof.
  unfold loginWithCredentials, bind, lift. rewrite !prop_field. cbv zeta.
  destruct (negb (truthy (field "email" fields)) || negb (truthy (field "password" fields)));
    [reflexivity |].
  unfold try_catch, do_fetch, ret. fold (loginRequest (field "email" fields) (field "password" fields)).
  fold (sending (loginRequest (field "email" fields) (field "password" fields)) w).
  destruct (fetch _) as [e | r]; [reflexivity |].
  destruct (json r) as [e | data]; [reflexivity |].
  destruct (ok r); step.
  - unfold and_then. destruct (prop data "authenticated") as [e | a]; [reflexivity |].
    destruct (truthy a); step.
    + destruct (prop data "token") as [e | token]; [reflexivity |].
      destruct (prop data "email") as [e | dataEmail]; [reflexivity |].
      rewrite storeAuth_returns. reflexivity.
    + destruct (prop data "error"); reflexivity.
  - destruct (prop data "error"); reflexivity.
Qed.

(** [fetchPublicKey], path by path. *)
Lemma fetchPublicKey_run (email : string) (w : world) :
  fetchPublicKey email w =
  let failed e := JObj [("found", JBool false); ("email", JStr email);
                        ("error", JStr (message e))] in
  match bearer w with
  | inl e => (inr (failed e), w)
  | inr h =>
      let w1 := sending (keyRequest email h) w in
      match fetch (keyRequest email h) with
      | inl e => (inr (failed e), w1)
      | inr r =>
          if ok r then
            match json r with
            | inl e => (inr (failed e), w1)
            | inr data =>
                match prop data "publicKey" with
                | inl e => (inr (failed e), w1)
                | inr publicKey =>
                    (inr (JObj [("found", JBool true); ("email", JStr email);
                                ("publicKey", publicKey)]), w1)
                end
            end
          else if status r =? 404 then
            (inr (JObj [("found", JBool false); ("email", JStr email)]), w1)
          else
            (inr (failed {| kind := ErrorK; message := "Failed to fetch key for " ++ email |}), w1)
      end
  end.
Proof.
  unfold fetchPublicKey, try_catch, bind. rewrite authHeaders_run. cbv zeta.
  destruct (bearer w) as [e | h]; [reflexivity |].
  unfold do_fetch. fold (keyRequest email h). fold (sending (keyRequest email h) w).
  destruct (fetch (keyRequest email h)) as [e | r]; [reflexivity |].
  destruct (ok r); step.
  - unfold lift, ret. destruct (json r) as [e | data]; [reflexivity |].
    destruct (prop data "publicKey"); reflexivity.
  - destruct (status r =? 404); reflexivity.
Qed.

(** ** The credential pair *)

Lemma storedToken_withAuth (token email : jsval) (w : world) :
  storedToken (withAuth token email w) = token.
Proof. unfold storedToken, withAuth, set_storage. simpl. now rewrite lookup_insert_eq. Qed.

Lemma storedEmail_withAuth (token email : jsval) (w : world) :
  storedEmail (withAuth token email w) = email.
Proof.
  unfold storedEmail, withAuth, set_storage. simpl.
  rewrite lookup_insert_ne by discriminate. now rewrite lookup_insert_eq.
Qed.

Lemma storedToken_withoutAuth (w : world) : storedToken (withoutAuth w) = JUndefined.
Proof. unfold storedToken, withoutAuth, set_storage. simpl. now rewrite lookup_delete_eq. Qed.

Lemma storedEmail_withoutAuth (w : world) : storedEmail (withoutAuth w) = JUndefined.
Proof.
  unfold storedEmail, withoutAuth, set_storage. simpl.
  rewrite lookup_delete_ne by discriminate. now rewrite lookup_delete_eq.
Qed.




(** What [storeAuth] leaves under each key, whatever it is given. *)
Lemma storeAuth_lookup (token email : jsval) (w : world) :
  storage (storeAuth token email w).2 !! "authToken" = written token (storage w !! "authToken") /\
  storage (storeAuth token email w).2 !! "userEmail" = written email (storage w !! "userEmail") /\
  (forall k : string, k <> "authToken" -> k <> "userEmail" ->
   storage (storeAuth token email w).2 !! k = storage w !! k) /\
  network (storeAuth token email w).2 = network w.
Proof.
  unfold storeAuth, storage_set, modify, set_storage, written. cbn [snd storage network].
  cbn [fold_right fst snd].
  split; [| split; [| split; [| reflexivity]]].
  - destruct token, email; rewrite ?lookup_insert_eq, ?lookup_insert_ne by discriminate;
      rewrite ?lookup_insert_eq; reflexivity.
  - destruct token, email; rewrite ?lookup_insert_eq, ?lookup_insert_ne by discriminate;
      rewrite ?lookup_insert_eq; reflexivity.
  - intros k H1 H2. destruct token, email; rewrite ?lookup_insert_ne by congruence; reflexivity.
Qed.


(** What an external message can do to the world. *)
Lemma onMessageExternal_world (message : jsval) (s : sender) (w : world) :
  let w' := (onMessageExternal message s w).2 in
  w' = w \/ w' = withoutAuth w \/
  exists token email, truthy token = true /\ truthy email = true /\ w' = withAuth token email w.
Proof.
  unfold onMessageExternal, bind, lift, ret. cbv zeta.
  destruct (senderOrigin s) as [e | origin]; [now left |].
  destruct (negb (includes allowedOrigins origin)); [now left |].
  destruct (prop message "type") as [e | type]; [now left |].
  destruct (strict_eq type (JStr "SEAL_AUTH_TOKEN")).
  - destruct (prop message "token") as [e | token]; [now left |].
    destruct (prop message "email") as [e | email]; [now left |].
    destruct (truthy token) eqn:Ht; destruct (truthy email) eqn:He; step; try now left.
    right. right. exists token, email.
    rewrite storeAuth_run by now apply truthy_defined. auto.
  - destruct (strict_eq type (JStr "SEAL_LOGOUT")); [right; now left |].
    destruct (strict_eq type (JStr "SEAL_PING")); now left.
Qed.


(** ** [checkAuth]: the email reconciliation *)

(** C4 (amended).  When [checkAuth] receives an authenticated response
    whose email differs from the cached one, it returns the response
    body and refreshes the cached email; a truthy stored token is
    preserved unchanged; when no token is stored (or a falsy one), the
    token field is written as the empty string, so that [authHeaders]
    attaches the same header as before, namely none.  No other stored
    item changes. *)
Theorem checkAuth_reconciles_email (w : world) (h : option string) (r : response)
    (data a email : jsval) :
  bearer w = inr h ->
  fetch (statusRequest h) = inr r ->
  ok r = true ->
  json r = inr data ->
  prop data "authenticated" = inr a -> truthy a = true ->
  prop data "email" = inr email -> truthy email = true ->
  strict_eq (storedEmail w) email = false ->
  (checkAuth w).1 = inr data /\
  storage (checkAuth w).2 !! "userEmail" = Some email /\
  (truthy (storedToken w) = true ->
   storage (checkAuth w).2 !! "authToken" = storage w !! "authToken") /\
  (truthy (storedToken w) = false ->
   storage (checkAuth w).2 !! "authToken" = Some (JStr "")) /\
  bearer (checkAuth w).2 = bearer w /\
  (forall k : string, k <> "authToken" -> k <> "userEmail" ->
   storage (checkAuth w).2 !! k = storage w !! k).
Proof.
  intros Hb Hf Hok Hj Ha Hta He Hte Hne.
  rewrite checkAuth_run, Hb. cbv zeta. rewrite Hf, Hok, Hj, Ha, Hta, He, Hte, Hne.
  cbn [fst snd]. set (w1 := sending (statusRequest h) w).
  assert (Htok : truthy (storedToken w) = true ->
                 storage w !! "authToken" = Some (storedToken w)).
  { unfold storedToken. destruct (storage w !! "authToken"); [reflexivity | discriminate]. }
  split; [reflexivity |]. split; [| split; [| split; [| split]]].
  - unfold withAuth, set_storage. cbn [storage].
    rewrite lookup_insert_ne by discriminate. apply lookup_insert_eq.
  - intros Ht. unfold withAuth, set_storage, js_or. cbn [storage].
    rewrite Ht, lookup_insert_eq. symmetry. now apply Htok.
  - intros Ht. unfold withAuth, set_storage, js_or. cbn [storage].
    rewrite Ht. apply lookup_insert_eq.
  - rewrite <- Hb. unfold bearer. rewrite storedToken_withAuth. unfold js_or.
    destruct (truthy (storedToken w)) eqn:Ht; cbv iota; rewrite ?Ht; reflexivity.
  - intros k Hk1 Hk2. unfold withAuth, set_storage. cbn [storage].
    now rewrite !lookup_insert_ne by congruence.
Qed.

(** ** [fetchPublicKey] *)

(** C5.  A 404 response is the normal outcome [{found: false, email}].
    Any other response that is not [ok] reaches the caller as an error
    outcome: the returned object carries the error message, [Failed to
    fetch key for] and the email, which the 404 outcome does not. *)
Theorem fetchPublicKey_not_found_or_error (email : string) (w : world) (h : option string)
    (r : response) :
  bearer w = inr h ->
  fetch (keyRequest email h) = inr r ->
  (status r = 404 ->
   fetchPublicKey email w
   = (inr (JObj [("found", JBool false); ("email", JStr email)]),
      sending (keyRequest email h) w)) /\
  (ok r = false -> status r <> 404 ->
   fetchPublicKey email w
   = (inr (JObj [("found", JBool false); ("email", JStr email);
                 ("error", JStr ("Failed to fetch key for " ++ email))]),
      sending (keyRequest email h) w)).
Proof.
  intros Hb Hf. rewrite fetchPublicKey_run, Hb. cbv zeta. rewrite Hf. split.
  - intros Hs. unfold ok. rewrite Hs. reflexivity.
  - intros Hok Hs. rewrite Hok. apply Z.eqb_neq in Hs. now rewrite Hs.
Qed.

(** ** [loginWithCredentials] *)

(** C9.  The handler is called with the request object in which the
    router found its action.  With the email or the password missing
    (or falsy), [loginWithCredentials] answers [{authenticated: false, error: 'Email
    and password are required'}] and leaves the world as it was: no call
    of [fetch] is issued.  On an [ok] response whose body is
    authenticated it answers [{authenticated: true, email}] and stores
    the returned token and email: after the one request, the store
    holds the token of the body under [authToken] and its email under
    [userEmail], and no other item has changed.  It never throws, and
    when the response is not [ok] or its body is not authenticated it
    answers [{authenticated: false, error}] and leaves the stored items
    as they were. *)
Theorem loginWithCredentials_outcomes (fields : list (string * jsval)) (w : world) :
  let email := field "email" fields in
  let password := field "password" fields in
  let req := loginRequest email password in
  (assoc "email" fields = None \/ assoc "password" fields = None \/
   truthy email = false \/ truthy password = false ->
   loginWithCredentials (JObj fields) w
   = (inr (JObj [("authenticated", JBool false);
                 ("error", JStr "Email and password are required")]), w)) /\
  (truthy email = true -> truthy password = true ->
   forall (r : response) (data a token dataEmail : jsval),
     fetch req = inr r -> ok r = true -> json r = inr data ->
     prop data "authenticated" = inr a -> truthy a = true ->
     prop data "token" = inr token -> prop data "email" = inr dataEmail ->
     let out := loginWithCredentials (JObj fields) w in
     out.1 = inr (JObj [("authenticated", JBool true); ("email", dataEmail)]) /\
     network out.2 = (network w ++ [req])%list /\
     storage out.2 !! "authToken" = written token (storage w !! "authToken") /\
     storage out.2 !! "userEmail" = written dataEmail (storage w !! "userEmail") /\
     (forall k : string, k <> "authToken" -> k <> "userEmail" ->
      storage out.2 !! k = storage w !! k) /\
     (token <> JUndefined -> dataEmail <> JUndefined ->
      out.2 = withAuth token dataEmail (sending req w) /\
      storage out.2 !! "authToken" = Some token /\
      storage out.2 !! "userEmail" = Some dataEmail)) /\
  (truthy email = true -> truthy password = true ->
   forall r : response,
     fetch req = inr r ->
     ok r = false \/
     (exists data a, json r = inr data /\ prop data "authenticated" = inr a /\
                     truthy a = false) ->
     exists error,
       loginWithCredentials (JObj fields) w
       = (inr (JObj [("authenticated", JBool false); ("error", error)]), sending req w)) /\
  (exists answer,
     (loginWithCredentials (JObj fields) w).1 = inr answer /\
     ((exists dataEmail,
         answer = JObj [("authenticated", JBool true); ("email", dataEmail)]) \/
      (exists error,
         answer = JObj [("authenticated", JBool false); ("error", error)] /\
         storage (loginWithCredentials (JObj fields) w).2 = storage w))).
Proof.
  cbv zeta. rewrite loginWithCredentials_run. cbv zeta.
  set (email := field "email" fields). set (password := field "password" fields).
  set (req := loginRequest email password).
  split; [| split; [| split]].
  - intros H.
    assert (Hf : truthy email = false \/ truthy password = false).
    { unfold email, password, field.
      destruct H as [-> | [-> | [H | H]]]; simpl; auto. }
    destruct Hf as [-> | ->]; [| rewrite orb_true_r]; reflexivity.
  - intros Hte Htp r data a token dataEmail Hf Hok Hj Ha Hta Htok Hde.
    rewrite Hte, Htp, Hf, Hj, Hok. unfold and_then. rewrite Ha, Hta, Htok, Hde.
    cbn [negb orb fst snd].
    destruct (storeAuth_lookup token dataEmail (sending req w)) as (Ht & He & Hk & Hn).
    split; [reflexivity |]. split; [exact Hn |]. split; [exact Ht |]. split; [exact He |].
    split; [exact Hk |].
    intros Hdt Hde'. rewrite storeAuth_run by assumption. cbn [snd]. split; [reflexivity |].
    unfold withAuth, set_storage. cbn [storage].
    rewrite lookup_insert_eq, lookup_insert_ne, lookup_insert_eq by discriminate.
    split; reflexivity.
  - intros Hte Htp r Hf Hfail. rewrite Hte, Htp, Hf. step.
    destruct (json r) as [e | data] eqn:Hj.
    + eexists. reflexivity.
    + assert (Hbad : (if ok r then and_then (prop data "authenticated")
                                     (fun a => inr (negb (truthy a)))
                      else inr true) = inr true).
      { destruct Hfail as [-> | (data' & a & Hd & Ha & Hta)]; [reflexivity |].
        rewrite ?Hj in Hd. injection Hd as Hd. subst data'.
        destruct (ok r); [| reflexivity]. unfold and_then. now rewrite Ha, Hta. }
      rewrite Hbad. destruct (prop data "error"); eexists; reflexivity.
  - destruct (negb (truthy email) || negb (truthy password)).
    { eexists. split; [reflexivity |]. right. eexists. split; reflexivity. }
    destruct (fetch req) as [e | r].
    { eexists. split; [reflexivity |]. right. eexists. split; reflexivity. }
    destruct (json r) as [e | data].
    { eexists. split; [reflexivity |]. right. eexists. split; reflexivity. }
    destruct (if ok r then _ else _) as [e | [|]].
    + eexists. split; [reflexivity |]. right. eexists. split; reflexivity.
    + destruct (prop data "error");
        (eexists; split; [reflexivity |]; right; eexists; split; reflexivity).
    + destruct (prop data "token") as [e | token].
      { destruct (prop data "email");
          (eexists; split; [reflexivity |]; right; eexists; split; reflexivity). }
      destruct (prop data "email") as [e | dataEmail].
      { eexists. split; [reflexivity |]. right. eexists. split; reflexivity. }
      eexists. split; [reflexivity |]. left. eexists. reflexivity.
Qed.

(** ** The popup: validation of a dropped file *)

Lemma showError_run (m : string) (p : popup) : showError m p = rejected m p.
Proof. reflexivity. Qed.

(** A parsed object that fails the structure check. *)
Lemma handleFile_incomplete (f : file) (p : popup) (t : string) (fields : list (string * jsval)) :
  endsWith (name f) ".seal" = true ->
  size f <= sizeLimit ->
  text f = inr t ->
  startsWith t "{" = true ->
  JSON_parse t = inr (JObj fields) ->
  truthy (field "version" fields) = false \/ truthy (field "fileId" fields) = false \/
  truthy (field "payload" fields) = false ->
  handleFile f p = rejected msgIncomplete (log_call (JSONParse t) (log_call FileText p)).
Proof.
  intros Hext Hsize Htext Hbrace Hparse Hfalsy.
  unfold handleFile. rewrite Hext. step.
  assert (Hs : (size f >? 10 * 1024 * 1024) = false).
  { rewrite Z.gtb_ltb. apply Z.ltb_ge. unfold sizeLimit in Hsize. lia. }
  rewrite Hs. unfold try_catch, bind, modify, lift. rewrite Htext, Hbrace. step.
  unfold parseJSON. rewrite Hparse, !prop_field.
  assert (Hb : negb (truthy (field "version" fields)) || negb (truthy (field "fileId" fields))
               || negb (truthy (field "payload" fields)) = true).
  { destruct Hfalsy as [-> | [-> | ->]]; step; rewrite ?orb_true_r; reflexivity. }
  rewrite Hb. reflexivity.
Qed.

Lemma size_guard_passes (f : file) :
  size f <= sizeLimit -> (size f >? 10 * 1024 * 1024) = false.
Proof. intros H. rewrite Z.gtb_ltb. apply Z.ltb_ge. unfold sizeLimit in H. lia. Qed.

Lemma size_guard_fails (f : file) :
  sizeLimit < size f -> (size f >? 10 * 1024 * 1024) = true.
Proof. intros H. rewrite Z.gtb_ltb. apply Z.ltb_lt. unfold sizeLimit in H. lia. Qed.

(** C6.  [handleFile] validates in the order suffix, size, opening
    brace, JSON parse, schema.  The first check that fails ends the
    run on the error screen with the message of that check, and the
    calls made show that no later step was attempted: nothing is read
    when the suffix or the size is rejected, and [JSON.parse] is not
    called when the text does not open with a brace.  A parsed object
    that lacks [version], [fileId] or [payload] gets the
    corrupted-or-incomplete message.  The five messages are distinct. *)
Theorem handleFile_validation_order (f : file) (p : popup) :
  (endsWith (name f) ".seal" = false ->
   handleFile f p = rejected msgUnsupported p) /\
  (endsWith (name f) ".seal" = true ->
   (sizeLimit < size f ->
    handleFile f p = rejected msgTooLarge p) /\
   (size f <= sizeLimit ->
    forall t : string, text f = inr t ->
    (startsWith t "{" = false ->
     handleFile f p = rejected msgNotSeal (log_call FileText p)) /\
    (startsWith t "{" = true ->
     (forall m : string, JSON_parse t = inl m ->
      handleFile f p
      = rejected msgCorrupted (log_call (JSONParse t) (log_call FileText p))) /\
     (forall fields : list (string * jsval), JSON_parse t = inr (JObj fields) ->
      assoc "version" fields = None \/ assoc "fileId" fields = None \/
      assoc "payload" fields = None ->
      handleFile f p
      = rejected msgIncomplete (log_call (JSONParse t) (log_call FileText p)))))) /\
  NoDup [msgUnsupported; msgTooLarge; msgNotSeal; msgCorrupted; msgIncomplete] /\
  (forall (m : string) (q : popup),
     activeScreen (rejected m q).2 = Error /\ errorMessage (rejected m q).2 = m /\
     calls (rejected m q).2 = calls q /\ currentSealFile (rejected m q).2 = currentSealFile q).
Proof.
  split; [| split; [| split]].
  - intros Hext. unfold handleFile. now rewrite Hext.
  - intros Hext. split.
    + intros Hsize. unfold handleFile. now rewrite Hext, (size_guard_fails _ Hsize).
    + intros Hsize t Htext. split.
      * intros Hbrace. unfold handleFile. rewrite Hext, (size_guard_passes _ Hsize). step.
        unfold try_catch, bind, modify, lift. now rewrite Htext, Hbrace.
      * intros Hbrace. split.
        -- intros m Hparse. unfold handleFile. rewrite Hext, (size_guard_passes _ Hsize). step.
           unfold try_catch, bind, modify, lift, parseJSON. now rewrite Htext, Hbrace, Hparse.
        -- intros fields Hparse Hmissing.
           apply (handleFile_incomplete f p t fields); try assumption.
           unfold field. destruct Hmissing as [-> | [-> | ->]]; auto.
  - apply (bool_decide_unpack _). vm_compute. exact I.
  - intros m q. repeat split.
Qed.

(** C10.  The schema check is a truthiness test: an envelope whose
    [version] is 0, whose [fileId] is the empty string or whose
    [payload] is the empty string passes the first four checks and is
    rejected with the corrupted-or-incomplete message, and so is every
    envelope in which one of the three is falsy. *)
Theorem schema_check_is_truthiness (f : file) (p : popup) (t : string)
    (fields : list (string * jsval)) :
  endsWith (name f) ".seal" = true ->
  size f <= sizeLimit ->
  text f = inr t ->
  startsWith t "{" = true ->
  JSON_parse t = inr (JObj fields) ->
  assoc "version" fields = Some (JNum 0) \/ assoc "fileId" fields = Some (JStr "") \/
  assoc "payload" fields = Some (JStr "") \/
  truthy (field "version" fields) = false \/ truthy (field "fileId" fields) = false \/
  truthy (field "payload" fields) = false ->
  handleFile f p = rejected msgIncomplete (log_call (JSONParse t) (log_call FileText p)) /\
  activeScreen (handleFile f p).2 = Error /\
  errorMessage (handleFile f p).2 = msgIncomplete /\
  currentSealFile (handleFile f p).2 = currentSealFile p.
Proof.
  intros Hext Hsize Htext Hbrace Hparse Hfalsy.
  assert (H : handleFile f p
              = rejected msgIncomplete (log_call (JSONParse t) (log_call FileText p))).
  { apply (handleFile_incomplete f p t fields); try assumption.
    unfold field. destruct Hfalsy as [-> | [-> | [-> | [H | [H | H]]]]]; auto. }
  rewrite H. repeat split.
Qed.

(** ** The popup: the verdict of [displayFileInfo] *)

Lemma prop_meta (fields : list (string * jsval)) (k : string) :
  prop (js_or (field "metadata" fields) (JObj [])) k = inr (metaField k fields).
Proof.
  unfold metaField, js_or.
  destruct (field "metadata" fields) as [| | [|] | n | s | l | m]; simpl; try reflexivity.
  - now destruct (n =? 0).
  - now destruct (String.eqb s "").
Qed.

(** [some] answers [true] exactly when an entry has a string email that
    lower-cases to the same string as the user's. *)
Lemma someSameEmail_spec (e : string) (l : list jsval) (found : bool) :
  someSameEmail (JStr e) l = inr found ->
  (found = true <->
   exists r m, In r l /\ prop r "email" = inr (JStr m) /\ toLowerCase m = toLowerCase e).
Proof.
  revert found. induction l as [| r rest IH]; intros found H.
  - injection H as <-. split; [discriminate | intros (r & m & [] & _)].
  - cbn [someSameEmail] in H. unfold sameEmail, and_then in H.
    destruct (prop r "email") as [x | em] eqn:Hem; [discriminate |].
    destruct em as [| | b | n | m | a | o]; cbn [callToLowerCase] in H; try discriminate.
    destruct (String.eqb (toLowerCase m) (toLowerCase e)) eqn:Heq.
    + injection H as <-. split; [| reflexivity]. intros _.
      exists r, m. apply String.eqb_eq in Heq. cbn [In]. auto.
    + specialize (IH found H). rewrite IH. apply String.eqb_neq in Heq. split.
      * intros (r' & m' & Hin & Hp & Hl). exists r', m'. cbn [In]. auto.
      * intros (r' & m' & [<- | Hin] & Hp & Hl).
        -- rewrite Hem in Hp. injection Hp as <-. contradiction.
        -- exists r', m'. auto.
Qed.

(** What a completed [displayFileInfo] has computed and shown. *)
Lemma displayFileInfo_inv (fields : list (string * jsval)) (fileSize : Z) (p p' : popup) :
  displayFileInfo (JObj fields) fileSize p = (inr tt, p') ->
  exists expired access : bool,
    (if truthy (metaField "expiresAt" fields)
     then exists d, Date_value (metaField "expiresAt" fields) = inr d /\ expired = before d now
     else expired = false) /\
    (if truthy (userEmail p) && truthy (field "recipients" fields)
     then someRecipient (field "recipients" fields) (userEmail p) = inr access
     else access = false) /\
    (infoExpires p' = ExpiredBadge <-> expired = true) /\
    accessRowHidden p' = negb (truthy (userEmail p)) /\
    infoAccess p' = (if truthy (userEmail p)
                     then if access then AccessGranted else AccessDenied
                     else infoAccess p) /\
    btnOpenViewerDisabled p' = expired || (negb access && truthy (userEmail p)) /\
    btnOpenViewerText p' = (if expired then "File has expired"
                            else if negb access && truthy (userEmail p)
                                 then "You are not a recipient"
                                 else "Open in Secure Viewer") /\
    activeScreen p' = Info /\
    userEmail p' = userEmail p.
Proof.
  unfold displayFileInfo. unfold bind, lift, modify, gets, ret, showScreen.
  rewrite prop_field. cbv zeta. rewrite !prop_meta, !prop_field.
  destruct (ToString _) as [e | filenameText]; [discriminate |].
  destruct (formatFileSize _) as [e | sizeText]; [discriminate |].
  destruct (truthy (metaField "encryptedAt" fields));
    [destruct (Date_value (metaField "encryptedAt" fields)) as [e | d0]; [discriminate |] |];
  (destruct (truthy (metaField "expiresAt" fields));
    [destruct (Date_value (metaField "expiresAt" fields)) as [e | d]; [discriminate |] |]);
  (destruct (truthy (field "recipients" fields));
    [destruct (prop (field "recipients" fields) "length") as [e | len]; [discriminate |];
     destruct (js_gt0 len) as [e | [|]]; [discriminate | |];
     [destruct (mapEmails (field "recipients" fields)) as [e | emails]; [discriminate |];
      destruct (recipientsText emails) as [e | shown]; [discriminate |];
      destruct (join emails ", ") as [e | title]; [discriminate |] |] |]);
  cbn [userEmail set_infoSize set_infoFilename set_infoDate set_infoExpires set_infoRecipients
       set_infoRecipientsTitle];
  (destruct (truthy (userEmail p)); cbn [andb];
    [try (destruct (someRecipient (field "recipients" fields) (userEmail p)) as [e | access];
          [discriminate |]) |]);
  try (destruct (before d now) eqn:Hb); try destruct access; step; unfold modify;
  intros H; injection H as <-;
  eexists _, _;
  (split; [first [reflexivity | eexists; split; reflexivity] |]);
  (split; [reflexivity |]);
  rewrite ?Hb; cbn; repeat split; try discriminate; auto.
Qed.

(** The verdict read off the info screen, in terms of what
    [displayFileInfo] computed. *)
Lemma shownVerdict_inv (fields : list (string * jsval)) (fileSize : Z) (p p' : popup) :
  displayFileInfo (JObj fields) fileSize p = (inr tt, p') ->
  exists access : bool,
    (if truthy (metaField "expiresAt" fields)
     then exists d, Date_value (metaField "expiresAt" fields) = inr d /\
                    isExpired (shownVerdict p') = before d now
     else isExpired (shownVerdict p') = false) /\
    (if truthy (userEmail p) && truthy (field "recipients" fields)
     then someRecipient (field "recipients" fields) (userEmail p) = inr access
     else access = false) /\
    accessKnown (shownVerdict p') = truthy (userEmail p) /\
    (truthy (userEmail p) = true -> hasAccess (shownVerdict p') = access) /\
    (truthy (userEmail p) = false -> infoAccess p' = infoAccess p) /\
    btnOpenViewerDisabled p'
    = isExpired (shownVerdict p') || (negb access && truthy (userEmail p)) /\
    (isExpired (shownVerdict p') = true -> btnOpenViewerText p' = "File has expired") /\
    activeScreen p' = Info.
Proof.
  intros H. destruct (displayFileInfo_inv _ _ _ _ H)
    as (expired & access & Hexp & Hacc & Hbadge & Hrow & Hinfo & Hbtn & Htext & Hscreen & _).
  assert (Hv : isExpired (shownVerdict p') = expired).
  { unfold shownVerdict. cbn [isExpired].
    destruct (infoExpires p'), expired; try reflexivity.
    - symmetry. now apply Hbadge.
    - destruct Hbadge as [_ Hb]. now specialize (Hb eq_refl). }
  exists access. rewrite Hv.
  split.
  { destruct (truthy (metaField "expiresAt" fields)); [| assumption].
    destruct Hexp as (d & Hd & He). now exists d. }
  split; [assumption |].
  split.
  { unfold shownVerdict. cbn [accessKnown]. rewrite Hrow. apply negb_involutive. }
  split.
  { intros Hu. unfold shownVerdict. cbn [hasAccess]. rewrite Hinfo, Hu. now destruct access. }
  split.
  { intros Hu. now rewrite Hinfo, Hu. }
  split; [assumption |].
  split; [| assumption].
  intros ->. exact Htext.
Qed.


(** ** The popup: envelopes of the documented shape are displayed *)

Lemma emailsOf_entries (l : list jsval) :
  Forall recipientEntry l ->
  exists es, emailsOf l = inr es /\ Forall (fun v => exists m, v = JStr m) es /\
             List.length es = List.length l.
Proof.
  induction 1 as [| r rest (o & m & -> & Hm) _ (es & Hes & Hstr & Hlen)].
  - exists []. repeat split. constructor.
  - exists (JStr m :: es). cbn [emailsOf]. rewrite prop_field, Hm. unfold and_then.
    rewrite Hes. repeat split.
    + constructor; [now exists m | assumption].
    + cbn [List.length]. now rewrite Hlen.
Qed.

Lemma join_strings (es : list jsval) (sep : string) :
  Forall (fun v => exists m, v = JStr m) es -> exists t, join es sep = inr t.
Proof.
  induction 1 as [| v rest (m & ->) _ (t & Ht)].
  - now exists "".
  - cbn [join elementText ToString and_then]. destruct rest as [| v' rest'].
    + now exists m.
    + rewrite Ht. eexists. reflexivity.
Qed.

Lemma recipientsText_strings (es : list jsval) :
  (forall n, exists t, ToString_other (JNum n) = inr t) ->
  Forall (fun v => exists m, v = JStr m) es -> es <> [] ->
  exists t, recipientsText es = inr t.
Proof.
  intros Hnum Hes Hne. unfold recipientsText.
  destruct (List.length es <=? 2)%nat; [now apply join_strings |].
  destruct Hes as [| v rest (m & ->) _]; [contradiction |].
  cbn [nth ToString and_then].
  destruct (Z.of_nat (List.length (JStr m :: rest)) - 1) eqn:E; cbn [ToString];
    match goal with |- context [ToString_other (JNum ?n)] =>
      destruct (Hnum n) as (t & ->) end; eexists; reflexivity.
Qed.

Lemma someSameEmail_entries (e : string) (l : list jsval) :
  Forall recipientEntry l -> exists found, someSameEmail (JStr e) l = inr found.
Proof.
  induction 1 as [| r rest (o & m & -> & Hm) _ (found & Hfound)].
  - now exists false.
  - cbn [someSameEmail]. unfold sameEmail. rewrite prop_field, Hm.
    cbn [and_then callToLowerCase].
    destruct (String.eqb (toLowerCase m) (toLowerCase e)); [now exists true |].
    now exists found.
Qed.

(** An envelope of the documented shape is displayed: [displayFileInfo]
    does not throw on it. *)
Lemma displayFileInfo_typed (fields : list (string * jsval)) (fileSize : Z) (p : popup) :
  typedEnvelope fields -> platformConverts -> identity (userEmail p) ->
  exists p', displayFileInfo (JObj fields) fileSize p = (inr tt, p').
Proof.
  intros (Hname & Hsize & Henc & Hexp & Hrec) (Hnum & Hfmt & Hdate) Hid.
  unfold displayFileInfo, bind, lift, modify, gets, ret, showScreen.
  rewrite prop_field. cbv zeta. rewrite !prop_meta, !prop_field.
  assert (H1 : exists t, ToString (js_or (metaField "originalName" fields)
                                     (JStr "Unknown file")) = inr t).
  { destruct Hname as [-> | (s & ->)]; [now eexists |].
    unfold js_or. destruct (truthy (JStr s)); now eexists. }
  destruct H1 as (t1 & ->).
  assert (H2 : exists t, formatFileSize (js_or (metaField "originalSize" fields)
                                           (JNum fileSize)) = inr t).
  { destruct Hsize as [-> | (n & ->)]; unfold js_or; [apply Hfmt |].
    destruct (truthy (JNum n)); apply Hfmt. }
  destruct H2 as (t2 & ->).
  assert (H3 : forall v, stringOrAbsent v -> truthy v = true -> exists d, Date_value v = inr d).
  { intros v [-> | (s & ->)] Hv; [discriminate | apply Hdate]. }
  destruct (truthy (metaField "encryptedAt" fields)) eqn:E1;
    [destruct (H3 _ Henc E1) as (d0 & ->) |];
  (destruct (truthy (metaField "expiresAt" fields)) eqn:E2;
    [destruct (H3 _ Hexp E2) as (d & ->) |]).
  all: step.
  all: destruct Hrec as [-> | (l & -> & Hl)]; cbn [truthy]; step.
  all: try (cbn [prop String.eqb Ascii.eqb Bool.eqb js_gt0]; step;
            destruct l as [| r rest];
            [replace (0 <? Z.of_nat (List.length (@nil jsval))) with false by reflexivity; step
            | replace (0 <? Z.of_nat (List.length (r :: rest))) with true
                by (symmetry; apply Z.ltb_lt; cbn [List.length]; lia);
              step;
              destruct (emailsOf_entries _ Hl) as (es & Hes & Hstr & Hlen);
              cbn [mapEmails]; rewrite Hes;
              assert (Hne : es <> []) by (intros ->; discriminate);
              destruct (recipientsText_strings es Hnum Hstr Hne) as (shown & ->);
              destruct (join_strings es ", " Hstr) as (title & ->); step]).
  all: cbn [userEmail set_infoSize set_infoFilename set_infoDate set_infoExpires
            set_infoRecipients set_infoRecipientsTitle].
  all: destruct Hid as [-> | (e & ->)]; cbn [truthy]; step;
       try (destruct (negb (String.eqb e "")); step);
       try (cbn [someRecipient];
            match goal with
            | Hl : Forall recipientEntry ?l |- context [someSameEmail (JStr ?e) ?l] =>
                destruct (someSameEmail_entries e l Hl) as (found & ->)
            | |- context [someSameEmail (JStr ?e) []] => cbn [someSameEmail]
            end; step);
       try (destruct (before d now); step);
       try (destruct found; step);
       eexists; reflexivity.
Qed.

(** C7 (amended).  An envelope of the documented shape is displayed,
    and for every envelope whose info screen is shown: [isExpired] holds
    exactly when [expiresAt] has a truthy value (0, the empty string,
    [false] and [null] count as absent) whose date is valid and earlier
    than the current time, whatever the recipients are; [accessKnown]
    holds exactly when the user email is truthy; for a user email that
    is a non-empty string, [hasAccess] holds exactly when some entry of
    the recipients list has a string email that lower-cases to the same
    string; when no identity is known the access row is hidden and its
    content is left as it was. *)
Theorem verdict_of_envelope (fields : list (string * jsval)) (fileSize : Z) (p : popup) :
  (typedEnvelope fields -> platformConverts -> identity (userEmail p) ->
   exists p', displayFileInfo (JObj fields) fileSize p = (inr tt, p')) /\
  (forall p' : popup,
   displayFileInfo (JObj fields) fileSize p = (inr tt, p') ->
   (isExpired (shownVerdict p') = true <->
    truthy (metaField "expiresAt" fields) = true /\
    exists t, Date_value (metaField "expiresAt" fields) = inr (Some t) /\ t < now) /\
   accessKnown (shownVerdict p') = truthy (userEmail p) /\
   (forall e : string, userEmail p = JStr e -> e <> "" ->
    accessKnown (shownVerdict p') = true /\
    (hasAccess (shownVerdict p') = true <->
     exists r m, In r (entries (field "recipients" fields)) /\
                 prop r "email" = inr (JStr m) /\ toLowerCase m = toLowerCase e)) /\
   (truthy (userEmail p) = false ->
    accessKnown (shownVerdict p') = false /\ infoAccess p' = infoAccess p)).
Proof.
  split; [apply displayFileInfo_typed |].
  intros p' H. destruct (shownVerdict_inv _ _ _ _ H)
    as (access & Hexp & Hacc & Hknown & Hhas & Hstale & _).
  split; [| split; [assumption | split]].
  - destruct (truthy (metaField "expiresAt" fields)).
    + destruct Hexp as (d & Hd & ->). rewrite Hd. split.
      * intros Hb. split; [reflexivity |]. destruct d as [t |]; [| discriminate].
        exists t. split; [reflexivity |]. now apply Z.ltb_lt.
      * intros (_ & t & Ht & Hlt). injection Ht as ->. now apply Z.ltb_lt.
    + rewrite Hexp. split; [discriminate | intros [? _]; discriminate].
  - intros e He Hne.
    assert (Hu : truthy (userEmail p) = true).
    { rewrite He. cbn [truthy]. apply negb_true_iff. now apply String.eqb_neq. }
    split; [congruence |]. rewrite (Hhas Hu). rewrite Hu, He in Hacc. cbn [andb] in Hacc.
    destruct (truthy (field "recipients" fields)) eqn:Hr.
    + destruct (field "recipients" fields) as [| | b | n | s | l | o]; try discriminate.
      cbn [someRecipient entries] in *. now apply someSameEmail_spec.
    + subst access. split; [discriminate |].
      destruct (field "recipients" fields) as [| | b | n | s | l | o];
        try discriminate; now intros (r & m & [] & _).
  - intros Hu. split; [congruence | now apply Hstale].
Qed.

(** ** The credential store: round trips and composition *)

Lemma world_eq (w1 w2 : world) :
  storage w1 = storage w2 -> network w1 = network w2 -> w1 = w2.
Proof. destruct w1, w2. cbn. now intros -> ->. Qed.

(** X1.  Reading back what was stored: after [storeAuth] of two defined
    values [getStoredAuth] answers exactly that pair, and after
    [clearAuth] it answers the empty object. *)
Theorem store_round_trip (token email : jsval) (w : world) :
  (token <> JUndefined -> email <> JUndefined ->
   bind (storeAuth token email) (fun _ => getStoredAuth) w
   = (inr (JObj [("authToken", token); ("userEmail", email)]), withAuth token email w)) /\
  bind clearAuth (fun _ => getStoredAuth) w = (inr (JObj []), withoutAuth w).
Proof.
  split.
  - intros Ht He. unfold bind. rewrite storeAuth_run by assumption.
    unfold getStoredAuth, storage_get, gets, bind, ret, withAuth, set_storage. simpl.
    rewrite lookup_insert_eq. rewrite lookup_insert_ne by discriminate.
    rewrite lookup_insert_eq. reflexivity.
  - unfold bind. rewrite clearAuth_run.
    unfold getStoredAuth, storage_get, gets, bind, ret, withoutAuth, set_storage. simpl.
    rewrite lookup_delete_eq. rewrite lookup_delete_ne by discriminate.
    rewrite lookup_delete_eq. reflexivity.
Qed.

Lemma storeAuth_other_keys (token email : jsval) (w : world) (k : string) :
  k <> "authToken" -> k <> "userEmail" ->
  storage (storeAuth token email w).2 !! k = storage w !! k.
Proof.
  intros Hk1 Hk2. unfold storeAuth, storage_set, modify, set_storage. simpl.
  destruct token, email; simpl; rewrite ?lookup_insert_ne by congruence; reflexivity.
Qed.

Lemma withAuth_overwrites (token email : jsval) (w1 w2 : world) :
  (forall k : string, k <> "authToken" -> k <> "userEmail" ->
   storage w1 !! k = storage w2 !! k) ->
  network w1 = network w2 ->
  withAuth token email w1 = withAuth token email w2.
Proof.
  intros Hk Hn. apply world_eq; [| exact Hn]. unfold withAuth, set_storage. cbn [storage].
  apply map_eq. intros k.
  destruct (decide (k = "authToken")) as [-> | Hk1]; [now rewrite !lookup_insert_eq |].
  rewrite !(lookup_insert_ne _ "authToken") by congruence.
  destruct (decide (k = "userEmail")) as [-> | Hk2]; [now rewrite !lookup_insert_eq |].
  rewrite !lookup_insert_ne by congruence. now apply Hk.
Qed.

Lemma withoutAuth_overwrites (w1 w2 : world) :
  (forall k : string, k <> "authToken" -> k <> "userEmail" ->
   storage w1 !! k = storage w2 !! k) ->
  network w1 = network w2 ->
  withoutAuth w1 = withoutAuth w2.
Proof.
  intros Hk Hn. apply world_eq; [| exact Hn]. unfold withoutAuth, set_storage. cbn [storage].
  apply map_eq. intros k.
  destruct (decide (k = "authToken")) as [-> | Hk1]; [now rewrite !lookup_delete_eq |].
  rewrite !(lookup_delete_ne _ "authToken") by congruence.
  destruct (decide (k = "userEmail")) as [-> | Hk2]; [now rewrite !lookup_delete_eq |].
  rewrite !lookup_delete_ne by congruence. now apply Hk.
Qed.

(** X2.  The store operations compose as overwrites: a [storeAuth] of
    two defined values replaces whatever an earlier [storeAuth] wrote,
    [clearAuth] after [storeAuth] is [clearAuth], and [clearAuth] twice
    is [clearAuth] once.  Neither operation touches another stored
    item or issues a call of [fetch]. *)
Theorem store_operations_compose (t1 e1 t2 e2 : jsval) (w : world) :
  (t2 <> JUndefined -> e2 <> JUndefined ->
   (storeAuth t2 e2 (storeAuth t1 e1 w).2).2 = (storeAuth t2 e2 w).2) /\
  (clearAuth (storeAuth t1 e1 w).2).2 = (clearAuth w).2 /\
  (clearAuth (clearAuth w).2).2 = (clearAuth w).2 /\
  (forall k : string, k <> "authToken" -> k <> "userEmail" ->
   storage (storeAuth t1 e1 w).2 !! k = storage w !! k /\
   storage (clearAuth w).2 !! k = storage w !! k) /\
  network (storeAuth t1 e1 w).2 = network w /\
  network (clearAuth w).2 = network w.
Proof.
  assert (Hclear : forall k : string, k <> "authToken" -> k <> "userEmail" ->
            storage (clearAuth w).2 !! k = storage w !! k).
  { intros k Hk1 Hk2. rewrite clearAuth_run. unfold withoutAuth, set_storage. cbn [snd storage].
    now rewrite !lookup_delete_ne by congruence. }
  split; [| split; [| split; [| split; [| split]]]]; try reflexivity.
  - intros Ht He. rewrite (storeAuth_run t2 e2 w Ht He).
    rewrite (storeAuth_run t2 e2 (storeAuth t1 e1 w).2 Ht He). cbn [snd].
    apply withAuth_overwrites; [| reflexivity].
    intros k Hk1 Hk2. now apply storeAuth_other_keys.
  - rewrite !clearAuth_run. cbn [snd]. apply withoutAuth_overwrites; [| reflexivity].
    intros k Hk1 Hk2. now apply storeAuth_other_keys.
  - rewrite !clearAuth_run. cbn [snd]. apply withoutAuth_overwrites; [| reflexivity].
    intros k Hk1 Hk2. exact (Hclear k Hk1 Hk2).
  - intros k Hk1 Hk2. split; [now apply storeAuth_other_keys | now apply Hclear].
Qed.

Lemma getStoredEmail_run (w : world) :
  getStoredEmail w = (inr (JObj [("email", js_or (storedEmail w) JNull)]), w).
Proof.
  destruct (getStoredAuth_run w) as (stored & Hg & _ & He).
  unfold getStoredEmail, bind, lift, ret. now rewrite Hg, He.
Qed.

(** X3.  The two readers of the store change nothing and call no
    network.  After [storeAuth] of a non-empty token string and a
    truthy email, [authHeaders] attaches [Bearer] and the token, and
    [getStoredEmail] answers the email; after [logout] the first
    attaches no header and the second answers [null]. *)
Theorem readers_follow_the_store (token : string) (email : jsval) (w : world) :
  (authHeaders w).2 = w /\ (getStoredEmail w).2 = w /\
  (token <> "" -> truthy email = true ->
   authHeaders (storeAuth (JStr token) email w).2
   = (inr (Some ("Bearer " ++ token)), withAuth (JStr token) email w) /\
   getStoredEmail (storeAuth (JStr token) email w).2
   = (inr (JObj [("email", email)]), withAuth (JStr token) email w)) /\
  logout w = (inr (JObj [("success", JBool true)]), withoutAuth w) /\
  authHeaders (logout w).2 = (inr None, withoutAuth w) /\
  getStoredEmail (logout w).2 = (inr (JObj [("email", JNull)]), withoutAuth w).
Proof.
  assert (Hlogout : logout w = (inr (JObj [("success", JBool true)]), withoutAuth w)).
  { unfold logout, bind, ret. now rewrite clearAuth_run. }
  split; [now rewrite authHeaders_run |]. split; [now rewrite getStoredEmail_run |].
  split; [| split; [exact Hlogout | split]].
  - intros Ht He.
    assert (Htruthy : truthy (JStr token) = true).
    { cbn [truthy]. apply negb_true_iff. now apply String.eqb_neq. }
    rewrite storeAuth_run by (try discriminate; now apply truthy_defined). cbn [snd].
    rewrite authHeaders_run, getStoredEmail_run. unfold bearer.
    rewrite storedToken_withAuth, storedEmail_withAuth, Htruthy. unfold js_or. rewrite He.
    split; reflexivity.
  - rewrite Hlogout. cbn [snd]. rewrite authHeaders_run. unfold bearer.
    now rewrite storedToken_withoutAuth.
  - rewrite Hlogout. cbn [snd]. rewrite getStoredEmail_run.
    now rewrite storedEmail_withoutAuth.
Qed.

(** ** [checkAuth]: invalidation and failures *)

(** X4.  The backend is the authority on the session: when the status
    response is not [ok], or its body is not authenticated or carries
    no truthy email, [checkAuth] clears the stored credentials, so that
    no [Authorization] header is attached afterwards. *)
Theorem checkAuth_invalidates (w : world) (h : option string) (r : response) :
  bearer w = inr h ->
  fetch (statusRequest h) = inr r ->
  (ok r = false ->
   checkAuth w = (inr (JObj [("authenticated", JBool false)]),
                  withoutAuth (sending (statusRequest h) w))) /\
  (forall data a : jsval,
   ok r = true -> json r = inr data -> prop data "authenticated" = inr a ->
   truthy a = false \/ (exists e, prop data "email" = inr e /\ truthy e = false) ->
   checkAuth w = (inr data, withoutAuth (sending (statusRequest h) w))) /\
  bearer (withoutAuth (sending (statusRequest h) w)) = inr None /\
  storedEmail (withoutAuth (sending (statusRequest h) w)) = JUndefined.
Proof.
  intros Hb Hf. split; [| split; [| split]].
  - intros Hok. rewrite checkAuth_run, Hb. cbv zeta. now rewrite Hf, Hok.
  - intros data a Hok Hj Ha Hfalsy. rewrite checkAuth_run, Hb. cbv zeta.
    rewrite Hf, Hok, Hj, Ha.
    destruct Hfalsy as [Hta | (e & He & Hte)].
    + now rewrite Hta, Hta.
    + destruct (truthy a) eqn:Hta; [now rewrite He, Hte | now rewrite Hta].
  - unfold bearer. now rewrite storedToken_withoutAuth.
  - apply storedEmail_withoutAuth.
Qed.

(** X5.  [checkAuth] never throws and calls [fetch] at most once.  When
    the call of [fetch] rejects, or the body of an [ok] response is not
    JSON, it answers [{authenticated: false, error}] with the message of
    the error and leaves the stored credentials as they were. *)
Theorem checkAuth_failure_keeps_credentials (w : world) :
  (exists answer, (checkAuth w).1 = inr answer) /\
  (network (checkAuth w).2 = network w \/
   exists h, bearer w = inr h /\
             network (checkAuth w).2 = (network w ++ [statusRequest h])%list) /\
  (forall (h : option string) (e : exn),
   bearer w = inr h ->
   fetch (statusRequest h) = inl e \/
   (exists r, fetch (statusRequest h) = inr r /\ ok r = true /\ json r = inl e) ->
   checkAuth w = (inr (notAuthenticated e), sending (statusRequest h) w) /\
   storage (checkAuth w).2 = storage w).
Proof.
  split; [| split].
  - rewrite checkAuth_run. destruct (bearer w) as [e | h]; [eexists; reflexivity |]. cbv zeta.
    destruct (fetch (statusRequest h)) as [e | r]; [eexists; reflexivity |].
    destruct (ok r); [| eexists; reflexivity].
    destruct (json r) as [e | data]; [eexists; reflexivity |].
    destruct (prop data "authenticated") as [e | a]; [eexists; reflexivity |].
    destruct (if truthy a then prop data "email" else inr a) as [e | email];
      [eexists; reflexivity |].
    destruct (truthy email); [| eexists; reflexivity].
    destruct (strict_eq (storedEmail w) email); eexists; reflexivity.
  - rewrite checkAuth_run. destruct (bearer w) as [e | h]; [now left |]. cbv zeta.
    right. exists h. split; [reflexivity |].
    destruct (fetch (statusRequest h)) as [e | r]; [reflexivity |].
    destruct (ok r); [| reflexivity].
    destruct (json r) as [e | data]; [reflexivity |].
    destruct (prop data "authenticated") as [e | a]; [reflexivity |].
    destruct (if truthy a then prop data "email" else inr a) as [e | email]; [reflexivity |].
    destruct (truthy email); [| reflexivity].
    destruct (strict_eq (storedEmail w) email); reflexivity.
  - intros h e Hb Hfail.
    assert (H : checkAuth w = (inr (notAuthenticated e), sending (statusRequest h) w)).
    { rewrite checkAuth_run, Hb. cbv zeta.
      destruct Hfail as [-> | (r & -> & -> & ->)]; reflexivity. }
    split; [exact H | now rewrite H].
Qed.

(** X6.  When the server confirms the email that is already cached,
    [checkAuth] answers the response body and writes nothing. *)
Theorem checkAuth_steady (w : world) (h : option string) (r : response)
    (data a email : jsval) :
  bearer w = inr h ->
  fetch (statusRequest h) = inr r ->
  ok r = true ->
  json r = inr data ->
  prop data "authenticated" = inr a -> truthy a = true ->
  prop data "email" = inr email -> truthy email = true ->
  strict_eq (storedEmail w) email = true ->
  checkAuth w = (inr data, sending (statusRequest h) w).
Proof.
  intros Hb Hf Hok Hj Ha Hta He Hte Heq.
  rewrite checkAuth_run, Hb. cbv zeta. now rewrite Hf, Hok, Hj, Ha, Hta, He, Hte, Heq.
Qed.

(** ** Key lookups and metadata *)

Lemma fetchPublicKey_answer (email : string) (w : world) :
  exists answer,
    (fetchPublicKey email w).1 = inr answer /\
    storage (fetchPublicKey email w).2 = storage w /\
    answer = match bearer w with
             | inl e => JObj [("found", JBool false); ("email", JStr email);
                              ("error", JStr (message e))]
             | inr h => keyAnswer email (fetch (keyRequest email h))
             end.
Proof.
  rewrite fetchPublicKey_run. cbv zeta.
  destruct (bearer w) as [e | h]; [eexists; repeat split |].
  unfold keyAnswer.
  destruct (fetch (keyRequest email h)) as [e | r]; [eexists; repeat split |].
  destruct (ok r).
  - destruct (json r) as [e | data]; [eexists; repeat split |].
    destruct (prop data "publicKey"); eexists; repeat split.
  - destruct (status r =? 404); eexists; repeat split.
Qed.

(** X7.  [fetchPublicKey] never throws and never writes the store; its
    answer always names the email it was asked for.  On an [ok]
    response with a JSON object it answers [found: true] with the
    [publicKey] field of the body, which is [undefined] when the body
    has none. *)
Theorem fetchPublicKey_reads_only (email : string) (w : world) :
  (exists fields,
     (fetchPublicKey email w).1 = inr (JObj fields) /\
     field "email" fields = JStr email /\
     (exists found, field "found" fields = JBool found)) /\
  storage (fetchPublicKey email w).2 = storage w /\
  (forall (h : option string) (r : response) (body : list (string * jsval)),
   bearer w = inr h -> fetch (keyRequest email h) = inr r ->
   ok r = true -> json r = inr (JObj body) ->
   fetchPublicKey email w
   = (inr (JObj [("found", JBool true); ("email", JStr email);
                 ("publicKey", field "publicKey" body)]),
      sending (keyRequest email h) w)).
Proof.
  split; [| split].
  - rewrite fetchPublicKey_run. cbv zeta.
    destruct (bearer w) as [e | h]; [eexists; repeat split; eexists; reflexivity |].
    destruct (fetch (keyRequest email h)) as [e | r];
      [eexists; repeat split; eexists; reflexivity |].
    destruct (ok r).
    + destruct (json r) as [e | data]; [eexists; repeat split; eexists; reflexivity |].
      destruct (prop data "publicKey"); eexists; repeat split; eexists; reflexivity.
    + destruct (status r =? 404); eexists; repeat split; eexists; reflexivity.
  - destruct (fetchPublicKey_answer email w) as (answer & _ & H & _). exact H.
  - intros h r body Hb Hf Hok Hj. rewrite fetchPublicKey_run, Hb. cbv zeta.
    now rewrite Hf, Hok, Hj, prop_field.
Qed.

Lemma fetchPublicKeyOf_string (email : string) (w : world) :
  fetchPublicKeyOf (JStr email) w = fetchPublicKey email w.
Proof.
  unfold fetchPublicKeyOf, fetchPublicKey, try_catch, bind, lift, ret, throw. cbn [ToString].
  destruct (authHeaders w) as [[e | h] w1]; [reflexivity |].
  destruct (do_fetch (keyRequest email h) w1) as [[e | r] w2] eqn:Hf;
    unfold keyRequest in Hf; rewrite Hf; [reflexivity |].
  destruct (negb (ok r)).
  - destruct (status r =? 404); reflexivity.
  - destruct (json r) as [e | data]; [reflexivity |].
    destruct (prop data "publicKey"); reflexivity.
Qed.

Lemma bearer_storage (w1 w2 : world) : storage w1 = storage w2 -> bearer w1 = bearer w2.
Proof. unfold bearer, storedToken. now intros ->. Qed.

Lemma fetchPublicKey_storage (email : string) (w1 w2 : world) :
  storage w1 = storage w2 -> (fetchPublicKey email w1).1 = (fetchPublicKey email w2).1.
Proof.
  intros Hs.
  destruct (fetchPublicKey_answer email w1) as (a1 & H1 & _ & ->).
  destruct (fetchPublicKey_answer email w2) as (a2 & H2 & _ & ->).
  now rewrite H1, H2, (bearer_storage _ _ Hs).
Qed.

Lemma settleKeys_strings (emails : list string) (w0 w : world) :
  storage w = storage w0 ->
  exists results,
    (settleKeys (map JStr emails) w).1 = inr (map inr results) /\
    Forall2 (fun email r => (fetchPublicKey email w0).1 = inr r) emails results /\
    storage (settleKeys (map JStr emails) w).2 = storage w0.
Proof.
  revert w. induction emails as [| email rest IH]; intros w Hs.
  - exists []. repeat split; [constructor | exact Hs].
  - cbn [map settleKeys]. unfold bind, settle, ret. cbn [fst snd].
    rewrite fetchPublicKeyOf_string.
    destruct (fetchPublicKey_answer email w) as (r & Hr & Hst & _).
    destruct (IH (fetchPublicKey email w).2 (eq_trans Hst Hs)) as (results & Hres & Hall & Hstore).
    destruct (settleKeys (map JStr rest) (fetchPublicKey email w).2) as [settled w'].
    cbn [fst snd] in *. subst settled.
    exists (r :: results). rewrite Hr. repeat split.
    + constructor; [| exact Hall]. now rewrite <- (fetchPublicKey_storage email w w0 Hs).
    + exact Hstore.
Qed.

Lemma promiseAll_values (results : list jsval) : promiseAll (map inr results) = inr results.
Proof. induction results as [| r rest IH]; [reflexivity |]. cbn. now rewrite IH. Qed.

(** X8.  For a request whose [emails] is a list of strings,
    [fetchRecipientKeys] answers one result per email, in the order of
    the list, each the answer [fetchPublicKey] gives for that email
    alone; a lookup that fails is an entry of the list, not a failure of
    the batch; the store is not written.  Without an [emails] field the
    handler throws before any call of [fetch]. *)
Theorem fetchRecipientKeys_one_to_one (fields : list (string * jsval)) (emails : list string)
    (w : world) :
  (field "emails" fields = JArr (map JStr emails) ->
   exists results,
     (fetchRecipientKeys (JObj fields) w).1 = inr (JObj [("recipients", JArr results)]) /\
     Forall2 (fun email r => (fetchPublicKey email w).1 = inr r) emails results /\
     storage (fetchRecipientKeys (JObj fields) w).2 = storage w) /\
  (assoc "emails" fields = None ->
   fetchRecipientKeys (JObj fields) w
   = (inl (typeError (ReadOfNullish JUndefined "map")), w)).
Proof.
  split.
  - intros He. unfold fetchRecipientKeys, bind, lift, ret. rewrite prop_field, He.
    destruct (settleKeys_strings emails w w eq_refl) as (results & Hres & Hall & Hstore).
    destruct (settleKeys (map JStr emails) w) as [settled w']. cbn [fst snd] in *.
    subst settled. rewrite promiseAll_values. exists results. auto.
  - intros He. unfold fetchRecipientKeys, bind, lift. rewrite prop_field. unfold field.
    now rewrite He.
Qed.

(** [saveFileMetadata], path by path. *)
Lemma saveFileMetadata_run (fileId filename recipientEmails expiresAt senderEmail : jsval)
    (w : world) :
  saveFileMetadata fileId filename recipientEmails expiresAt senderEmail w =
  match bearer w with
  | inl e => (inl e, w)
  | inr h =>
      let req := filesRequest h fileId filename recipientEmails expiresAt senderEmail in
      match fetch req with
      | inl e => (inl e, sending req w)
      | inr r =>
          if ok r then (json r, sending req w)
          else (inl {| kind := ErrorK; message := "Failed to save file metadata" |},
                sending req w)
      end
  end.
Proof.
  unfold saveFileMetadata, try_catch, bind, throw. rewrite authHeaders_run.
  destruct (bearer w) as [e | h]; [reflexivity |]. cbv zeta.
  unfold do_fetch.
  fold (sending (filesRequest h fileId filename recipientEmails expiresAt senderEmail) w).
  destruct (fetch _) as [e | r]; [reflexivity |].
  destruct (ok r); step; [| reflexivity].
  unfold lift. now destruct (json r).
Qed.

(** X9.  [saveFileMetadata] sends one POST to [/files] carrying the
    five fields and the stored token.  A response that is not [ok]
    makes it throw [Failed to save file metadata], a rejected call of
    [fetch] makes it throw that error, and an [ok] response makes it
    answer the parsed body; it never writes the store. *)
Theorem saveFileMetadata_propagates (fileId filename recipientEmails expiresAt senderEmail : jsval)
    (w : world) (h : option string) :
  bearer w = inr h ->
  let req := filesRequest h fileId filename recipientEmails expiresAt senderEmail in
  let out := saveFileMetadata fileId filename recipientEmails expiresAt senderEmail w in
  out.2 = sending req w /\
  (forall e, fetch req = inl e -> out.1 = inl e) /\
  (forall r, fetch req = inr r -> ok r = false ->
   out.1 = inl {| kind := ErrorK; message := "Failed to save file metadata" |}) /\
  (forall r, fetch req = inr r -> ok r = true -> out.1 = json r).
Proof.
  intros Hb. cbv zeta. rewrite saveFileMetadata_run, Hb. cbv zeta.
  split; [| split; [| split]].
  - destruct (fetch _) as [e | r]; [reflexivity |]. now destruct (ok r).
  - now intros e ->.
  - now intros r -> ->.
  - now intros r -> ->.
Qed.

(** ** What the worker never does *)

Lemma other_keys_withAuth (token email : jsval) (w : world) (k : string) :
  k <> "authToken" -> k <> "userEmail" -> storage (withAuth token email w) !! k = storage w !! k.
Proof.
  intros Hk1 Hk2. unfold withAuth, set_storage. cbn [storage].
  now rewrite !lookup_insert_ne by congruence.
Qed.

Lemma other_keys_withoutAuth (w : world) (k : string) :
  k <> "authToken" -> k <> "userEmail" -> storage (withoutAuth w) !! k = storage w !! k.
Proof.
  intros Hk1 Hk2. unfold withoutAuth, set_storage. cbn [storage].
  now rewrite !lookup_delete_ne by congruence.
Qed.

(** X10.  Whatever the message, the response of the backend or the
    prior store, an external message, [logout], [loginWithCredentials]
    and [checkAuth] change no stored item other than [authToken] and
    [userEmail]; and an external message or a [logout] issues no call
    of [fetch]. *)
Theorem operations_write_only_credentials (op : operation) (w : world) :
  (forall k : string, k <> "authToken" -> k <> "userEmail" ->
   storage (after op w) !! k = storage w !! k) /\
  (forall message s, op = External message s -> network (after op w) = network w) /\
  (op = InternalLogout -> network (after op w) = network w).
Proof.
  split; [| split].
  - intros k Hk1 Hk2. destruct op as [message s | | request |]; unfold after; cbv beta iota.
    + destruct (onMessageExternal_world message s w) as [-> | [-> | (t & e & _ & _ & ->)]];
        [reflexivity | now apply other_keys_withoutAuth | now apply other_keys_withAuth].
    + now apply other_keys_withoutAuth.
    + destruct request as [| | b | n | str | l | fields]; try reflexivity.
      rewrite loginWithCredentials_run. cbv zeta.
      destruct (negb _ || negb _); [reflexivity |].
      destruct (fetch _) as [e | r]; [reflexivity |].
      destruct (json r) as [e | data]; [reflexivity |].
      destruct (if ok r then _ else _) as [e | [|]]; [reflexivity | |].
      * destruct (prop data "error"); reflexivity.
      * destruct (prop data "token") as [e | token];
          [destruct (prop data "email"); reflexivity |].
        destruct (prop data "email") as [e | dataEmail]; [reflexivity |].
        cbn [snd]. now rewrite storeAuth_other_keys.
    + rewrite checkAuth_run. destruct (bearer w) as [e | h]; [reflexivity |]. cbv zeta.
      destruct (fetch (statusRequest h)) as [e | r]; [reflexivity |].
      destruct (ok r); [| cbn [snd]; now rewrite other_keys_withoutAuth].
      destruct (json r) as [e | data]; [reflexivity |].
      destruct (prop data "authenticated") as [e | a]; [reflexivity |].
      destruct (if truthy a then prop data "email" else inr a) as [e | email]; [reflexivity |].
      destruct (truthy email); [| cbn [snd]; now rewrite other_keys_withoutAuth].
      destruct (strict_eq (storedEmail w) email); [reflexivity |].
      cbn [snd]. now rewrite other_keys_withAuth.
  - intros message s ->. unfold after.
    destruct (onMessageExternal_world message s w) as [-> | [-> | (t & e & _ & _ & ->)]];
      reflexivity.
  - intros ->. reflexivity.
Qed.

(** X11.  From an allow-listed origin every message object gets exactly
    one answer: [SEAL_LOGOUT] clears the credentials and answers
    success, [SEAL_PING] answers the installed flag and the manifest
    version without touching the world, and every other type than the
    three known ones, an absent type included, is answered [Unknown
    message type] with the world unchanged.  A message that is [null]
    gets no answer: the listener throws on reading its type.  A sender
    without a URL is refused like any origin off the list. *)
Theorem external_types (fields : list (string * jsval)) (s : sender) (w : world)
    (origin : string) :
  (senderOrigin s = inr origin -> In origin allowedOrigins ->
   (field "type" fields = JStr "SEAL_LOGOUT" ->
    onMessageExternal (JObj fields) s w
    = (inr {| sent := JObj [("success", JBool true)]; keepOpen := true |}, withoutAuth w)) /\
   (field "type" fields = JStr "SEAL_PING" ->
    onMessageExternal (JObj fields) s w
    = (inr {| sent := JObj [("installed", JBool true); ("version", JStr manifest_version)];
              keepOpen := false |}, w)) /\
   (field "type" fields <> JStr "SEAL_AUTH_TOKEN" ->
    field "type" fields <> JStr "SEAL_LOGOUT" ->
    field "type" fields <> JStr "SEAL_PING" ->
    onMessageExternal (JObj fields) s w
    = (inr {| sent := JObj [("error", JStr "Unknown message type")]; keepOpen := false |}, w)) /\
   onMessageExternal JNull s w = (inl (typeError (ReadOfNullish JNull "type")), w)) /\
  (sender_url s = None ->
   onMessageExternal (JObj fields) s w
   = (inr {| sent := JObj [("error", JStr "Unauthorized origin")]; keepOpen := false |}, w)).
Proof.
  assert (Hneq : forall v name, v <> JStr name -> strict_eq v (JStr name) = false).
  { intros v name Hv. destruct v; try reflexivity. cbn [strict_eq].
    apply String.eqb_neq. congruence. }
  split.
  - intros Ho Hin. apply includes_In in Hin.
    split; [| split; [| split]].
    + intros Hty. unfold onMessageExternal, bind, lift, ret.
      rewrite Ho, Hin, !prop_field, Hty. cbn. now rewrite clearAuth_run.
    + intros Hty. unfold onMessageExternal, bind, lift, ret.
      now rewrite Ho, Hin, !prop_field, Hty.
    + intros H1 H2 H3. unfold onMessageExternal, bind, lift, ret.
      now rewrite Ho, Hin, !prop_field, (Hneq _ _ H1), (Hneq _ _ H2), (Hneq _ _ H3).
    + unfold onMessageExternal, bind, lift, ret. now rewrite Ho, Hin.
  - intros Hurl. unfold onMessageExternal, bind, lift, ret, senderOrigin. now rewrite Hurl.
Qed.

(** ** The internal listener *)

Lemma messageHandlers_names (name : string) :
  In name handlerNames <-> exists handler, messageHandlers name = Some handler.
Proof.
  split.
  - intros H. unfold handlerNames in H. cbn [In] in H.
    destruct H as [<- | [<- | [<- | [<- | [<- | [<- | [<- | [<- | []]]]]]]]];
      eexists; reflexivity.
  - intros [handler H]. unfold messageHandlers in H. unfold handlerNames. cbn [In].
    repeat match type of H with
           | (if String.eqb name ?s then _ else _) = _ =>
               destruct (String.eqb_spec name s) as [-> | _];
               [repeat first [left; reflexivity | right] |]
           end.
    discriminate.
Qed.

Lemma messageHandlers_none (name : string) :
  ~ In name handlerNames -> messageHandlers name = None.
Proof.
  intros H. destruct (messageHandlers name) eqn:E; [| reflexivity].
  exfalso. apply H. apply messageHandlers_names. eauto.
Qed.

Lemma prototype_names_not_handlers (name : string) :
  In name objectPrototypeNames -> ~ In name handlerNames.
Proof.
  intros H Hh. unfold objectPrototypeNames in H. cbn [In] in H.
  unfold handlerNames in Hh. cbn [In] in Hh.
  repeat (destruct H as [<- | H];
          [repeat (destruct Hh as [Hh | Hh]; [discriminate Hh |]); exact Hh |]).
  exact H.
Qed.

(** X12.  An action that names one of the eight handlers is answered
    exactly once and the channel is kept open: with what the handler
    resolves to, or, when the handler throws, with [{error}] carrying
    the message of the error; the listener itself does not throw, and
    the state is the one the handler left. *)
Theorem onMessage_known_action (fields : list (string * jsval)) (name : string) (a : agent) :
  field "action" fields = JStr name ->
  In name handlerNames ->
  exists handler answer,
    messageHandlers name = Some handler /\
    onMessage (JObj fields) a
    = (inr (Some {| sent := answer; keepOpen := true |}), (handler (JObj fields) a).2) /\
    answer = match (handler (JObj fields) a).1 with
             | inr v => v
             | inl e => JObj [("error", JStr (message e))]
             end.
Proof.
  intros Haction Hin. apply messageHandlers_names in Hin. destruct Hin as [handler Hh].
  exists handler.
  exists (match (handler (JObj fields) a).1 with
          | inr v => v
          | inl e => JObj [("error", JStr (message e))]
          end).
  split; [exact Hh |]. split; [| reflexivity].
  unfold onMessage, bind, lift, try_catch, ret. rewrite prop_field, Haction. cbn [ToString].
  rewrite Hh. destruct (handler (JObj fields) a) as [[e | v] a']; reflexivity.
Qed.

(** X13.  An action that names no handler gets no answer and changes
    nothing, and so does a request without an action; unless the name
    is one that [messageHandlers] inherits from [Object.prototype]
    ([toString], [constructor], ...): then the listener throws, again
    without answering. *)
Theorem onMessage_unknown_action (fields : list (string * jsval)) (name : string) (a : agent) :
  ToString (field "action" fields) = inr name ->
  ~ In name handlerNames ->
  (~ In name objectPrototypeNames -> onMessage (JObj fields) a = (inr None, a)) /\
  (In name objectPrototypeNames ->
   onMessage (JObj fields) a = (inl (typeError (NotAFunction (JObj fields) name)), a)) /\
  (assoc "action" fields = None -> name = "undefined" /\ ~ In name objectPrototypeNames).
Proof.
  intros Hname Hnot. pose proof (messageHandlers_none name Hnot) as Hnone.
  split; [| split].
  - intros Hp. unfold onMessage, bind, lift, ret. rewrite prop_field, Hname, Hnone.
    now rewrite (includes_not_In _ _ Hp).
  - intros Hp. unfold onMessage, bind, lift, throw. rewrite prop_field, Hname, Hnone.
    apply includes_In in Hp. now rewrite Hp.
  - intros Hnone'. unfold field in Hname. rewrite Hnone' in Hname. cbn in Hname.
    injection Hname as <-. split; [reflexivity |].
    unfold objectPrototypeNames. cbn [In].
    intros H. repeat (destruct H as [H | H]; [discriminate H |]). exact H.
Qed.

(** X14.  [attachToGmail] fails with [No Gmail tab found] when no tab
    matches, relaying nothing; otherwise it relays one [attachSealFile]
    message, carrying the file and the name of the request, to the
    first matching tab only, and answers what that tab responds or
    throws the message of the relay error.  It never touches the
    worker's world. *)
Theorem attachToGmail_relays (fields : list (string * jsval)) (a : agent) :
  let relay := JObj [("action", JStr "attachSealFile"); ("sealFile", field "sealFile" fields);
                     ("filename", field "filename" fields)] in
  agentWorld (attachToGmail (JObj fields) a).2 = agentWorld a /\
  tabsCreated (attachToGmail (JObj fields) a).2 = tabsCreated a /\
  (gmailTabs = [] ->
   attachToGmail (JObj fields) a
   = (inl {| kind := ErrorK; message := "No Gmail tab found" |}, a)) /\
  (forall id others, gmailTabs = id :: others ->
   tabMessages (attachToGmail (JObj fields) a).2 = (tabMessages a ++ [(id, relay)])%list /\
   (attachToGmail (JObj fields) a).1
   = match tabs_sendMessage id relay with
     | inl lastError => inl {| kind := ErrorK; message := lastError |}
     | inr response => inr response
     end).
Proof.
  cbv zeta. unfold attachToGmail, bind, lift, modify, throw, ret. rewrite !prop_field.
  destruct gmailTabs as [| tab rest].
  - split; [reflexivity |]. split; [reflexivity |]. split; [reflexivity |].
    intros id others H. discriminate H.
  - destruct (tabs_sendMessage tab _) eqn:Hs;
      (split; [reflexivity |]; split; [reflexivity |]; split; [discriminate |];
       intros id others H; injection H as <- <-; rewrite Hs; split; reflexivity).
Qed.

Lemma inWorld_tabs {A : Type} (m : M world A) (a : agent) :
  tabsCreated (inWorld m a).2 = tabsCreated a /\ tabMessages (inWorld m a).2 = tabMessages a.
Proof. split; reflexivity. Qed.


(** ** The login route *)

Lemma serialised_error (v : jsval) :
  truthy v = true -> serialised [("error", v)] = [("error", v)].
Proof. destruct v; try reflexivity; discriminate. Qed.

(** X16.  Once the CORS headers are computed the route never throws:
    it answers with those headers and either status 200 and a body
    [{authenticated: true, email, token}], or status 400, 401 or 500
    and a body [{error}] whose error is truthy.  It makes at most one
    sign-in attempt. *)
Theorem POST_answers (request : serverRequest) (attempts : list (jsval * jsval))
    (h : list (string * string)) :
  corsHeaders request = inr h ->
  (exists answer, (POST request attempts).1 = inr answer /\ routeAnswer h answer) /\
  ((POST request attempts).2 = attempts \/
   exists email password, (POST request attempts).2 = (attempts ++ [(email, password)])%list).
Proof.
  intros Hh. unfold POST, bind, lift, try_catch, ret, modify. rewrite Hh.
  assert (Hfail : forall status m, In status [400; 401; 500] ->
            routeAnswer h (respond status [("error", JStr m)] h) \/ m = "").
  { intros status m Hin. destruct (String.eqb_spec m "") as [-> | Hm]; [now right |]. left.
    unfold respond. rewrite serialised_error.
    - apply Refused; [exact Hin |]. cbn. apply negb_true_iff. now apply String.eqb_neq.
    - cbn. apply negb_true_iff. now apply String.eqb_neq. }
  assert (H400 : routeAnswer h (respond 400 [("error", JStr "Email and password are required")] h)).
  { destruct (Hfail 400 "Email and password are required") as [H | H];
      [cbn; auto | exact H | discriminate H]. }
  assert (H500 : routeAnswer h (respond 500 [("error", JStr "Internal server error")] h)).
  { destruct (Hfail 500 "Internal server error") as [H | H];
      [cbn; auto | exact H | discriminate H]. }
  assert (Hcfg : routeAnswer h (respond 500 [("error", JStr "Server configuration error")] h)).
  { destruct (Hfail 500 "Server configuration error") as [H | H];
      [cbn; auto | exact H | discriminate H]. }
  destruct (requestJson request) as [e | posted]; [split; [eauto | now left] |].
  destruct (prop posted "email") as [e | email]; [split; [eauto | now left] |].
  destruct (prop posted "password") as [e | password]; [split; [eauto | now left] |].
  destruct (negb (truthy email) || negb (truthy password)); [split; [eauto | now left] |].
  destruct (configured env_supabaseUrl) as [u |]; [| split; [eauto | now left]].
  destruct (configured env_supabaseAnonKey) as [k |]; [| split; [eauto | now left]].
  step. split; [| right; destruct (signInWithPassword u k email password) as [e | result];
                  [eauto |];
                  destruct (prop result "data") as [e | data]; [eauto |];
                  destruct (prop result "error") as [e | error]; [eauto |];
                  destruct (truthy error);
                  [destruct (optionalMessage error); eauto |];
                  destruct (prop data "session") as [e | session]; [eauto |];
                  destruct (negb (truthy session));
                  [destruct (optionalMessage error); eauto |];
                  destruct (prop data "user") as [e | user]; [eauto |];
                  destruct (prop user "email"); [eauto |];
                  destruct (prop session "access_token"); eauto].
  assert (H401 : forall reason,
            routeAnswer h (respond 401 [("error", js_or reason (JStr "Invalid email or password"))]
                             h)).
  { intros reason. assert (Ht : truthy (js_or reason (JStr "Invalid email or password")) = true).
    { unfold js_or. destruct (truthy reason) eqn:E; [exact E | reflexivity]. }
    unfold respond. rewrite (serialised_error _ Ht). apply Refused; [cbn; auto | exact Ht]. }
  destruct (signInWithPassword u k email password) as [e | result]; [eauto |].
  destruct (prop result "data") as [e | data]; [eauto |].
  destruct (prop result "error") as [e | error]; [eauto |].
  destruct (truthy error).
  { destruct (optionalMessage error); eauto. }
  destruct (prop data "session") as [e | session]; [eauto |].
  destruct (negb (truthy session)).
  { destruct (optionalMessage error); eauto. }
  destruct (prop data "user") as [e | user]; [eauto |].
  destruct (prop user "email") as [e | userEmail']; [eauto |].
  destruct (prop session "access_token") as [e | token]; [eauto |].
  eexists. split; [reflexivity | apply Signed].
Qed.

(** X17.  The route turns a request down before any sign-in attempt:
    a posted object whose email or password is missing or falsy gets
    400 [Email and password are required]; a body that is not JSON, or
    is [null], gets 500 [Internal server error]; and with the address
    or the key of the identity service not configured a complete
    request gets 500 [Server configuration error]. *)
Theorem POST_rejects_before_sign_in (request : serverRequest) (attempts : list (jsval * jsval))
    (h : list (string * string)) :
  corsHeaders request = inr h ->
  (forall fields, requestJson request = inr (JObj fields) ->
   truthy (field "email" fields) = false \/ truthy (field "password" fields) = false ->
   POST request attempts
   = (inr (respond 400 [("error", JStr "Email and password are required")] h), attempts)) /\
  ((exists e, requestJson request = inl e) \/ requestJson request = inr JNull ->
   POST request attempts
   = (inr (respond 500 [("error", JStr "Internal server error")] h), attempts)) /\
  (forall fields, requestJson request = inr (JObj fields) ->
   truthy (field "email" fields) = true -> truthy (field "password" fields) = true ->
   configured env_supabaseUrl = None \/ configured env_supabaseAnonKey = None ->
   POST request attempts
   = (inr (respond 500 [("error", JStr "Server configuration error")] h), attempts)).
Proof.
  intros Hh. split; [| split].
  - intros fields Hj Hfalsy. unfold POST, bind, lift, try_catch, ret. rewrite Hh, Hj, !prop_field.
    destruct Hfalsy as [-> | ->]; [| rewrite orb_true_r]; reflexivity.
  - intros [[e He] | Hnull]; unfold POST, bind, lift, try_catch, ret; rewrite Hh.
    + now rewrite He.
    + now rewrite Hnull.
  - intros fields Hj He Hp Hcfg. unfold POST, bind, lift, try_catch, ret.
    rewrite Hh, Hj, !prop_field, He, Hp. step.
    destruct Hcfg as [-> | ->]; [reflexivity |].
    now destruct (configured env_supabaseUrl).
Qed.

(** X18.  With the service configured and both fields truthy, the
    route makes exactly one sign-in attempt, with the posted email and
    password.  When the service reports an error it answers 401 with
    the message of that error, or with [Invalid email or password] when
    the error has none or when there is no error but no session either;
    when the service returns a session and a user it answers 200 with
    the user's email and the session's access token. *)
Theorem POST_signs_in (request : serverRequest) (attempts : list (jsval * jsval))
    (h : list (string * string)) (fields result : list (string * jsval))
    (supabaseUrl supabaseAnonKey : string) :
  corsHeaders request = inr h ->
  requestJson request = inr (JObj fields) ->
  truthy (field "email" fields) = true -> truthy (field "password" fields) = true ->
  configured env_supabaseUrl = Some supabaseUrl ->
  configured env_supabaseAnonKey = Some supabaseAnonKey ->
  signInWithPassword supabaseUrl supabaseAnonKey (field "email" fields) (field "password" fields)
  = inr (JObj result) ->
  (POST request attempts).2
  = (attempts ++ [(field "email" fields, field "password" fields)])%list /\
  (forall error, field "error" result = JObj error ->
   (POST request attempts).1
   = inr (respond 401 [("error", js_or (field "message" error)
                                   (JStr "Invalid email or password"))] h)) /\
  (forall data, truthy (field "error" result) = false -> field "data" result = JObj data ->
   truthy (field "session" data) = false ->
   (POST request attempts).1
   = inr (respond 401 [("error", JStr "Invalid email or password")] h)) /\
  (forall data session user,
   truthy (field "error" result) = false -> field "data" result = JObj data ->
   field "session" data = JObj session -> field "user" data = JObj user ->
   (POST request attempts).1
   = inr (respond 200 [("authenticated", JBool true); ("email", field "email" user);
                       ("token", field "access_token" session)] h)).
Proof.
  intros Hh Hj He Hp Hu Hk Hsign.
  unfold POST, bind, lift, try_catch, ret, modify.
  rewrite Hh, Hj, !prop_field, He, Hp, Hu, Hk. step. rewrite Hsign, !prop_field.
  split; [| split; [| split]].
  - destruct (truthy (field "error" result)).
    + destruct (optionalMessage (field "error" result)); reflexivity.
    + destruct (prop (field "data" result) "session") as [e | session]; [reflexivity |].
      destruct (negb (truthy session)).
      * destruct (optionalMessage (field "error" result)); reflexivity.
      * destruct (prop (field "data" result) "user") as [e | user]; [reflexivity |].
        destruct (prop user "email"); [reflexivity |].
        destruct (prop session "access_token"); reflexivity.
  - intros error Herr. rewrite Herr. cbn [truthy optionalMessage]. now rewrite prop_field.
  - intros data Hnoerr Hdata Hsession. rewrite Hnoerr, Hdata, prop_field, Hsession. step.
    destruct (field "error" result) as [| | b | n | s | l | o]; try discriminate Hnoerr;
      try reflexivity.
  - intros data session user Hnoerr Hdata Hsession Huser.
    rewrite Hnoerr, Hdata, !prop_field, Hsession, Huser. cbn [truthy negb].
    now rewrite !prop_field.
Qed.

Lemma POST_complete_request (request : serverRequest) (attempts : list (jsval * jsval))
    (h : list (string * string)) (fields : list (string * jsval)) (answer : nextResponse) :
  corsHeaders request = inr h ->
  requestJson request = inr (JObj fields) ->
  truthy (field "email" fields) = true -> truthy (field "password" fields) = true ->
  (POST request attempts).1 = inr answer ->
  routeAnswer h answer /\ responseStatus answer <> 400.
Proof.
  intros Hh Hj He Hp Hanswer.
  destruct (POST_answers request attempts h Hh) as [(answer' & Ha & Hroute) _].
  rewrite Hanswer in Ha. injection Ha as <-. split; [exact Hroute |].
  revert Hanswer. unfold POST, bind, lift, try_catch, ret, modify.
  rewrite Hh, Hj, !prop_field, He, Hp. step.
  destruct (configured env_supabaseUrl) as [u |];
    [| intros H; injection H as <-; discriminate].
  destruct (configured env_supabaseAnonKey) as [k |];
    [| intros H; injection H as <-; discriminate].
  step.
  destruct (signInWithPassword u k _ _) as [e | result];
    [intros H; injection H as <-; discriminate |].
  destruct (prop result "data") as [e | data]; [intros H; injection H as <-; discriminate |].
  destruct (prop result "error") as [e | error]; [intros H; injection H as <-; discriminate |].
  destruct (truthy error).
  { destruct (optionalMessage error); intros H; injection H as <-; discriminate. }
  destruct (prop data "session") as [e | session];
    [intros H; injection H as <-; discriminate |].
  destruct (negb (truthy session)).
  { destruct (optionalMessage error); intros H; injection H as <-; discriminate. }
  destruct (prop data "user") as [e | user]; [intros H; injection H as <-; discriminate |].
  destruct (prop user "email") as [e | userEmail'];
    [intros H; injection H as <-; discriminate |].
  destruct (prop session "access_token") as [e | token];
    intros H; injection H as <-; discriminate.
Qed.

Lemma signed_body (email token : jsval) :
  field "authenticated"
    (serialised [("authenticated", JBool true); ("email", email); ("token", token)])
  = JBool true /\
  field "email" (serialised [("authenticated", JBool true); ("email", email); ("token", token)])
  = email /\
  field "token" (serialised [("authenticated", JBool true); ("email", email); ("token", token)])
  = token.
Proof. destruct email, token; repeat split. Qed.

(** X19.  The extension's login against this route.  The route parses
    the object [loginWithCredentials] posts, an email and a password
    that are both truthy, so it never answers 400.  When it answers 200
    the extension answers [{authenticated: true, email}] and its store
    then holds the token of the body under [authToken] and the email of
    the body under [userEmail], nothing else having changed; when it
    answers 401 or 500 the extension answers [{authenticated: false,
    error}] with the error of the route and stores nothing. *)
Theorem extension_login_against_route (fields : list (string * jsval)) (w : world)
    (request : serverRequest) (attempts : list (jsval * jsval)) (h : list (string * string))
    (answer : nextResponse) :
  truthy (field "email" fields) = true ->
  truthy (field "password" fields) = true ->
  corsHeaders request = inr h ->
  requestJson request
  = inr (JObj [("email", field "email" fields); ("password", field "password" fields)]) ->
  (POST request attempts).1 = inr answer ->
  fetch (loginRequest (field "email" fields) (field "password" fields))
  = inr (onTheWire answer) ->
  responseStatus answer <> 400 /\
  (responseStatus answer = 200 ->
   exists email token,
     responseBody answer
     = JObj (serialised [("authenticated", JBool true); ("email", email); ("token", token)]) /\
     let out := loginWithCredentials (JObj fields) w in
     let req := loginRequest (field "email" fields) (field "password" fields) in
     out.1 = inr (JObj [("authenticated", JBool true); ("email", email)]) /\
     network out.2 = (network w ++ [req])%list /\
     storage out.2 !! "authToken" = written token (storage w !! "authToken") /\
     storage out.2 !! "userEmail" = written email (storage w !! "userEmail") /\
     (forall k : string, k <> "authToken" -> k <> "userEmail" ->
      storage out.2 !! k = storage w !! k) /\
     (token <> JUndefined -> email <> JUndefined ->
      out.2 = withAuth token email (sending req w))) /\
  (responseStatus answer <> 200 ->
   exists error,
     responseBody answer = JObj [("error", error)] /\
     loginWithCredentials (JObj fields) w
     = (inr (JObj [("authenticated", JBool false); ("error", error)]),
        sending (loginRequest (field "email" fields) (field "password" fields)) w)).
Proof.
  intros He Hp Hh Hj Hanswer Hfetch.
  destruct (POST_complete_request request attempts h _ answer Hh Hj He Hp Hanswer)
    as [Hroute H400].
  split; [exact H400 |].
  rewrite loginWithCredentials_run. cbv zeta. rewrite He, Hp. step. rewrite Hfetch.
  destruct Hroute as [email token | code error Hin Herr].
  - split; [| intros H; now contradiction H].
    intros _. exists email, token. split; [reflexivity |].
    unfold onTheWire, respond. cbn [json ok status responseStatus responseBody].
    unfold and_then. rewrite !prop_field.
    destruct (signed_body email token) as (-> & -> & ->). cbn [truthy negb fst snd].
    set (req := loginRequest (field "email" fields) (field "password" fields)).
    destruct (storeAuth_lookup token email (sending req w)) as (Ht & He' & Hk & Hn).
    split; [reflexivity |]. split; [exact Hn |]. split; [exact Ht |]. split; [exact He' |].
    split; [exact Hk |].
    intros Hdt Hde. now rewrite storeAuth_run by assumption.
  - split.
    + intros H200. cbn [responseStatus] in H200. subst code.
      cbn [In] in Hin. destruct Hin as [H | [H | [H | []]]]; discriminate H.
    + intros _. exists error. split; [reflexivity |].
      unfold onTheWire. cbn [json ok status responseStatus responseBody].
      assert (Hok : ok {| status := code; json := inr (JObj [("error", error)]) |} = false).
      { cbn [In] in Hin. destruct Hin as [<- | [<- | [<- | []]]]; reflexivity. }
      rewrite Hok, prop_field. cbv beta iota.
      change (field "error" [("error", error)]) with error.
      unfold js_or. now rewrite Herr.
Qed.

(** ** The popup: [handleFile] as a whole *)

(** [displayFileInfo] writes the info screen only: the user, the file
    kept in memory, the error message and the recorded calls stay as
    they were, and the info screen is activated exactly when it
    completes. *)
Lemma displayFileInfo_frame (sealFile : jsval) (fileSize : Z) (p : popup) :
  let out := displayFileInfo sealFile fileSize p in
  userEmail out.2 = userEmail p /\
  calls out.2 = calls p /\
  currentSealFile out.2 = currentSealFile p /\
  currentRawText out.2 = currentRawText p /\
  errorMessage out.2 = errorMessage p /\
  match out.1 with
  | inr _ => activeScreen out.2 = Info
  | inl _ => activeScreen out.2 = activeScreen p
  end.
Proof.
  cbv zeta. unfold displayFileInfo, bind, lift, modify, gets, ret, showScreen.
  destruct (prop sealFile "metadata") as [e | metadata]; [repeat split |]. cbv zeta.
  destruct (prop (js_or metadata (JObj [])) "originalName") as [e | originalName];
    [repeat split |].
  destruct (ToString _) as [e | filenameText]; [repeat split |].
  destruct (prop (js_or metadata (JObj [])) "originalSize") as [e | originalSize];
    [repeat split |].
  destruct (formatFileSize _) as [e | sizeText]; [repeat split |].
  destruct (prop (js_or metadata (JObj [])) "encryptedAt") as [e | encryptedAt];
    [repeat split |].
  destruct (truthy encryptedAt);
    [destruct (Date_value encryptedAt) as [e | d0]; [repeat split |] |];
  (destruct (prop (js_or metadata (JObj [])) "expiresAt") as [e | expiresAtField];
     [repeat split |];
   destruct (truthy expiresAtField);
     [destruct (Date_value expiresAtField) as [e | d]; [repeat split |] |];
   (destruct (prop sealFile "recipients") as [e | recipients]; [repeat split |];
    destruct (truthy recipients);
      [destruct (prop recipients "length") as [e | len]; [repeat split |];
       destruct (js_gt0 len) as [e | [|]]; [repeat split | |];
       [destruct (mapEmails recipients) as [e | emails]; [repeat split |];
        destruct (recipientsText emails) as [e | shown]; [repeat split |];
        destruct (join emails ", ") as [e | title]; [repeat split |] |] |];
    cbn [userEmail set_infoSize set_infoFilename set_infoDate set_infoExpires
         set_infoRecipients set_infoRecipientsTitle];
    (destruct (truthy (userEmail p)); cbn [andb];
       [try (destruct (someRecipient recipients (userEmail p)) as [e | access];
             [repeat split |]) |]);
    try (destruct (before d now)); try destruct access; repeat split)).
Qed.

(** The shape of every run of [handleFile]: the accepted file is put in
    memory, then displayed. *)
Lemma handleFile_run (f : file) (p : popup) :
  (exists m made,
     handleFile f p = rejected m (fold_left (fun q c => log_call c q) made p) /\
     (made = [] \/ made = [FileText] \/
      exists t, text f = inr t /\ made = [FileText; JSONParse t])) \/
  (exists t sealFile version fileId payload,
     endsWith (name f) ".seal" = true /\ size f <= sizeLimit /\
     text f = inr t /\ startsWith t "{" = true /\ JSON_parse t = inr sealFile /\
     prop sealFile "version" = inr version /\ prop sealFile "fileId" = inr fileId /\
     prop sealFile "payload" = inr payload /\
     truthy version = true /\ truthy fileId = true /\ truthy payload = true /\
     let q := set_currentFile sealFile (Some t)
                (log_call (JSONParse t) (log_call FileText p)) in
     handleFile f p
     = match displayFileInfo sealFile (size f) q with
       | (inr u, q') => (inr u, q')
       | (inl err, q') =>
           rejected (caughtMessage err) q'
       end).
Proof.
  unfold handleFile.
  destruct (endsWith (name f) ".seal") eqn:Hext; step;
    [| left; exists msgUnsupported, []; split; [reflexivity | auto]].
  destruct (size f >? 10 * 1024 * 1024) eqn:Hsize;
    [left; exists msgTooLarge, []; split; [reflexivity | auto] |].
  assert (Hle : size f <= sizeLimit).
  { rewrite Z.gtb_ltb in Hsize. apply Z.ltb_ge in Hsize. unfold sizeLimit. lia. }
  unfold try_catch, bind, modify, lift.
  destruct (text f) as [e | t] eqn:Htext.
  { left. exists (caughtMessage e), [FileText]. split; [| auto].
    unfold caughtMessage. destruct (kind e); reflexivity. }
  destruct (startsWith t "{") eqn:Hbrace; step;
    [| left; exists msgNotSeal, [FileText]; split; [reflexivity | auto]].
  unfold parseJSON. destruct (JSON_parse t) as [m | sealFile] eqn:Hparse.
  { left. exists msgCorrupted, [FileText; JSONParse t]. split; [reflexivity |].
    right. right. exists t. auto. }
  destruct (prop sealFile "version") as [e | version] eqn:Hversion.
  { left. exists (caughtMessage e), [FileText; JSONParse t].
    split; [unfold caughtMessage; destruct (kind e); reflexivity |].
    right. right. exists t. auto. }
  destruct (prop sealFile "fileId") as [e | fileId] eqn:HfileId.
  { left. exists (caughtMessage e), [FileText; JSONParse t].
    split; [unfold caughtMessage; destruct (kind e); reflexivity |].
    right. right. exists t. auto. }
  destruct (prop sealFile "payload") as [e | payload] eqn:Hpayload.
  { left. exists (caughtMessage e), [FileText; JSONParse t].
    split; [unfold caughtMessage; destruct (kind e); reflexivity |].
    right. right. exists t. auto. }
  destruct (truthy version) eqn:Hv; step;
    [| left; exists msgIncomplete, [FileText; JSONParse t]; split; [reflexivity |];
       right; right; exists t; auto].
  destruct (truthy fileId) eqn:Hf; step;
    [| left; exists msgIncomplete, [FileText; JSONParse t]; split; [reflexivity |];
       right; right; exists t; auto].
  destruct (truthy payload) eqn:Hp; step;
    [| left; exists msgIncomplete, [FileText; JSONParse t]; split; [reflexivity |];
       right; right; exists t; auto].
  right. exists t, sealFile, version, fileId, payload.
  repeat (split; [assumption || reflexivity |]). cbv zeta.
  destruct (displayFileInfo _ _ _) as [[e | []] q']; [| reflexivity].
  unfold caughtMessage. destruct (kind e); reflexivity.
Qed.

(** X20.  [handleFile] never throws and always ends on the info screen
    or on the error screen; it reads the file at most once and parses at
    most once, in that order, and never touches the signed-in user.  A
    run that ends on the info screen leaves the error message as it
    was. *)
Theorem handleFile_settles (f : file) (p : popup) :
  let out := handleFile f p in
  out.1 = inr tt /\
  (activeScreen out.2 = Info \/ activeScreen out.2 = Error) /\
  userEmail out.2 = userEmail p /\
  (exists made,
     calls out.2 = (calls p ++ made)%list /\
     (made = [] \/ made = [FileText] \/
      exists t, text f = inr t /\ made = [FileText; JSONParse t])) /\
  (activeScreen out.2 = Info -> errorMessage out.2 = errorMessage p).
Proof.
  cbv zeta. destruct (handleFile_run f p) as [(m & made & -> & Hmade) | H].
  - unfold rejected. cbn [fst snd activeScreen set_activeScreen userEmail set_errorMessage calls].
    split; [reflexivity |]. split; [auto |].
    assert (Hframe : forall l q, userEmail (fold_left (fun q c => log_call c q) l q) = userEmail q
                              /\ calls (fold_left (fun q c => log_call c q) l q)
                                 = (calls q ++ l)%list).
    { induction l as [| c l IH]; intros q; cbn [fold_left].
      - now rewrite app_nil_r.
      - destruct (IH (log_call c q)) as [-> ->]. cbn [userEmail calls log_call].
        now rewrite <- app_assoc. }
    destruct (Hframe made p) as [Hu Hc]. split; [exact Hu |].
    split; [exists made; auto |]. discriminate.
  - destruct H as (t & sealFile & version & fileId & payload & _ & _ & Htext & _ & _ & _ & _
                   & _ & _ & _ & _ & ->).
    cbv zeta.
    pose proof (displayFileInfo_frame sealFile (size f)
                  (set_currentFile sealFile (Some t)
                     (log_call (JSONParse t) (log_call FileText p)))) as Hd.
    cbv zeta in Hd.
    destruct (displayFileInfo _ _ _) as [[e | []] q'];
      cbn [fst snd] in Hd; destruct Hd as (Hu & Hc & _ & _ & He & Hs).
    + unfold rejected.
      cbn [fst snd activeScreen set_activeScreen userEmail set_errorMessage calls].
      split; [reflexivity |]. split; [auto |]. split; [exact Hu |].
      split; [| discriminate].
      exists [FileText; JSONParse t]. split; [| right; right; exists t; auto].
      rewrite Hc. cbn [calls set_currentFile log_call]. now rewrite <- app_assoc.
    + cbn [fst snd]. split; [reflexivity |]. split; [auto |]. split; [exact Hu |].
      split; [| intros _; exact He].
      exists [FileText; JSONParse t]. split; [| right; right; exists t; auto].
      rewrite Hc. cbn [calls set_currentFile log_call]. now rewrite <- app_assoc.
Qed.

(** X21.  The file in memory changes exactly when a file passes all
    five checks, and it changes before the file is displayed.  For a
    file that passes them, the parsed value and the raw text are in
    memory afterwards, whether the info screen is reached or the
    display throws; in the second case the run ends on the error screen
    with the unexpected-error message (the corrupted message for a
    [SyntaxError]).  For a file that fails any of them, the run ends on
    the error screen and the file in memory is the one that was there
    before. *)
Theorem handleFile_memory (f : file) (p : popup) :
  let out := handleFile f p in
  (forall t sealFile, passesChecks f t sealFile ->
   currentSealFile out.2 = sealFile /\ currentRawText out.2 = Some t /\
   match (displayFileInfo sealFile (size f)
            (set_currentFile sealFile (Some t)
               (log_call (JSONParse t) (log_call FileText p)))).1 with
   | inr _ => activeScreen out.2 = Info
   | inl err => activeScreen out.2 = Error /\ errorMessage out.2 = caughtMessage err
   end) /\
  ((forall t sealFile, ~ passesChecks f t sealFile) ->
   currentSealFile out.2 = currentSealFile p /\ currentRawText out.2 = currentRawText p /\
   activeScreen out.2 = Error).
Proof.
  cbv zeta. split.
  - intros t sealFile (Hext & Hsize & Htext & Hbrace & Hparse & version & fileId & payload
                       & Hversion & HfileId & Hpayload & Hv & Hf & Hp).
    unfold handleFile. rewrite Hext, (size_guard_passes _ Hsize). step.
    unfold try_catch, bind, modify, lift. rewrite Htext, Hbrace. step.
    unfold parseJSON. rewrite Hparse, Hversion, HfileId, Hpayload, Hv, Hf, Hp. step.
    pose proof (displayFileInfo_frame sealFile (size f)
                  (set_currentFile sealFile (Some t)
                     (log_call (JSONParse t) (log_call FileText p)))) as Hd.
    cbv zeta in Hd.
    destruct (displayFileInfo _ _ _) as [[e | []] q'];
      cbn [fst snd] in Hd |- *; destruct Hd as (_ & _ & Hfile & Hraw & _ & Hs).
    + assert (Hshown : showError (caughtMessage e) q' = rejected (caughtMessage e) q')
        by reflexivity.
      unfold caughtMessage in Hshown |- *.
      destruct (kind e); rewrite Hshown; unfold rejected;
        cbn [snd activeScreen set_activeScreen set_errorMessage currentSealFile currentRawText
             errorMessage];
        rewrite Hfile, Hraw; auto.
    + rewrite Hfile, Hraw. auto.
  - intros Hnone. destruct (handleFile_run f p) as [(m & made & -> & Hmade) | H].
    + unfold rejected.
      cbn [snd activeScreen set_activeScreen set_errorMessage currentSealFile currentRawText].
      assert (Hframe : forall l q,
                 currentSealFile (fold_left (fun q c => log_call c q) l q) = currentSealFile q
                 /\ currentRawText (fold_left (fun q c => log_call c q) l q)
                    = currentRawText q).
      { induction l as [| c l IH]; intros q; cbn [fold_left]; [auto |].
        destruct (IH (log_call c q)) as [-> ->]. auto. }
      destruct (Hframe made p) as [-> ->]. auto.
    + exfalso.
      destruct H as (t & sealFile & version & fileId & payload & Hext & Hsize & Htext & Hbrace
                     & Hparse & Hversion & HfileId & Hpayload & Hv & Hf & Hp & _).
      apply (Hnone t sealFile). unfold passesChecks.
      repeat (split; [assumption |]). exists version, fileId, payload.
      repeat apply conj; assumption.
Qed.

(** ** The popup and the worker *)

Lemma wire_truthy (v : jsval) : truthy (wire v) = truthy v.
Proof. destruct v; reflexivity. Qed.

(** A message that names a handler is answered with what arrives of the
    handler's result, or of its error. *)
Lemma deliver_handler (fields : list (string * jsval)) (name : string)
    (handler : jsval -> M agent jsval) (a : agent) :
  wire (JObj fields) = JObj fields ->
  field "action" fields = JStr name ->
  messageHandlers name = Some handler ->
  deliver (JObj fields) a
  = (inr (wire (match (handler (JObj fields) a).1 with
                | inr v => v
                | inl e => JObj [("error", JStr (message e))]
                end)),
     (handler (JObj fields) a).2).
Proof.
  intros Hw Ha Hh. unfold deliver. rewrite Hw.
  unfold onMessage, bind, lift, try_catch, ret. rewrite prop_field, Ha. cbn [ToString].
  rewrite Hh. destruct (handler (JObj fields) a) as [[e | v] a']; reflexivity.
Qed.

(** X22.  A failure of a handler of the worker reaches the popup as a
    rejection of [sendMessage] with the same message, its class
    reduced to [Error]; only a failure whose message is empty arrives
    as a resolved [{error: ''}].  An answer without a truthy [error]
    resolves with what arrives of it.  Either way the worker is left as
    the handler left it and the page is otherwise unchanged. *)
Theorem sendMessage_relays_failure (fields : list (string * jsval)) (name : string)
    (handler : jsval -> M agent jsval) (g : page) :
  wire (JObj fields) = JObj fields ->
  field "action" fields = JStr name ->
  messageHandlers name = Some handler ->
  let ran := handler (JObj fields) (worker g) in
  (forall e, ran.1 = inl e ->
     sendMessage (JObj fields) g
     = (if String.eqb (message e) "" then Resolved (JObj [("error", JStr "")])
        else Rejected {| kind := ErrorK; message := message e |},
        set_worker ran.2 g)) /\
  (forall answer error, ran.1 = inr (JObj answer) ->
     prop (wire (JObj answer)) "error" = inr error -> truthy error = false ->
     sendMessage (JObj fields) g = (Resolved (wire (JObj answer)), set_worker ran.2 g)).
Proof.
  intros Hw Ha Hh. cbv zeta. split.
  - intros e He. unfold sendMessage. cbv zeta.
    rewrite (deliver_handler fields name handler (worker g) Hw Ha Hh), He.
    cbn [fst snd wire truthy]. rewrite prop_field.
    change (field "error" [("error", JStr (message e))]) with (JStr (message e)).
    cbn [truthy ToString].
    destruct (String.eqb_spec (message e) "") as [-> | Hne]; reflexivity.
  - intros answer error Hr Herr Hfalsy. unfold sendMessage. cbv zeta.
    rewrite (deliver_handler fields name handler (worker g) Hw Ha Hh), Hr.
    cbn [fst snd]. rewrite wire_truthy. cbn [truthy]. rewrite Herr, Hfalsy.
    unfold js_or. rewrite wire_truthy. reflexivity.
Qed.

(** [sendMessage] changes nothing of the page but the worker, which it
    leaves as the delivery of the message left it. *)
Lemma sendMessage_frame (message : jsval) (g : page) :
  (sendMessage message g).2 = set_worker (deliver message (worker g)).2 g.
Proof.
  unfold sendMessage. cbv zeta.
  destruct (deliver message (worker g)) as [[lastError | response] a']; cbn [fst snd];
    [reflexivity |].
  destruct (truthy response) eqn:Ht; [| now rewrite Ht].
  destruct (prop response "error") as [e | error]; [reflexivity |].
  destruct (truthy error); [destruct (ToString error) |]; reflexivity.
Qed.

(** What [sendMessage] resolves with is an object, or a value whose
    properties can be read, without a truthy [error]. *)
Lemma sendMessage_resolved (message result : jsval) (g : page) :
  (sendMessage message g).1 = Resolved result ->
  exists authenticated email error,
    prop result "authenticated" = inr authenticated /\
    prop result "email" = inr email /\
    prop result "error" = inr error /\ truthy error = false.
Proof.
  unfold sendMessage. cbv zeta.
  destruct (deliver message (worker g)) as [[lastError | response] a']; cbn [fst snd];
    [discriminate |].
  destruct (truthy response) eqn:Ht.
  - destruct (prop response "error") as [e | error] eqn:Hp; [discriminate |].
    destruct (truthy error) eqn:He; [destruct (ToString error); discriminate |].
    unfold js_or. rewrite Ht. intros H. injection H as <-.
    destruct response; try discriminate Ht; cbn [prop] in Hp |- *;
      injection Hp as <-; do 3 eexists; repeat split; try reflexivity; exact He.
  - rewrite Ht. unfold js_or. rewrite Ht. intros H. injection H as <-.
    exists JUndefined, JUndefined, JUndefined. repeat split.
Qed.

Lemma init_unfold (g : page) :
  init g
  = await (sendMessage (JObj [("action", JStr "checkAuth")]) (inViewer (showScreen Loading) g).2)
      afterInit.
Proof. reflexivity. Qed.

(** [signedIn], path by path: the conversion of the email to a text can
    throw, after the variable has been assigned. *)
Lemma signedIn_run (result email : jsval) (g : page) :
  prop result "email" = inr email ->
  signedIn result g
  = match textContent email with
    | inr shown => (inr tt, signedInAs email shown g)
    | inl e => (inl e, set_viewer (set_userEmail email) g)
    end.
Proof.
  intros He. unfold signedIn, bind, lift, modify, inViewer, showScreen. rewrite He.
  destruct (textContent email); reflexivity.
Qed.

Lemma afterInit_rejected (e : exn) (g : page) :
  afterInit (inl e) g = (inr tt, set_listening true (set_viewer (set_activeScreen Login) g)).
Proof. reflexivity. Qed.

Lemma afterInit_resolved (result authenticated email : jsval) (g : page) :
  prop result "authenticated" = inr authenticated ->
  prop result "email" = inr email ->
  afterInit (inr result) g
  = (inr tt,
     set_listening true
       (if truthy authenticated && truthy email then
          match textContent email with
          | inr shown => signedInAs email shown g
          | inl _ => set_viewer (set_activeScreen Login) (set_viewer (set_userEmail email) g)
          end
        else set_viewer (set_activeScreen Login) g)).
Proof.
  intros Ha He. unfold afterInit, bind, try_catch, lift, ret, setupEventListeners. rewrite Ha.
  destruct (truthy authenticated) eqn:Hta; cbn [andb].
  - rewrite He. destruct (truthy email) eqn:Hte.
    + rewrite (signedIn_run result email g He). destruct (textContent email); reflexivity.
    + reflexivity.
  - cbv beta iota. rewrite Hta. reflexivity.
Qed.

(** X23.  [init] sends one [checkAuth] message and never rejects.  When
    the message is rejected, or resolves with a result that is not
    authenticated or has no email, the popup shows the login screen
    with the user as before.  When it resolves with an authenticated
    result that has an email, the user of the popup is that email; the
    popup then shows the drop screen with the email as the text
    displayed, unless the email cannot be converted to a text, in which
    case it shows the login screen.  In all these cases the listeners
    are installed.  While the message does not settle the loading
    screen stays and no listener is installed.  The login form, the
    file in memory, the downloads and the tabs are not touched. *)
Theorem init_settles (g : page) :
  let asked := sendMessage (JObj [("action", JStr "checkAuth")])
                 (inViewer (showScreen Loading) g).2 in
  let out := init g in
  worker out.2 = (deliver (JObj [("action", JStr "checkAuth")]) (worker g)).2 /\
  form out.2 = form g /\ downloads out.2 = downloads g /\ tabsOpened out.2 = tabsOpened g /\
  currentSealFile (viewer out.2) = currentSealFile (viewer g) /\
  currentRawText (viewer out.2) = currentRawText (viewer g) /\
  match asked.1 with
  | Pending =>
      out.1 = Pending /\ activeScreen (viewer out.2) = Loading /\
      listening out.2 = listening g /\
      userEmail (viewer out.2) = userEmail (viewer g) /\
      userEmailDisplay out.2 = userEmailDisplay g
  | Rejected _ =>
      out.1 = Resolved tt /\ listening out.2 = true /\
      activeScreen (viewer out.2) = Login /\
      userEmail (viewer out.2) = userEmail (viewer g) /\
      userEmailDisplay out.2 = userEmailDisplay g
  | Resolved authResult =>
      out.1 = Resolved tt /\ listening out.2 = true /\
      exists authenticated email,
        prop authResult "authenticated" = inr authenticated /\
        prop authResult "email" = inr email /\
        if truthy authenticated && truthy email then
          userEmail (viewer out.2) = email /\
          match textContent email with
          | inr shown =>
              activeScreen (viewer out.2) = Drop /\ userEmailDisplay out.2 = shown
          | inl _ =>
              activeScreen (viewer out.2) = Login /\
              userEmailDisplay out.2 = userEmailDisplay g
          end
        else
          activeScreen (viewer out.2) = Login /\
          userEmail (viewer out.2) = userEmail (viewer g) /\
          userEmailDisplay out.2 = userEmailDisplay g
  end.
Proof.
  cbv zeta. rewrite init_unfold. unfold await.
  pose proof (sendMessage_frame (JObj [("action", JStr "checkAuth")])
                (inViewer (showScreen Loading) g).2) as Hframe.
  pose proof (sendMessage_resolved (JObj [("action", JStr "checkAuth")])) as Hres.
  specialize (fun r => Hres r (inViewer (showScreen Loading) g).2).
  destruct (sendMessage _ _) as [[authResult | err |] g1]; cbn [fst snd] in Hframe, Hres |- *;
    subst g1.
  - destruct (Hres authResult eq_refl) as (a & e & _ & Ha & He & _).
    rewrite (afterInit_resolved authResult a e _ Ha He). unfold outcomeOf. cbn [fst snd].
    destruct (truthy a && truthy e) eqn:Hboth.
    + destruct (textContent e) as [x | shown] eqn:Ht;
        (repeat (split; [reflexivity |])); exists a, e;
        (split; [exact Ha |]); (split; [exact He |]); rewrite Hboth, ?Ht; repeat split.
    + (repeat (split; [reflexivity |])). exists a, e.
      split; [exact Ha |]. split; [exact He |]. rewrite Hboth. repeat split.
  - rewrite afterInit_rejected. unfold outcomeOf. cbn [fst snd]. repeat split.
  - repeat split.
Qed.

Lemma strict_eq_true (a b : jsval) : strict_eq a b = true -> a = b.
Proof.
  destruct a, b; cbn [strict_eq]; try discriminate; intros H; try reflexivity.
  - apply Bool.eqb_prop in H. now subst.
  - apply Z.eqb_eq in H. now subst.
  - apply String.eqb_eq in H. now subst.
Qed.

(** [sendMessage], once the handler named by the message has answered. *)
Lemma sendMessage_answer (fields : list (string * jsval)) (name : string)
    (handler : jsval -> M agent jsval) (g : page) (answer : jsval) :
  wire (JObj fields) = JObj fields ->
  field "action" fields = JStr name ->
  messageHandlers name = Some handler ->
  (handler (JObj fields) (worker g)).1 = inr answer ->
  sendMessage (JObj fields) g
  = let g1 := set_worker (handler (JObj fields) (worker g)).2 g in
    match (if truthy answer then prop (wire answer) "error" else inr (wire answer)) with
    | inl _ => (Pending, g1)
    | inr error =>
        if truthy error then
          match ToString error with
          | inl _ => (Pending, g1)
          | inr m => (Rejected {| kind := ErrorK; message := m |}, g1)
          end
        else (Resolved (js_or (wire answer) (JObj [])), g1)
    end.
Proof.
  intros Hw Ha Hh Hanswer. unfold sendMessage. cbv zeta.
  rewrite (deliver_handler fields name handler (worker g) Hw Ha Hh), Hanswer.
  cbn [fst snd]. now rewrite wire_truthy.
Qed.

(** [init], once [checkAuth] has answered. *)
Lemma init_run (g : page) (answer : jsval) :
  (checkAuth (agentWorld (worker g))).1 = inr answer ->
  init g
  = await (let g1 := set_worker (inWorld checkAuth (worker g)).2
                       (set_viewer (set_activeScreen Loading) g) in
           match (if truthy answer then prop (wire answer) "error" else inr (wire answer)) with
           | inl _ => (Pending, g1)
           | inr error =>
               if truthy error then
                 match ToString error with
                 | inl _ => (Pending, g1)
                 | inr m => (Rejected {| kind := ErrorK; message := m |}, g1)
                 end
               else (Resolved (js_or (wire answer) (JObj [])), g1)
           end)
      afterInit.
Proof.
  intros Hanswer. rewrite init_unfold. f_equal. unfold sendMessage. cbv zeta.
  rewrite (deliver_handler [("action", JStr "checkAuth")] "checkAuth"
             (fun _ => inWorld checkAuth) _ eq_refl eq_refl eq_refl).
  cbn [fst snd].
  change (worker (inViewer (showScreen Loading) g).2) with (worker g).
  change ((inWorld checkAuth (worker g)).1) with ((checkAuth (agentWorld (worker g))).1).
  rewrite Hanswer, wire_truthy. reflexivity.
Qed.

Lemma init_worker (g : page) :
  worker (init g).2 = (inWorld checkAuth (worker g)).2.
Proof.
  assert (Hd : (deliver (JObj [("action", JStr "checkAuth")]) (worker g)).2
               = (inWorld checkAuth (worker g)).2).
  { now rewrite (deliver_handler [("action", JStr "checkAuth")] "checkAuth"
                   (fun _ => inWorld checkAuth) (worker g) eq_refl eq_refl eq_refl). }
  rewrite <- Hd. clear Hd. rewrite init_unfold. unfold await.
  pose proof (sendMessage_frame (JObj [("action", JStr "checkAuth")])
                (inViewer (showScreen Loading) g).2) as Hframe.
  pose proof (sendMessage_resolved (JObj [("action", JStr "checkAuth")])) as Hres.
  specialize (fun r => Hres r (inViewer (showScreen Loading) g).2).
  destruct (sendMessage _ _) as [[authResult | err |] g1]; cbn [fst snd] in Hframe, Hres |- *;
    subst g1; [| reflexivity | reflexivity].
  destruct (Hres authResult eq_refl) as (a & e & _ & Ha & He & _).
  rewrite (afterInit_resolved authResult a e _ Ha He). unfold outcomeOf. cbn [fst snd].
  destruct (truthy a && truthy e); [destruct (textContent e) |]; reflexivity.
Qed.

(** X24.  [init] against the worker's [checkAuth]: the worker is left
    exactly as [checkAuth] leaves it.  When the status request fails or
    is refused the popup shows the login screen, the stored credentials
    being kept in the first case and cleared in the second.  When the
    server confirms a session with an email, the user of the popup is
    that email, which is also the email the worker now has in its
    store; the popup shows the drop screen with the email as the text
    displayed, or, when the email cannot be converted to a text, the
    login screen. *)
Theorem init_follows_checkAuth (g : page) (h : option string) :
  let w := agentWorld (worker g) in
  bearer w = inr h ->
  agentWorld (worker (init g).2) = (checkAuth w).2 /\
  (forall e, fetch (statusRequest h) = inl e ->
     (init g).1 = Resolved tt /\ activeScreen (viewer (init g).2) = Login /\
     storage (agentWorld (worker (init g).2)) = storage w) /\
  (forall r, fetch (statusRequest h) = inr r -> ok r = false ->
     (init g).1 = Resolved tt /\ activeScreen (viewer (init g).2) = Login /\
     storedToken (agentWorld (worker (init g).2)) = JUndefined /\
     storedEmail (agentWorld (worker (init g).2)) = JUndefined) /\
  (forall r fields,
     fetch (statusRequest h) = inr r -> ok r = true -> json r = inr (JObj fields) ->
     wire (JObj fields) = JObj fields ->
     truthy (field "authenticated" fields) = true ->
     truthy (field "email" fields) = true ->
     truthy (field "error" fields) = false ->
     (init g).1 = Resolved tt /\
     userEmail (viewer (init g).2) = field "email" fields /\
     storedEmail (agentWorld (worker (init g).2)) = field "email" fields /\
     match textContent (field "email" fields) with
     | inr shown =>
         activeScreen (viewer (init g).2) = Drop /\ userEmailDisplay (init g).2 = shown
     | inl _ =>
         activeScreen (viewer (init g).2) = Login /\
         userEmailDisplay (init g).2 = userEmailDisplay g
     end).
Proof.
  cbv zeta. intros Hb.
  assert (Hw : agentWorld (worker (init g).2) = (checkAuth (agentWorld (worker g))).2)
    by (rewrite init_worker; reflexivity).
  split; [exact Hw |]. rewrite Hw. clear Hw.
  pose proof (checkAuth_run (agentWorld (worker g))) as Hrun. rewrite Hb in Hrun. cbv zeta in Hrun.
  split; [| split].
  - intros e Hf. rewrite Hf in Hrun.
    rewrite (init_run g (notAuthenticated e)) by (now rewrite Hrun). rewrite Hrun.
    cbn [snd]. split; [| split; [| reflexivity]].
    + unfold notAuthenticated, await. cbn [truthy wire]. rewrite prop_field.
      change (field "error" [("authenticated", JBool false); ("error", JStr (message e))])
        with (JStr (message e)).
      cbn [truthy ToString]. destruct (String.eqb (message e) ""); reflexivity.
    + unfold notAuthenticated, await. cbn [truthy wire]. rewrite prop_field.
      change (field "error" [("authenticated", JBool false); ("error", JStr (message e))])
        with (JStr (message e)).
      cbn [truthy ToString]. destruct (String.eqb (message e) ""); reflexivity.
  - intros r Hf Hok. rewrite Hf, Hok in Hrun.
    rewrite (init_run g (JObj [("authenticated", JBool false)])) by (now rewrite Hrun).
    rewrite Hrun. cbn [snd]. split; [reflexivity |]. split; [reflexivity |].
    unfold storedToken, storedEmail, withoutAuth, set_storage. cbn [storage].
    rewrite lookup_delete_eq, lookup_delete_ne, lookup_delete_eq by discriminate.
    split; reflexivity.
  - intros r fields Hf Hok Hj Hwire Ha He Herr. rewrite Hf, Hok, Hj, !prop_field, Ha, He in Hrun.
    assert (Hanswer : (checkAuth (agentWorld (worker g))).1 = inr (JObj fields)).
    { rewrite Hrun. now destruct (strict_eq _ _). }
    rewrite (init_run g (JObj fields) Hanswer). rewrite Hwire. cbn [truthy].
    rewrite prop_field, Herr. unfold js_or. cbn [truthy].
    unfold await. cbn [fst snd].
    rewrite (afterInit_resolved (JObj fields) _ _ _ (prop_field _ _) (prop_field _ _)).
    rewrite Ha, He. cbn [andb]. unfold outcomeOf. cbn [fst snd].
    assert (Hstored : storedEmail (checkAuth (agentWorld (worker g))).2 = field "email" fields).
    { rewrite Hrun. destruct (strict_eq _ _) eqn:Hs; cbn [snd].
      - apply strict_eq_true in Hs. exact Hs.
      - unfold storedEmail, withAuth, set_storage. cbn [storage].
        rewrite lookup_insert_ne, lookup_insert_eq by discriminate. reflexivity. }
    destruct (textContent (field "email" fields));
      (split; [reflexivity |]); (split; [reflexivity |]); (split; [exact Hstored |]);
      split; reflexivity.
Qed.

Lemma handleLogin_unfold (loginEmail loginPassword : string) (g : page) :
  handleLogin loginEmail loginPassword g
  = await (sendMessage (JObj (loginMessage (trim loginEmail) loginPassword)) (signingIn g))
      afterLogin.
Proof. reflexivity. Qed.

(** What the popup does with a rejection, and with a result that is
    resolved. *)
Lemma caught_login (e : exn) (q : page) :
  (do shown <- lift (textContent (js_or (JStr (message e)) (JStr msgLoginFailed)));
   modify (set_form (showLoginError shown))) q
  = (inr tt, set_form (showLoginError (loginFailure e)) q).
Proof.
  unfold bind, lift, modify, loginFailure, js_or. cbn [truthy].
  destruct (String.eqb (message e) ""); reflexivity.
Qed.

Lemma tryLogin_rejected (e : exn) (g : page) :
  tryLogin (inl e) g = (inr tt, set_form (showLoginError (loginFailure e)) g).
Proof.
  unfold tryLogin, try_catch. unfold bind at 1. unfold lift at 1. apply caught_login.
Qed.

Lemma tryLogin_resolved (result authenticated email error : jsval) (g : page) :
  prop result "authenticated" = inr authenticated ->
  prop result "email" = inr email ->
  prop result "error" = inr error ->
  tryLogin (inr result) g
  = (inr tt,
     if truthy authenticated && truthy email then
       match textContent email with
       | inr shown => signedInAs email shown g
       | inl e =>
           set_form (showLoginError (loginFailure e)) (set_viewer (set_userEmail email) g)
       end
     else
       match textContent (js_or error (JStr msgLoginFailed)) with
       | inr shown => set_form (showLoginError shown) g
       | inl e => set_form (showLoginError (loginFailure e)) g
       end).
Proof.
  intros Ha He Herr. unfold tryLogin, try_catch.
  unfold bind at 1. unfold lift at 1. unfold bind at 1. rewrite Ha. unfold lift at 1.
  destruct (truthy authenticated) eqn:Hta; cbn [andb].
  - unfold bind at 1. unfold lift at 1. rewrite He.
    destruct (truthy email) eqn:Hte.
    + rewrite (signedIn_run result email g He).
      destruct (textContent email) as [e | shown]; [apply caught_login | reflexivity].
    + unfold bind at 1. unfold lift at 1. rewrite Herr. unfold bind at 1. unfold lift at 1.
      destruct (textContent (js_or error (JStr msgLoginFailed))) as [e | shown];
        [apply caught_login | reflexivity].
  - unfold bind at 1. unfold ret. rewrite Hta.
    unfold bind at 1. unfold lift at 1. rewrite Herr. unfold bind at 1. unfold lift at 1.
    destruct (textContent (js_or error (JStr msgLoginFailed))) as [e | shown];
      [apply caught_login | reflexivity].
Qed.

Lemma afterLogin_rejected (e : exn) (g : page) :
  afterLogin (inl e) g
  = (inr tt, set_form (set_btnLoginSubmit false "Sign in")
               (set_form (showLoginError (loginFailure e)) g)).
Proof. unfold afterLogin, try_finally, modify. now rewrite tryLogin_rejected. Qed.

Lemma afterLogin_resolved (result authenticated email error : jsval) (g : page) :
  prop result "authenticated" = inr authenticated ->
  prop result "email" = inr email ->
  prop result "error" = inr error ->
  afterLogin (inr result) g
  = (inr tt,
     set_form (set_btnLoginSubmit false "Sign in")
       (if truthy authenticated && truthy email then
          match textContent email with
          | inr shown => signedInAs email shown g
          | inl e =>
              set_form (showLoginError (loginFailure e)) (set_viewer (set_userEmail email) g)
          end
        else
          match textContent (js_or error (JStr msgLoginFailed)) with
          | inr shown => set_form (showLoginError shown) g
          | inl e => set_form (showLoginError (loginFailure e)) g
          end)).
Proof.
  intros Ha He Herr. unfold afterLogin, try_finally, modify.
  now rewrite (tryLogin_resolved result authenticated email error g Ha He Herr).
Qed.

(** X25.  [handleLogin] sends one [loginWithCredentials] message, with
    the trimmed email and the password as typed, and never rejects.
    Once the message has settled the submit button is enabled again and
    reads [Sign in].  A rejection shows its message in the form (the
    login-failed text when it is empty) and leaves the viewer alone.  A
    result that is authenticated and has an email makes that email the
    user of the popup; the popup then shows the drop screen with the
    email as the text displayed and the error hidden, unless the email
    cannot be converted to a text, in which case the form shows the
    message of that failure.  Any other result shows the login-failed
    text and leaves the viewer alone.  While the message does not
    settle the button stays disabled. *)
Theorem handleLogin_settles (loginEmail loginPassword : string) (g : page) :
  let message := JObj [("action", JStr "loginWithCredentials");
                       ("email", JStr (trim loginEmail)); ("password", JStr loginPassword)] in
  let asked := sendMessage message (signingIn g) in
  let out := handleLogin loginEmail loginPassword g in
  worker out.2 = (deliver message (worker g)).2 /\
  listening out.2 = listening g /\ downloads out.2 = downloads g /\
  tabsOpened out.2 = tabsOpened g /\
  currentSealFile (viewer out.2) = currentSealFile (viewer g) /\
  currentRawText (viewer out.2) = currentRawText (viewer g) /\
  match asked.1 with
  | Pending =>
      out.1 = Pending /\
      form out.2 = set_btnLoginSubmit true "Signing in..." (hideLoginError (form g)) /\
      viewer out.2 = viewer g /\ userEmailDisplay out.2 = userEmailDisplay g
  | Rejected e =>
      out.1 = Resolved tt /\ viewer out.2 = viewer g /\
      userEmailDisplay out.2 = userEmailDisplay g /\
      form out.2 = {| loginErrorText := loginFailure e; loginErrorHidden := false;
                      btnLoginSubmitDisabled := false; btnLoginSubmitText := "Sign in" |}
  | Resolved result =>
      out.1 = Resolved tt /\
      btnLoginSubmitDisabled (form out.2) = false /\
      btnLoginSubmitText (form out.2) = "Sign in" /\
      exists authenticated email,
        prop result "authenticated" = inr authenticated /\
        prop result "email" = inr email /\
        if truthy authenticated && truthy email then
          userEmail (viewer out.2) = email /\
          match textContent email with
          | inr shown =>
              activeScreen (viewer out.2) = Drop /\ userEmailDisplay out.2 = shown /\
              loginErrorHidden (form out.2) = true /\
              loginErrorText (form out.2) = loginErrorText (form g)
          | inl e =>
              activeScreen (viewer out.2) = activeScreen (viewer g) /\
              userEmailDisplay out.2 = userEmailDisplay g /\
              loginErrorHidden (form out.2) = false /\
              loginErrorText (form out.2) = loginFailure e
          end
        else
          viewer out.2 = viewer g /\ userEmailDisplay out.2 = userEmailDisplay g /\
          loginErrorHidden (form out.2) = false /\
          loginErrorText (form out.2) = msgLoginFailed
  end.
Proof.
  cbv zeta. rewrite handleLogin_unfold. unfold await.
  change (JObj [("action", JStr "loginWithCredentials"); ("email", JStr (trim loginEmail));
                ("password", JStr loginPassword)])
    with (JObj (loginMessage (trim loginEmail) loginPassword)).
  pose proof (sendMessage_frame (JObj (loginMessage (trim loginEmail) loginPassword))
                (signingIn g)) as Hframe.
  pose proof (sendMessage_resolved (JObj (loginMessage (trim loginEmail) loginPassword)))
    as Hres.
  specialize (fun r => Hres r (signingIn g)).
  destruct (sendMessage _ _) as [[result | err |] g1]; cbn [fst snd] in Hframe, Hres |- *;
    subst g1.
  - destruct (Hres result eq_refl) as (a & e & error & Ha & He & Herr & Hfalsy).
    rewrite (afterLogin_resolved result a e error _ Ha He Herr). unfold outcomeOf, js_or.
    rewrite Hfalsy. cbn [fst snd textContent ToString].
    destruct (truthy a && truthy e) eqn:Hboth.
    + destruct (textContent e) as [x | shown] eqn:Ht;
        (repeat (split; [reflexivity |])); exists a, e;
        (split; [exact Ha |]); (split; [exact He |]); rewrite Hboth, ?Ht; repeat split.
    + (repeat (split; [reflexivity |])). exists a, e.
      split; [exact Ha |]. split; [exact He |]. rewrite Hboth. repeat split.
  - rewrite afterLogin_rejected. unfold outcomeOf. cbn [fst snd]. repeat split.
  - repeat split.
Qed.

(** A truthy value is not lost on the way. *)
Lemma wire_answer (k1 k2 : string) (v1 v2 : jsval) :
  truthy v2 = true -> wire v1 = v1 -> v1 <> JUndefined ->
  wire (JObj [(k1, v1); (k2, v2)]) = JObj [(k1, v1); (k2, wire v2)].
Proof.
  intros H2 H1 Hd. cbn [wire]. fold wire. rewrite H1.
  destruct v1; try contradiction; destruct v2; try discriminate; reflexivity.
Qed.

(** [handleLogin], once [loginWithCredentials] has answered. *)
Lemma handleLogin_run (loginEmail loginPassword : string) (g : page) (answer : jsval) :
  let request := JObj (loginMessage (trim loginEmail) loginPassword) in
  (loginWithCredentials request (agentWorld (worker g))).1 = inr answer ->
  handleLogin loginEmail loginPassword g
  = await (let g1 := set_worker (inWorld (loginWithCredentials request) (worker g)).2
                       (signingIn g) in
           match (if truthy answer then prop (wire answer) "error" else inr (wire answer)) with
           | inl _ => (Pending, g1)
           | inr error =>
               if truthy error then
                 match ToString error with
                 | inl _ => (Pending, g1)
                 | inr m => (Rejected {| kind := ErrorK; message := m |}, g1)
                 end
               else (Resolved (js_or (wire answer) (JObj [])), g1)
           end)
      afterLogin.
Proof.
  cbv zeta. intros Hanswer. rewrite handleLogin_unfold. f_equal.
  apply (sendMessage_answer (loginMessage (trim loginEmail) loginPassword)
           "loginWithCredentials" (fun request => inWorld (loginWithCredentials request))
           (signingIn g) answer eq_refl eq_refl eq_refl).
  exact Hanswer.
Qed.

(** The worker after [handleLogin] is the worker after
    [loginWithCredentials]. *)
Lemma handleLogin_worker (loginEmail loginPassword : string) (g : page) :
  agentWorld (worker (handleLogin loginEmail loginPassword g).2)
  = (loginWithCredentials (JObj (loginMessage (trim loginEmail) loginPassword))
       (agentWorld (worker g))).2.
Proof.
  rewrite handleLogin_unfold. unfold await.
  pose proof (sendMessage_frame (JObj (loginMessage (trim loginEmail) loginPassword))
                (signingIn g)) as Hframe.
  rewrite (deliver_handler (loginMessage (trim loginEmail) loginPassword)
             "loginWithCredentials" (fun request => inWorld (loginWithCredentials request))
             _ eq_refl eq_refl eq_refl) in Hframe.
  cbn [snd] in Hframe.
  pose proof (sendMessage_resolved (JObj (loginMessage (trim loginEmail) loginPassword)))
    as Hres.
  specialize (fun r => Hres r (signingIn g)).
  destruct (sendMessage _ _) as [[result | err |] g1]; cbn [fst snd] in Hframe, Hres |- *;
    subst g1.
  - destruct (Hres result eq_refl) as (a & e & error & Ha & He & Herr & _).
    rewrite (afterLogin_resolved result a e error _ Ha He Herr). unfold outcomeOf.
    cbn [fst snd].
    destruct (truthy a && truthy e); [destruct (textContent e) |
      destruct (textContent (js_or error (JStr msgLoginFailed)))]; reflexivity.
  - rewrite afterLogin_rejected. reflexivity.
  - reflexivity.
Qed.

(** X26.  [handleLogin] against the worker's [loginWithCredentials].
    With an email that trims to nothing, or without a password, the
    form shows [Email and password are required] and no request leaves
    the worker.  Otherwise exactly one login request is sent, carrying
    the trimmed email and the password as typed.  When the endpoint
    refuses, the form shows the error text of its answer ([Login
    failed] when that is empty) and the store is untouched.  When it
    accepts, the worker's store then holds the token of the answer
    under [authToken] and its email under [userEmail], nothing else
    having changed; with a truthy email the user of the popup is that
    email as it arrives, and the popup shows the drop screen with the
    email as the text displayed, or, when the email cannot be
    converted to a text, the message of that failure in the form;
    without an email the form shows the login-failed text. *)
Theorem handleLogin_against_worker (loginEmail loginPassword : string) (g : page) :
  let w := agentWorld (worker g) in
  let email := JStr (trim loginEmail) in
  let password := JStr loginPassword in
  let req := loginRequest email password in
  let out := handleLogin loginEmail loginPassword g in
  let w' := agentWorld (worker out.2) in
  (trim loginEmail = "" \/ loginPassword = "" ->
   out.1 = Resolved tt /\ worker out.2 = worker g /\ viewer out.2 = viewer g /\
   loginErrorHidden (form out.2) = false /\
   loginErrorText (form out.2) = "Email and password are required") /\
  (trim loginEmail <> "" -> loginPassword <> "" ->
   network w' = (network w ++ [req])%list /\
   (forall r data m,
      fetch req = inr r -> json r = inr data ->
      ok r = false \/ (exists a, prop data "authenticated" = inr a /\ truthy a = false) ->
      prop data "error" = inr (JStr m) ->
      out.1 = Resolved tt /\ viewer out.2 = viewer g /\
      storage w' = storage w /\
      loginErrorHidden (form out.2) = false /\
      loginErrorText (form out.2) = (if String.eqb m "" then "Login failed" else m)) /\
   (forall r data a token address,
      fetch req = inr r -> json r = inr data -> ok r = true ->
      prop data "authenticated" = inr a -> truthy a = true ->
      prop data "token" = inr token -> prop data "email" = inr address ->
      out.1 = Resolved tt /\
      storage w' !! "authToken" = written token (storage w !! "authToken") /\
      storage w' !! "userEmail" = written address (storage w !! "userEmail") /\
      (forall k : string, k <> "authToken" -> k <> "userEmail" ->
       storage w' !! k = storage w !! k) /\
      (token <> JUndefined -> address <> JUndefined ->
       w' = withAuth token address (sending req w)) /\
      if truthy address then
        userEmail (viewer out.2) = wire address /\
        match textContent (wire address) with
        | inr shown =>
            activeScreen (viewer out.2) = Drop /\ userEmailDisplay out.2 = shown /\
            loginErrorHidden (form out.2) = true
        | inl e =>
            activeScreen (viewer out.2) = activeScreen (viewer g) /\
            userEmailDisplay out.2 = userEmailDisplay g /\
            loginErrorHidden (form out.2) = false /\
            loginErrorText (form out.2) = loginFailure e
        end
      else
        viewer out.2 = viewer g /\ loginErrorHidden (form out.2) = false /\
        loginErrorText (form out.2) = msgLoginFailed)).
Proof.
  cbv zeta.
  pose proof (loginWithCredentials_run (loginMessage (trim loginEmail) loginPassword)
                (agentWorld (worker g))) as Hrun.
  cbv zeta in Hrun.
  change (field "email" (loginMessage (trim loginEmail) loginPassword))
    with (JStr (trim loginEmail)) in Hrun.
  change (field "password" (loginMessage (trim loginEmail) loginPassword))
    with (JStr loginPassword) in Hrun.
  cbn [truthy] in Hrun. rewrite !negb_involutive in Hrun.
  split.
  - intros Hempty.
    assert (Hb : String.eqb (trim loginEmail) "" || String.eqb loginPassword "" = true).
    { destruct Hempty as [-> | ->]; [reflexivity | apply orb_true_r]. }
    rewrite Hb in Hrun.
    rewrite (handleLogin_run loginEmail loginPassword g _ (f_equal fst Hrun)).
    unfold inWorld. rewrite Hrun. cbn [fst snd truthy wire]. rewrite prop_field.
    change (field "error" [("authenticated", JBool false);
                           ("error", JStr "Email and password are required")])
      with (JStr "Email and password are required").
    cbn [truthy String.eqb Ascii.eqb Bool.eqb negb ToString]. unfold await. cbn [fst snd].
    rewrite afterLogin_rejected. unfold outcomeOf. cbn [fst snd].
    repeat apply conj; try reflexivity. now destruct (worker g).
  - intros He Hp.
    assert (Hb : String.eqb (trim loginEmail) "" || String.eqb loginPassword "" = false).
    { apply String.eqb_neq in He, Hp. now rewrite He, Hp. }
    rewrite Hb in Hrun.
    set (req := loginRequest (JStr (trim loginEmail)) (JStr loginPassword)) in *.
    rewrite handleLogin_worker.
    split; [| split].
    + rewrite Hrun.
      destruct (fetch req) as [e | r]; [reflexivity |].
      destruct (json r) as [e | data]; [reflexivity |].
      destruct (if ok r then _ else _) as [e | [|]]; [reflexivity | |].
      * destruct (prop data "error"); reflexivity.
      * destruct (prop data "token"); [reflexivity |].
        destruct (prop data "email"); [reflexivity |].
        apply (storeAuth_lookup _ _ (sending req (agentWorld (worker g)))).
    + intros r data m Hf Hj Hrefused Herr. rewrite Hf, Hj in Hrun.
      assert (Hfailed : (if ok r
                         then and_then (prop data "authenticated")
                                (fun a => inr (negb (truthy a)))
                         else inr true) = inr true).
      { destruct Hrefused as [-> | (a & Ha & Hfalsy)]; [reflexivity |].
        destruct (ok r); [| reflexivity]. rewrite Ha. cbn [and_then]. now rewrite Hfalsy. }
      rewrite Hfailed, Herr in Hrun.
      rewrite Hrun.
      rewrite (handleLogin_run loginEmail loginPassword g _ (f_equal fst Hrun)).
      unfold inWorld. rewrite Hrun. cbn [fst snd].
      assert (Htext : js_or (JStr m) (JStr "Login failed")
                      = JStr (if String.eqb m "" then "Login failed" else m)).
      { unfold js_or. cbn [truthy]. now destruct (String.eqb m ""). }
      rewrite Htext.
      set (text := if String.eqb m "" then "Login failed" else m).
      assert (Hne : String.eqb text "" = false).
      { unfold text. destruct (String.eqb m "") eqn:E; [reflexivity | exact E]. }
      cbn [truthy wire]. rewrite prop_field.
      change (field "error" [("authenticated", JBool false); ("error", JStr text)])
        with (JStr text).
      cbn [truthy ToString]. rewrite Hne. cbn [negb]. unfold await. cbn [fst snd].
      rewrite afterLogin_rejected. unfold outcomeOf, loginFailure. cbn [fst snd message].
      rewrite Hne. repeat apply conj; reflexivity.
    + intros r data a token address Hf Hj Hok Ha Htruthy Htoken Haddress.
      rewrite Hf, Hj, Hok, Ha in Hrun. cbn [and_then] in Hrun.
      rewrite Htruthy in Hrun. cbn [negb] in Hrun. rewrite Htoken, Haddress in Hrun.
      rewrite Hrun.
      rewrite (handleLogin_run loginEmail loginPassword g _ (f_equal fst Hrun)).
      unfold inWorld. rewrite Hrun. cbn [fst snd].
      destruct (storeAuth_lookup token address (sending req (agentWorld (worker g))))
        as (Hst & Hse & Hsk & _).
      assert (Hdefined : token <> JUndefined -> address <> JUndefined ->
                (storeAuth token address (sending req (agentWorld (worker g)))).2
                = withAuth token address (sending req (agentWorld (worker g)))).
      { intros Hdt Hda. now rewrite storeAuth_run by assumption. }
      destruct (truthy address) eqn:Haddr.
      * rewrite (wire_answer "authenticated" "email" (JBool true) address Haddr eq_refl)
          by discriminate.
        cbn [truthy]. rewrite prop_field.
        change (field "error" [("authenticated", JBool true); ("email", wire address)])
          with JUndefined.
        cbn [truthy]. unfold js_or. cbn [truthy]. unfold await. cbn [fst snd].
        rewrite (afterLogin_resolved _ _ _ _ _ (prop_field _ _) (prop_field _ _)
                   (prop_field _ _)).
        change (field "authenticated" [("authenticated", JBool true); ("email", wire address)])
          with (JBool true).
        change (field "email" [("authenticated", JBool true); ("email", wire address)])
          with (wire address).
        rewrite wire_truthy, Haddr. cbn [truthy andb]. unfold outcomeOf. cbn [fst snd].
        destruct (textContent (wire address));
          (split; [reflexivity |]); (split; [exact Hst |]); (split; [exact Hse |]);
          (split; [exact Hsk |]); (split; [exact Hdefined |]); repeat split.
      * assert (Hwire : exists rest,
                  wire (JObj [("authenticated", JBool true); ("email", address)])
                  = JObj (("authenticated", JBool true) :: rest)
                  /\ truthy (field "email" (("authenticated", JBool true) :: rest)) = false
                  /\ field "error" (("authenticated", JBool true) :: rest) = JUndefined).
        { destruct address as [| | [|] | n | s | l | o]; try discriminate Haddr;
            eexists; (split; [reflexivity |]); split; try reflexivity; exact Haddr. }
        destruct Hwire as (rest & -> & Hfalsy & Hnone).
        cbn [truthy]. rewrite prop_field, Hnone. cbn [truthy]. unfold js_or. cbn [truthy].
        unfold await. cbn [fst snd].
        rewrite (afterLogin_resolved _ _ _ _ _ (prop_field _ _) (prop_field _ _)
                   (prop_field _ _)).
        rewrite Hfalsy, Hnone, andb_false_r. unfold js_or. cbn [truthy textContent ToString].
        unfold outcomeOf. cbn [fst snd].
        split; [reflexivity |]. split; [exact Hst |]. split; [exact Hse |].
        split; [exact Hsk |]. split; [exact Hdefined |]. repeat split.
Qed.

(** X27.  [handleLogout] against the worker's [logout]: it always
    settles, and afterwards both sides are signed out.  The popup has
    no user and no file in memory and shows the login screen; the
    worker holds neither the token nor the email, its other stored
    items are untouched and it has sent nothing; [authHeaders] then
    attaches no header and [getStoredEmail] answers [null]. *)
Theorem handleLogout_clears (g : page) :
  let out := handleLogout g in
  let w := agentWorld (worker g) in
  let w' := agentWorld (worker out.2) in
  out.1 = Resolved tt /\
  userEmail (viewer out.2) = JNull /\ currentSealFile (viewer out.2) = JNull /\
  currentRawText (viewer out.2) = None /\ activeScreen (viewer out.2) = Login /\
  w' = withoutAuth w /\ network w' = network w /\
  storage w' !! "authToken" = None /\ storage w' !! "userEmail" = None /\
  (forall k, k <> "authToken" -> k <> "userEmail" -> storage w' !! k = storage w !! k) /\
  bearer w' = inr None /\
  getStoredEmail w' = (inr (JObj [("email", JNull)]), w') /\
  form out.2 = form g /\ downloads out.2 = downloads g /\ tabsOpened out.2 = tabsOpened g.
Proof.
  cbv zeta.
  assert (Hanswer : (inWorld logout (worker g)).1 = inr (JObj [("success", JBool true)])).
  { unfold inWorld, logout, bind, ret. cbn [fst]. now rewrite clearAuth_run. }
  assert (Hstate : agentWorld (inWorld logout (worker g)).2 = withoutAuth (agentWorld (worker g))).
  { unfold inWorld, logout, bind, ret. cbn [snd agentWorld]. now rewrite clearAuth_run. }
  unfold handleLogout.
  rewrite (sendMessage_answer [("action", JStr "logout")] "logout" (fun _ => inWorld logout)
             g _ eq_refl eq_refl eq_refl Hanswer).
  cbv zeta. cbn [truthy wire]. rewrite prop_field.
  change (field "error" [("success", JBool true)]) with JUndefined.
  cbn [truthy]. unfold js_or. cbn [truthy]. unfold await. cbn [fst snd].
  unfold outcomeOf, bind, modify, inViewer, showScreen. cbn [fst snd].
  cbn [viewer set_viewer worker set_worker form downloads tabsOpened userEmail set_userEmail
       set_currentFile set_activeScreen currentSealFile currentRawText activeScreen].
  rewrite Hstate.
  assert (Htoken : storage (withoutAuth (agentWorld (worker g))) !! "authToken" = None).
  { unfold withoutAuth, set_storage. cbn [storage]. apply lookup_delete_eq. }
  assert (Hemail : storage (withoutAuth (agentWorld (worker g))) !! "userEmail" = None).
  { unfold withoutAuth, set_storage. cbn [storage].
    rewrite lookup_delete_ne by discriminate. apply lookup_delete_eq. }
  repeat apply conj; try reflexivity; try assumption.
  - intros k H1 H2. unfold withoutAuth, set_storage. cbn [storage].
    rewrite !lookup_delete_ne by congruence. reflexivity.
  - unfold bearer, storedToken. now rewrite Htoken.
  - rewrite getStoredEmail_run. unfold storedEmail. now rewrite Hemail.
Qed.

(** ** Opening the viewer *)

(** [metadata?.originalName] is the name [displayFileInfo] reads as
    [(metadata || {}).originalName]. *)
Lemma optional_originalName (fields : list (string * jsval)) :
  match field "metadata" fields with
  | JUndefined | JNull => inr JUndefined
  | _ => prop (field "metadata" fields) "originalName"
  end = inr (metaField "originalName" fields).
Proof.
  unfold metaField, js_or.
  destruct (field "metadata" fields) as [| | [|] | n | s | l | o]; cbn; try reflexivity.
  - now destruct (n =? 0).
  - now destruct (String.eqb s "").
Qed.

(** A file that passes the five checks is in memory afterwards. *)
Lemma handleFile_accepts (f : file) (p : popup) (t : string) (fields : list (string * jsval)) :
  endsWith (name f) ".seal" = true -> size f <= sizeLimit ->
  text f = inr t -> startsWith t "{" = true -> JSON_parse t = inr (JObj fields) ->
  truthy (field "version" fields) = true -> truthy (field "fileId" fields) = true ->
  truthy (field "payload" fields) = true ->
  currentSealFile (handleFile f p).2 = JObj fields /\
  currentRawText (handleFile f p).2 = Some t.
Proof.
  intros Hext Hsize Htext Hbrace Hparse Hv Hf Hp.
  unfold handleFile. rewrite Hext, (size_guard_passes _ Hsize). step.
  unfold try_catch, bind, modify, lift. rewrite Htext, Hbrace. step.
  unfold parseJSON. rewrite Hparse, !prop_field, Hv, Hf, Hp. step.
  pose proof (displayFileInfo_frame (JObj fields) (size f)
                (set_currentFile (JObj fields) (Some t)
                   (log_call (JSONParse t) (log_call FileText p)))) as Hd.
  cbv zeta in Hd.
  destruct (displayFileInfo _ _ _) as [[e | []] q'];
    cbn [fst snd] in Hd; destruct Hd as (_ & _ & Hfile & Hraw & _ & _).
  - destruct (kind e); cbn; rewrite Hfile, Hraw; split; reflexivity.
  - cbn [snd]. rewrite Hfile, Hraw. split; reflexivity.
Qed.

(** X28.  [openInViewer] downloads what was dropped.  After a file has
    passed the five checks of [handleFile], it starts one download
    whose content is the text read from the file, unchanged, under the
    original name of the envelope ([file] when it has none) followed by
    [.seal], and then opens the viewer in a new tab; the popup and the
    worker are not changed.  With no file in memory, as at the start
    and after a back button, it does nothing. *)
Theorem openInViewer_downloads_the_dropped_file (f : file) (g : page) (t : string)
    (fields : list (string * jsval)) (base : string) :
  endsWith (name f) ".seal" = true -> size f <= sizeLimit ->
  text f = inr t -> startsWith t "{" = true -> JSON_parse t = inr (JObj fields) ->
  truthy (field "version" fields) = true -> truthy (field "fileId" fields) = true ->
  truthy (field "payload" fields) = true ->
  ToString (js_or (metaField "originalName" fields) (JStr "file")) = inr base ->
  let dropped := (inViewer (handleFile f) g).2 in
  let back := (inViewer backToDrop dropped).2 in
  openInViewer dropped
  = (inr tt, set_tabsOpened (tabsOpened g ++ ["https://seal.email/viewer"])
               (set_downloads (downloads g ++ [(t, base ++ ".seal")]) dropped)) /\
  openInViewer back = (inr tt, back) /\
  (truthy (currentSealFile (viewer g)) = false -> openInViewer g = (inr tt, g)).
Proof.
  intros Hext Hsize Htext Hbrace Hparse Hv Hf Hp Hbase. cbv zeta.
  destruct (handleFile_accepts f (viewer g) t fields Hext Hsize Htext Hbrace Hparse Hv Hf Hp)
    as [Hfile Hraw].
  split; [| split].
  - unfold openInViewer, bind, gets, lift, modify, ret.
    cbv beta iota.
    change (viewer (inViewer (handleFile f) g).2) with (handleFile f (viewer g)).2.
    rewrite Hfile. cbn [truthy negb]. cbv beta iota.
    change (viewer (inViewer (handleFile f) g).2) with (handleFile f (viewer g)).2.
    rewrite Hraw, prop_field, optional_originalName, Hbase.
    reflexivity.
  - unfold openInViewer, bind, gets, ret. reflexivity.
  - intros Hnone. unfold openInViewer, bind, gets, ret. now rewrite Hnone.
Qed.

(** ** The description on the info screen *)

Lemma formatFileSize_in_range (bytes : Z) :
  0 <= bytes < 2 ^ 53 ->
  Integer.formatFileSize bytes
  = Some (if bytes <? 1024 then numberText bytes ++ " B"
          else if bytes <? 1024 * 1024 then Integer.toFixed1 bytes 1024 ++ " KB"
          else Integer.toFixed1 bytes (1024 * 1024) ++ " MB").
Proof.
  intros [H0 H1]. unfold Integer.formatFileSize.
  destruct (Z.leb_spec 0 bytes); [| lia]. destruct (Z.ltb_spec bytes (2 ^ 53)); [| lia].
  reflexivity.
Qed.

(** X29.  For a number of bytes that is a non-negative integer below
    [2 ^ 53], [formatFileSize] switches units on the number of bytes,
    not on the rounded figure.  Under 1024 bytes it shows the bytes
    themselves; from there on it shows the nearest tenth of a kibibyte
    (under 1 MiB) or of a mebibyte, the larger tenth on a tie, which is
    never less than [1.0]; so the last 51 sizes under 1 MiB read
    [1024.0 KB]. *)
Theorem formatFileSize_rounds (bytes : Z) :
  0 <= bytes < 2 ^ 53 ->
  (bytes < 1024 -> Integer.formatFileSize bytes = Some (numberText bytes ++ " B")) /\
  (1024 <= bytes ->
   let size := if bytes <? 1024 * 1024 then 1024 else 1024 * 1024 in
   let unit := if bytes <? 1024 * 1024 then " KB" else " MB" in
   exists n,
     Integer.formatFileSize bytes
     = Some ((numberText (n / 10) ++ "." ++ numberText (n mod 10)) ++ unit) /\
     - size <= 2 * (10 * bytes - size * n) < size /\
     10 <= n /\ 0 <= n mod 10 <= 9) /\
  (1048525 <= bytes < 1048576 -> Integer.formatFileSize bytes = Some "1024.0 KB").
Proof.
  intros Hrange. rewrite (formatFileSize_in_range bytes Hrange).
  split; [| split].
  - intros H. destruct (Z.ltb_spec bytes 1024); [reflexivity | lia].
  - intros H. cbv zeta. unfold Integer.toFixed1.
    destruct (Z.ltb_spec bytes 1024); [lia |].
    destruct (Z.ltb_spec bytes (1024 * 1024)).
    + exists ((20 * bytes + 1024) / (2 * 1024)). split; [reflexivity |].
      pose proof (Z.div_mod (20 * bytes + 1024) (2 * 1024) ltac:(lia)) as Hd.
      pose proof (Z.mod_pos_bound (20 * bytes + 1024) (2 * 1024) ltac:(lia)) as Hm.
      pose proof (Z.mod_pos_bound ((20 * bytes + 1024) / (2 * 1024)) 10 ltac:(lia)) as Ht.
      split; [lia |]. split; [| lia].
      apply Z.div_le_lower_bound; lia.
    + exists ((20 * bytes + 1024 * 1024) / (2 * (1024 * 1024))). split; [reflexivity |].
      pose proof (Z.div_mod (20 * bytes + 1024 * 1024) (2 * (1024 * 1024)) ltac:(lia)) as Hd.
      pose proof (Z.mod_pos_bound (20 * bytes + 1024 * 1024) (2 * (1024 * 1024)) ltac:(lia))
        as Hm.
      pose proof (Z.mod_pos_bound ((20 * bytes + 1024 * 1024) / (2 * (1024 * 1024))) 10
                    ltac:(lia)) as Ht.
      split; [lia |]. split; [| lia].
      apply Z.div_le_lower_bound; lia.
  - intros H. unfold Integer.toFixed1.
    destruct (Z.ltb_spec bytes 1024); [lia |].
    destruct (Z.ltb_spec bytes (1024 * 1024)); [| lia].
    assert (Hn : (20 * bytes + 1024) / (2 * 1024) = 10240).
    { symmetry. apply (Z.div_unique _ _ _ (20 * bytes + 1024 - 2 * 1024 * 10240)); lia. }
    cbv zeta. rewrite Hn. reflexivity.
Qed.

(** What a completed [displayFileInfo] has written to describe the
    file. *)
Lemma displayFileInfo_describes (fields : list (string * jsval)) (fileSize : Z)
    (p p' : popup) :
  displayFileInfo (JObj fields) fileSize p = (inr tt, p') ->
  ToString (js_or (metaField "originalName" fields) (JStr "Unknown file"))
  = inr (infoFilename p') /\
  formatFileSize (js_or (metaField "originalSize" fields) (JNum fileSize)) = inr (infoSize p') /\
  (if truthy (metaField "encryptedAt" fields)
   then exists d, Date_value (metaField "encryptedAt" fields) = inr d /\
                  infoDate p' = toLocaleDateString d
   else infoDate p' = "Unknown") /\
  (truthy (field "recipients" fields) = false -> infoRecipients p' = "Unknown").
Proof.
  unfold displayFileInfo. unfold bind, lift, modify, gets, ret, showScreen.
  rewrite prop_field. cbv zeta. rewrite !prop_meta, !prop_field.
  destruct (ToString _) as [e | filenameText]; [discriminate |].
  destruct (formatFileSize _) as [e | sizeText]; [discriminate |].
  destruct (truthy (metaField "encryptedAt" fields));
    [destruct (Date_value (metaField "encryptedAt" fields)) as [e | d0]; [discriminate |] |];
  (destruct (truthy (metaField "expiresAt" fields));
    [destruct (Date_value (metaField "expiresAt" fields)) as [e | d]; [discriminate |] |]);
  (destruct (truthy (field "recipients" fields));
    [destruct (prop (field "recipients" fields) "length") as [e | len]; [discriminate |];
     destruct (js_gt0 len) as [e | [|]]; [discriminate | |];
     [destruct (mapEmails (field "recipients" fields)) as [e | emails]; [discriminate |];
      destruct (recipientsText emails) as [e | shown]; [discriminate |];
      destruct (join emails ", ") as [e | title]; [discriminate |] |] |]);
  cbn [userEmail set_infoSize set_infoFilename set_infoDate set_infoExpires set_infoRecipients
       set_infoRecipientsTitle];
  (destruct (truthy (userEmail p)); cbn [andb];
    [try (destruct (someRecipient (field "recipients" fields) (userEmail p)) as [e | access];
          [discriminate |]) |]);
  try (destruct (before d now)); try destruct access; step; unfold modify;
  intros H; injection H as <-;
  (split; [reflexivity |]); (split; [reflexivity |]);
  (split; [first [reflexivity | eexists; split; reflexivity] |]);
  first [discriminate | reflexivity].
Qed.

(** X30.  What the info screen says about a dropped file.  The name is
    the original name of the envelope, [Unknown file] when it has none.
    The size is that of the original file when the envelope records a
    non-zero one, and otherwise the size of the [.seal] file itself;
    where the platform formats integers as [formatFileSize] does, it
    is shown in bytes, kibibytes or mebibytes.  The date is [Unknown]
    without an [encryptedAt], and the recipients are [Unknown] without
    a list. *)
Theorem info_screen_describes_the_file (f : file) (p : popup) (t : string)
    (fields : list (string * jsval)) :
  endsWith (name f) ".seal" = true -> size f <= sizeLimit ->
  text f = inr t -> startsWith t "{" = true -> JSON_parse t = inr (JObj fields) ->
  truthy (field "version" fields) = true -> truthy (field "fileId" fields) = true ->
  truthy (field "payload" fields) = true ->
  activeScreen (handleFile f p).2 = Info ->
  let shown := (handleFile f p).2 in
  ToString (js_or (metaField "originalName" fields) (JStr "Unknown file"))
  = inr (infoFilename shown) /\
  formatFileSize (js_or (metaField "originalSize" fields) (JNum (size f)))
  = inr (infoSize shown) /\
  (formatsIntegers ->
   (forall n, metaField "originalSize" fields = JNum n -> 0 < n < 2 ^ 53 ->
    Integer.formatFileSize n = Some (infoSize shown)) /\
   (truthy (metaField "originalSize" fields) = false -> 0 <= size f ->
    Integer.formatFileSize (size f) = Some (infoSize shown))) /\
  (truthy (metaField "encryptedAt" fields) = false -> infoDate shown = "Unknown") /\
  (truthy (field "recipients" fields) = false -> infoRecipients shown = "Unknown").
Proof.
  intros Hext Hsize Htext Hbrace Hparse Hv Hf Hp. cbv zeta.
  unfold handleFile. rewrite Hext, (size_guard_passes _ Hsize). step.
  unfold try_catch, bind, modify, lift. rewrite Htext, Hbrace. step.
  unfold parseJSON. rewrite Hparse, !prop_field, Hv, Hf, Hp. step.
  destruct (displayFileInfo _ _ _) as [[e | []] p'] eqn:Hd.
  { intros Hinfo. exfalso. destruct (kind e); discriminate Hinfo. }
  intros _. cbn [snd].
  destruct (displayFileInfo_describes _ _ _ _ Hd) as (Hname & Hshown & Hdate & Hrecipients).
  split; [exact Hname |]. split; [exact Hshown |]. split; [| split].
  - intros Hformat. split.
    + intros n Hn Hrange. rewrite Hn in Hshown. unfold js_or in Hshown. cbn [truthy] in Hshown.
      destruct (Z.eqb_spec n 0) as [E | _]; [lia |]. cbn [negb] in Hshown.
      rewrite (formatFileSize_in_range n) by lia.
      rewrite (Hformat n _ (formatFileSize_in_range n ltac:(lia))) in Hshown.
      now injection Hshown as <-.
    + intros Hfalsy Hpos. unfold js_or in Hshown. rewrite Hfalsy in Hshown.
      assert (Hrange : 0 <= size f < 2 ^ 53) by (unfold sizeLimit in Hsize; lia).
      rewrite (formatFileSize_in_range _ Hrange).
      rewrite (Hformat _ _ (formatFileSize_in_range _ Hrange)) in Hshown.
      now injection Hshown as <-.
  - intros Hnone. now rewrite Hnone in Hdate.
  - exact Hrecipients.
Qed.

End Seal.

(** ** The scripts on the sample platform *)

Local Abbreviation sample_onMessageExternal :=
  (onMessageExternal Sample.engineText Sample.URL_origin Sample.manifest_version).
Local Abbreviation sample_senderOrigin := (senderOrigin Sample.engineText Sample.URL_origin).
Local Abbreviation sample_checkAuth :=
  (checkAuth Sample.engineText Sample.ToString_other Sample.fetch).
Local Abbreviation sample_authHeaders := (authHeaders Sample.engineText Sample.ToString_other).
Local Abbreviation sample_getStoredEmail := (getStoredEmail Sample.engineText).
Local Abbreviation sample_fetchPublicKey :=
  (fetchPublicKey Sample.engineText Sample.ToString_other Sample.encodeURIComponent Sample.fetch).
Local Abbreviation sample_loginWithCredentials :=
  (loginWithCredentials Sample.engineText Sample.fetch).
Local Abbreviation sample_displayFileInfo :=
  (displayFileInfo Sample.engineText Sample.ToString_other Sample.Date_value Sample.now
     Sample.toLocaleDateString Sample.toLowerCase Sample.gt0_other Sample.formatFileSize).
Local Abbreviation sample_handleFile :=
  (handleFile Sample.engineText Sample.ToString_other Sample.JSON_parse Sample.Date_value
     Sample.now Sample.toLocaleDateString Sample.toLowerCase Sample.gt0_other
     Sample.formatFileSize).

Lemma seal_origin_allowed : In "https://seal.email" allowedOrigins.
Proof. now left. Qed.

Lemma evil_origin_refused : ~ In "https://evil.example" allowedOrigins.
Proof. intros [H | [H | []]]; discriminate. Qed.

(** A handoff from a page of another site: refused, store untouched. *)
Lemma external_origin_gate_witness :
  sample_senderOrigin Sample.evilSender = inr "https://evil.example" /\
  ~ In "https://evil.example" allowedOrigins /\
  sample_onMessageExternal (JObj (Sample.handoff (JStr "stolen") (JStr "m@evil.example")))
    Sample.evilSender Sample.emptyWorld
  = (inr {| sent := JObj [("error", JStr "Unauthorized origin")]; keepOpen := false |},
     Sample.emptyWorld).
Proof.
  split; [reflexivity |]. split; [exact evil_origin_refused |].
  apply (external_origin_gate Sample.engineText Sample.URL_origin Sample.manifest_version
           _ Sample.evilSender Sample.emptyWorld "https://evil.example");
    [reflexivity | exact evil_origin_refused].
Defined.

(** C2 as stated fails: a handoff from the production site in which the
    token field is present but empty is answered with the missing-field
    error and is not stored. *)
Lemma handoff_empty_token_rejected :
  let fields := Sample.handoff (JStr "") (JStr "u@x.com") in
  sample_senderOrigin Sample.sealSender = inr "https://seal.email" /\
  In "https://seal.email" allowedOrigins /\
  assoc "token" fields = Some (JStr "") /\
  assoc "email" fields = Some (JStr "u@x.com") /\
  sample_onMessageExternal (JObj fields) Sample.sealSender Sample.emptyWorld
  = (inr {| sent := JObj [("error", JStr "Missing token or email")]; keepOpen := true |},
     Sample.emptyWorld) /\
  (sample_onMessageExternal (JObj fields) Sample.sealSender Sample.emptyWorld).1
  <> inr {| sent := JObj [("success", JBool true)]; keepOpen := true |} /\
  storage (sample_onMessageExternal (JObj fields) Sample.sealSender Sample.emptyWorld).2
    !! "authToken" = None.
Proof.
  cbv zeta. split; [reflexivity |]. split; [exact seal_origin_allowed |].
  split; [reflexivity |]. split; [reflexivity |]. split; [reflexivity |].
  split; [| reflexivity].
  change ((sample_onMessageExternal
             (JObj (Sample.handoff (JStr "") (JStr "u@x.com"))) Sample.sealSender
             Sample.emptyWorld).1)
    with (@inr exn reply {| sent := JObj [("error", JStr "Missing token or email")];
                            keepOpen := true |}).
  discriminate.
Qed.

Lemma handoff_truthy_pair_witness :
  let fields := Sample.handoff (JStr "tok") (JStr "u@x.com") in
  sample_senderOrigin Sample.sealSender = inr "https://seal.email" /\
  In "https://seal.email" allowedOrigins /\
  field "type" fields = JStr "SEAL_AUTH_TOKEN" /\
  truthy (field "token" fields) = true /\
  truthy (field "email" fields) = true /\
  sample_onMessageExternal (JObj fields) Sample.sealSender Sample.emptyWorld
  = (inr {| sent := JObj [("success", JBool true)]; keepOpen := true |},
     withAuth (JStr "tok") (JStr "u@x.com") Sample.emptyWorld).
Proof.
  cbv zeta. split; [reflexivity |]. split; [exact seal_origin_allowed |].
  split; [reflexivity |]. split; [reflexivity |]. split; [reflexivity |].
  apply (handoff_truthy_pair Sample.engineText Sample.URL_origin Sample.manifest_version
           (Sample.handoff (JStr "tok") (JStr "u@x.com")) Sample.sealSender Sample.emptyWorld
           "https://seal.email" eq_refl seal_origin_allowed eq_refl); reflexivity.
Defined.




(** C4 as stated fails: with no token stored, the token field after the
    reconciliation is the empty string, not the absent field it was. *)
Lemma reconciliation_writes_empty_token :
  storage Sample.emptyWorld !! "authToken" = None /\
  (sample_checkAuth Sample.emptyWorld).1
  = inr (JObj [("authenticated", JBool true); ("email", JStr "u@x.com")]) /\
  storage (sample_checkAuth Sample.emptyWorld).2 !! "authToken" = Some (JStr "") /\
  storage (sample_checkAuth Sample.emptyWorld).2 !! "authToken"
  <> storage Sample.emptyWorld !! "authToken".
Proof.
  split; [reflexivity |]. split; [reflexivity |]. split; [reflexivity |].
  change (storage (sample_checkAuth Sample.emptyWorld).2 !! "authToken") with (Some (JStr "")).
  change (storage Sample.emptyWorld !! "authToken") with (@None jsval).
  discriminate.
Qed.

(** A signed-in store whose cached email is stale: the email is
    refreshed, the token stays. *)
Lemma checkAuth_reconciles_email_witness :
  let data := JObj [("authenticated", JBool true); ("email", JStr "u@x.com")] in
  bearer Sample.ToString_other Sample.signedInWorld = inr (Some "Bearer tok") /\
  Sample.fetch (statusRequest (Some "Bearer tok")) = inr {| status := 200; json := inr data |} /\
  strict_eq (storedEmail Sample.signedInWorld) (JStr "u@x.com") = false /\
  (sample_checkAuth Sample.signedInWorld).1 = inr data /\
  storage (sample_checkAuth Sample.signedInWorld).2 !! "userEmail" = Some (JStr "u@x.com") /\
  storage (sample_checkAuth Sample.signedInWorld).2 !! "authToken"
  = storage Sample.signedInWorld !! "authToken".
Proof.
  cbv zeta. split; [reflexivity |]. split; [reflexivity |]. split; [reflexivity |].
  destruct (checkAuth_reconciles_email Sample.engineText Sample.ToString_other Sample.fetch
              Sample.signedInWorld (Some "Bearer tok")
              {| status := 200;
                 json := inr (JObj [("authenticated", JBool true); ("email", JStr "u@x.com")]) |}
              (JObj [("authenticated", JBool true); ("email", JStr "u@x.com")])
              (JBool true) (JStr "u@x.com")
              eq_refl eq_refl eq_refl eq_refl eq_refl eq_refl eq_refl eq_refl eq_refl)
    as (H1 & H2 & H3 & _).
  split; [exact H1 |]. split; [exact H2 |]. apply H3. reflexivity.
Defined.

(** Key lookups for [missing@x] (404) and [broken@x] (500). *)
Lemma fetchPublicKey_not_found_or_error_witness :
  bearer Sample.ToString_other Sample.emptyWorld = inr None /\
  (exists r, Sample.fetch (keyRequest Sample.encodeURIComponent "missing@x" None) = inr r /\
             status r = 404) /\
  (exists r, Sample.fetch (keyRequest Sample.encodeURIComponent "broken@x" None) = inr r /\
             ok r = false /\ status r <> 404) /\
  (sample_fetchPublicKey "missing@x" Sample.emptyWorld).1
  = inr (JObj [("found", JBool false); ("email", JStr "missing@x")]) /\
  (sample_fetchPublicKey "broken@x" Sample.emptyWorld).1
  = inr (JObj [("found", JBool false); ("email", JStr "broken@x");
               ("error", JStr "Failed to fetch key for broken@x")]).
Proof.
  split; [reflexivity |].
  split; [eexists; split; reflexivity |].
  split; [eexists; split; [reflexivity | split; [reflexivity | discriminate]] |].
  split.
  - destruct (fetchPublicKey_not_found_or_error Sample.engineText Sample.ToString_other
                Sample.encodeURIComponent Sample.fetch "missing@x" Sample.emptyWorld None
                {| status := 404; json := inr (JObj [("error", JStr "Not found")]) |}
                eq_refl eq_refl) as [H _].
    now rewrite (H eq_refl).
  - destruct (fetchPublicKey_not_found_or_error Sample.engineText Sample.ToString_other
                Sample.encodeURIComponent Sample.fetch "broken@x" Sample.emptyWorld None
                {| status := 500; json := inr (JObj [("error", JStr "Internal server error")]) |}
                eq_refl eq_refl) as [_ H].
    rewrite (H eq_refl); [reflexivity | discriminate].
Defined.

(** [loginWithCredentials] with an empty email, with the known login,
    and with a wrong password. *)
Lemma loginWithCredentials_outcomes_witness :
  sample_loginWithCredentials (JObj [("email", JStr ""); ("password", JStr "pw")])
    Sample.emptyWorld
  = (inr (JObj [("authenticated", JBool false);
                ("error", JStr "Email and password are required")]), Sample.emptyWorld) /\
  (sample_loginWithCredentials (JObj [("email", JStr "u@x.com"); ("password", JStr "pw")])
     Sample.emptyWorld).1
  = inr (JObj [("authenticated", JBool true); ("email", JStr "u@x.com")]) /\
  storage (sample_loginWithCredentials (JObj [("email", JStr "u@x.com"); ("password", JStr "pw")])
             Sample.emptyWorld).2
  = <["authToken" := JStr "tok"]> (<["userEmail" := JStr "u@x.com"]> ∅) /\
  (sample_loginWithCredentials (JObj [("email", JStr "u@x.com"); ("password", JStr "no")])
     Sample.emptyWorld).1
  = inr (JObj [("authenticated", JBool false); ("error", JStr "Invalid email or password")]).
Proof.
  split.
  - destruct (loginWithCredentials_outcomes Sample.engineText Sample.fetch
                [("email", JStr ""); ("password", JStr "pw")] Sample.emptyWorld) as [H _].
    apply H. right. right. left. reflexivity.
  - split; [| split].
    + destruct (loginWithCredentials_outcomes Sample.engineText Sample.fetch
                  [("email", JStr "u@x.com"); ("password", JStr "pw")] Sample.emptyWorld)
        as (_ & H & _).
      destruct (H eq_refl eq_refl _ _ (JBool true) (JStr "tok") (JStr "u@x.com")
                  eq_refl eq_refl eq_refl eq_refl eq_refl eq_refl eq_refl) as (H1 & _).
      exact H1.
    + destruct (loginWithCredentials_outcomes Sample.engineText Sample.fetch
                  [("email", JStr "u@x.com"); ("password", JStr "pw")] Sample.emptyWorld)
        as (_ & H & _).
      destruct (H eq_refl eq_refl _ _ (JBool true) (JStr "tok") (JStr "u@x.com")
                  eq_refl eq_refl eq_refl eq_refl eq_refl eq_refl eq_refl)
        as (_ & _ & _ & _ & _ & K).
      assert (Ht : JStr "tok" <> JUndefined) by discriminate.
      assert (He : JStr "u@x.com" <> JUndefined) by discriminate.
      destruct (K Ht He) as (-> & _). reflexivity.
    + reflexivity.
Defined.

(** A text file, and an envelope without a payload. *)
Lemma handleFile_validation_order_witness :
  let notes := {| name := "notes.txt"; size := 64; text := inr "hello" |} in
  let p := Sample.dropScreen (JStr "u@x.com") in
  (endsWith "notes.txt" ".seal" = false /\
   sample_handleFile notes p = rejected msgUnsupported p) /\
  (endsWith "report.seal" ".seal" = true /\ 64 <= sizeLimit /\
   startsWith Sample.noPayloadText "{" = true /\
   Sample.JSON_parse Sample.noPayloadText = inr Sample.noPayload /\
   assoc "payload" [("version", JNum 1); ("fileId", JStr "f1")] = None /\
   sample_handleFile (Sample.sealFileOf Sample.noPayloadText) p
   = rejected msgIncomplete
       (log_call (JSONParse Sample.noPayloadText) (log_call FileText p))).
Proof.
  cbv zeta. split.
  - split; [reflexivity |].
    destruct (handleFile_validation_order Sample.engineText Sample.ToString_other
                Sample.JSON_parse Sample.Date_value Sample.now Sample.toLocaleDateString
                Sample.toLowerCase Sample.gt0_other Sample.formatFileSize
                {| name := "notes.txt"; size := 64; text := inr "hello" |}
                (Sample.dropScreen (JStr "u@x.com"))) as [H _].
    exact (H eq_refl).
  - split; [reflexivity |]. split; [discriminate |]. split; [reflexivity |].
    split; [reflexivity |]. split; [reflexivity |].
    destruct (handleFile_validation_order Sample.engineText Sample.ToString_other
                Sample.JSON_parse Sample.Date_value Sample.now Sample.toLocaleDateString
                Sample.toLowerCase Sample.gt0_other Sample.formatFileSize
                (Sample.sealFileOf Sample.noPayloadText)
                (Sample.dropScreen (JStr "u@x.com"))) as (_ & H & _).
    destruct (H eq_refl) as [_ H1].
    assert (Hsize : size (Sample.sealFileOf Sample.noPayloadText) <= sizeLimit) by discriminate.
    destruct (H1 Hsize Sample.noPayloadText eq_refl) as [_ H2].
    destruct (H2 eq_refl) as [_ H3].
    apply (H3 [("version", JNum 1); ("fileId", JStr "f1")] eq_refl).
    right. right. reflexivity.
Defined.

(** An envelope whose version is 0. *)
Lemma schema_check_is_truthiness_witness :
  let p := Sample.dropScreen (JStr "u@x.com") in
  endsWith "report.seal" ".seal" = true /\ 64 <= sizeLimit /\
  startsWith Sample.zeroVersionText "{" = true /\
  Sample.JSON_parse Sample.zeroVersionText = inr Sample.zeroVersion /\
  assoc "version" [("version", JNum 0); ("fileId", JStr "f1"); ("payload", JStr "ct")]
  = Some (JNum 0) /\
  sample_handleFile (Sample.sealFileOf Sample.zeroVersionText) p
  = rejected msgIncomplete
      (log_call (JSONParse Sample.zeroVersionText) (log_call FileText p)).
Proof.
  cbv zeta. split; [reflexivity |]. split; [discriminate |]. split; [reflexivity |].
  split; [reflexivity |]. split; [reflexivity |].
  assert (Hsize : size (Sample.sealFileOf Sample.zeroVersionText) <= sizeLimit) by discriminate.
  apply (schema_check_is_truthiness Sample.engineText Sample.ToString_other
           Sample.JSON_parse Sample.Date_value Sample.now Sample.toLocaleDateString
           Sample.toLowerCase Sample.gt0_other Sample.formatFileSize
           (Sample.sealFileOf Sample.zeroVersionText) (Sample.dropScreen (JStr "u@x.com"))
           Sample.zeroVersionText
           [("version", JNum 0); ("fileId", JStr "f1"); ("payload", JStr "ct")]
           eq_refl Hsize eq_refl eq_refl eq_refl).
  left. reflexivity.
Defined.

(** C7 as stated fails: an envelope whose [expiresAt] is the number 0
    carries a timestamp, 1 January 1970, that is earlier than the
    current time, and is shown as never expiring. *)
Lemma epoch_expiry_shown_as_never :
  let p := Sample.dropScreen (JStr "u@x.com") in
  let p' := (sample_displayFileInfo (JObj Sample.epochFields) 64 p).2 in
  sample_displayFileInfo (JObj Sample.epochFields) 64 p = (inr tt, p') /\
  metaField "expiresAt" Sample.epochFields = JNum 0 /\
  Sample.Date_value (JNum 0) = inr (Some 0) /\
  0 < Sample.now /\
  isExpired (shownVerdict p') = false /\
  infoExpires p' = ExpiresText "Never" /\
  activeScreen (sample_handleFile (Sample.sealFileOf Sample.epochText) p).2 = Info /\
  infoExpires (sample_handleFile (Sample.sealFileOf Sample.epochText) p).2
  = ExpiresText "Never".
Proof.
  cbv zeta. repeat apply conj; vm_compute; reflexivity.
Qed.

Lemma sample_platformConverts :
  platformConverts Sample.ToString_other Sample.Date_value Sample.formatFileSize.
Proof. repeat split; intros x; eexists; reflexivity. Defined.

(** The recipient [a@x.com] read by the user [A@X.com]. *)
Lemma verdict_of_envelope_witness :
  let p := Sample.dropScreen (JStr "A@X.com") in
  let p' := (sample_displayFileInfo (JObj Sample.lowerCaseFields) 64 p).2 in
  sample_displayFileInfo (JObj Sample.lowerCaseFields) 64 p = (inr tt, p') /\
  hasAccess (shownVerdict p') = true /\
  accessKnown (shownVerdict p') = true /\
  isExpired (shownVerdict p') = false.
Proof.
  cbv zeta.
  assert (Hrun : sample_displayFileInfo (JObj Sample.lowerCaseFields) 64
                   (Sample.dropScreen (JStr "A@X.com"))
                 = (inr tt, (sample_displayFileInfo (JObj Sample.lowerCaseFields) 64
                               (Sample.dropScreen (JStr "A@X.com"))).2))
    by (vm_compute; reflexivity).
  destruct (verdict_of_envelope Sample.engineText Sample.ToString_other Sample.Date_value
              Sample.now Sample.toLocaleDateString Sample.toLowerCase Sample.gt0_other
              Sample.formatFileSize Sample.lowerCaseFields 64
              (Sample.dropScreen (JStr "A@X.com"))) as [_ H].
  destruct (H _ Hrun) as (_ & _ & Hacc & _).
  destruct (Hacc "A@X.com" eq_refl) as [Hknown Hhas]; [discriminate |].
  split; [exact Hrun |]. split; [| split; [exact Hknown | vm_compute; reflexivity]].
  apply Hhas. exists (JObj [("email", JStr "a@x.com")]), "a@x.com".
  split; [now left |]. split; vm_compute; reflexivity.
Defined.


(** A complete envelope goes through the five checks and is shown:
    the text is read, parsed and kept in memory, and with no recipient
    list the signed-in user is told they are not a recipient. *)
Example handleFile_complete_envelope :
  let p' := (sample_handleFile (Sample.sealFileOf Sample.completeText)
               (Sample.dropScreen (JStr "u@x.com"))).2 in
  activeScreen p' = Info /\
  calls p' = [FileText; JSONParse Sample.completeText] /\
  currentSealFile p' = Sample.complete /\
  currentRawText p' = Some Sample.completeText /\
  infoExpires p' = ExpiresText "Never" /\
  btnOpenViewerDisabled p' = true /\
  btnOpenViewerText p' = "You are not a recipient".
Proof.
  cbv zeta. repeat apply conj; vm_compute; reflexivity.
Qed.

(** With no identity known, the same envelope can be opened. *)
Example handleFile_without_identity :
  let p' := (sample_handleFile (Sample.sealFileOf Sample.completeText)
               (Sample.dropScreen JNull)).2 in
  activeScreen p' = Info /\
  accessKnown (shownVerdict p') = false /\
  btnOpenViewerDisabled p' = false /\
  btnOpenViewerText p' = "Open in Secure Viewer".
Proof.
  cbv zeta. repeat apply conj; vm_compute; reflexivity.
Qed.

(** A ping from the production site, and a message of an unknown type. *)
Example external_ping :
  sample_onMessageExternal (JObj [("type", JStr "SEAL_PING")]) Sample.sealSender
    Sample.signedInWorld
  = (inr {| sent := JObj [("installed", JBool true); ("version", JStr "1.0.0")];
            keepOpen := false |}, Sample.signedInWorld).
Proof. reflexivity. Qed.

Example external_unknown_type :
  sample_onMessageExternal (JObj [("type", JStr "SEAL_RESET")]) Sample.sealSender
    Sample.signedInWorld
  = (inr {| sent := JObj [("error", JStr "Unknown message type")]; keepOpen := false |},
     Sample.signedInWorld).
Proof. reflexivity. Qed.

(** ** The store, the worker and the route on the sample platform *)

Local Abbreviation sample_bearer := (bearer Sample.ToString_other).
Local Abbreviation sample_fetchRecipientKeys :=
  (fetchRecipientKeys Sample.engineText Sample.ToString_other Sample.encodeURIComponent
     Sample.fetch).
Local Abbreviation sample_onMessage :=
  (onMessage Sample.engineText Sample.ToString_other Sample.encodeURIComponent Sample.fetch
     Sample.gmailTabs Sample.tabs_sendMessage).
Local Abbreviation sample_attachToGmail :=
  (attachToGmail Sample.engineText Sample.gmailTabs Sample.tabs_sendMessage).
Local Abbreviation sample_POST :=
  (POST Sample.engineText Sample.corsHeaders Sample.env_supabaseUrl Sample.env_supabaseAnonKey
     Sample.signInWithPassword).

(** A token and an email are read back as stored. *)
Lemma store_round_trip_witness :
  JStr "tok" <> JUndefined /\ JStr "u@x.com" <> JUndefined /\
  bind (storeAuth (JStr "tok") (JStr "u@x.com")) (fun _ => getStoredAuth) Sample.emptyWorld
  = (inr (JObj [("authToken", JStr "tok"); ("userEmail", JStr "u@x.com")]),
     withAuth (JStr "tok") (JStr "u@x.com") Sample.emptyWorld).
Proof.
  split; [discriminate |]. split; [discriminate |].
  apply (proj1 (store_round_trip (JStr "tok") (JStr "u@x.com") Sample.emptyWorld));
    discriminate.
Defined.

(** A second sign-in replaces the first. *)
Lemma store_operations_compose_witness :
  (storeAuth (JStr "tok2") (JStr "v@x.com")
     (storeAuth (JStr "tok") (JStr "u@x.com") Sample.emptyWorld).2).2
  = (storeAuth (JStr "tok2") (JStr "v@x.com") Sample.emptyWorld).2 /\
  storage (clearAuth Sample.signedInWorld).2 !! "settings"
  = storage Sample.signedInWorld !! "settings".
Proof.
  destruct (store_operations_compose (JStr "tok") (JStr "u@x.com") (JStr "tok2")
              (JStr "v@x.com") Sample.emptyWorld) as (H & _).
  destruct (store_operations_compose (JStr "tok") (JStr "u@x.com") (JStr "tok2")
              (JStr "v@x.com") Sample.signedInWorld) as (_ & _ & _ & K & _).
  split; [apply H; discriminate |].
  apply (K "settings"); discriminate.
Defined.

(** After a sign-in the header carries the token. *)
Lemma readers_follow_the_store_witness :
  sample_authHeaders (storeAuth (JStr "tok") (JStr "u@x.com") Sample.emptyWorld).2
  = (inr (Some "Bearer tok"), withAuth (JStr "tok") (JStr "u@x.com") Sample.emptyWorld) /\
  sample_getStoredEmail (storeAuth (JStr "tok") (JStr "u@x.com") Sample.emptyWorld).2
  = (inr (JObj [("email", JStr "u@x.com")]),
     withAuth (JStr "tok") (JStr "u@x.com") Sample.emptyWorld).
Proof.
  destruct (readers_follow_the_store Sample.engineText Sample.ToString_other "tok"
              (JStr "u@x.com") Sample.emptyWorld) as (_ & _ & H & _).
  apply H; [discriminate | reflexivity].
Defined.

(** An expired session signs the extension out. *)
Lemma checkAuth_invalidates_witness :
  checkAuth Sample.engineText Sample.ToString_other Sample.expiredBackend Sample.signedInWorld
  = (inr (JObj [("authenticated", JBool false)]),
     withoutAuth (sending (statusRequest (Some "Bearer tok")) Sample.signedInWorld)).
Proof.
  assert (Hb : sample_bearer Sample.signedInWorld = inr (Some "Bearer tok"))
    by (vm_compute; reflexivity).
  destruct (checkAuth_invalidates Sample.engineText Sample.ToString_other Sample.expiredBackend
              Sample.signedInWorld (Some "Bearer tok")
              {| status := 401; json := inr (JObj [("authenticated", JBool false)]) |}
              Hb eq_refl) as (H & _).
  apply H. reflexivity.
Defined.

(** Without a network the credentials stay. *)
Lemma checkAuth_failure_keeps_credentials_witness :
  checkAuth Sample.engineText Sample.ToString_other Sample.offline Sample.signedInWorld
  = (inr (JObj [("authenticated", JBool false); ("error", JStr "Failed to fetch")]),
     sending (statusRequest (Some "Bearer tok")) Sample.signedInWorld) /\
  storage (checkAuth Sample.engineText Sample.ToString_other Sample.offline
             Sample.signedInWorld).2
  = storage Sample.signedInWorld.
Proof.
  assert (Hb : sample_bearer Sample.signedInWorld = inr (Some "Bearer tok"))
    by (vm_compute; reflexivity).
  destruct (checkAuth_failure_keeps_credentials Sample.engineText Sample.ToString_other
              Sample.offline Sample.signedInWorld) as (_ & _ & H).
  apply (H (Some "Bearer tok") {| kind := TypeErrorK; message := "Failed to fetch" |} Hb).
  left. reflexivity.
Defined.

(** The server confirms the cached user: nothing is written. *)
Lemma checkAuth_steady_witness :
  let w := withAuth (JStr "tok") (JStr "u@x.com") Sample.emptyWorld in
  sample_checkAuth w
  = (inr (JObj [("authenticated", JBool true); ("email", JStr "u@x.com")]),
     sending (statusRequest (Some "Bearer tok")) w).
Proof.
  cbv zeta.
  assert (Hb : sample_bearer (withAuth (JStr "tok") (JStr "u@x.com") Sample.emptyWorld)
               = inr (Some "Bearer tok")) by (vm_compute; reflexivity).
  assert (Hs : strict_eq (storedEmail (withAuth (JStr "tok") (JStr "u@x.com") Sample.emptyWorld))
                 (JStr "u@x.com") = true) by (vm_compute; reflexivity).
  apply (checkAuth_steady Sample.engineText Sample.ToString_other Sample.fetch _
           (Some "Bearer tok")
           {| status := 200;
              json := inr (JObj [("authenticated", JBool true); ("email", JStr "u@x.com")]) |}
           _ (JBool true) (JStr "u@x.com") Hb eq_refl eq_refl eq_refl eq_refl eq_refl eq_refl
           eq_refl Hs).
Defined.

(** The key of [a@x] is found. *)
Lemma fetchPublicKey_reads_only_witness :
  sample_fetchPublicKey "a@x" Sample.emptyWorld
  = (inr (JObj [("found", JBool true); ("email", JStr "a@x"); ("publicKey", JStr "pk")]),
     sending (keyRequest Sample.encodeURIComponent "a@x" None) Sample.emptyWorld).
Proof.
  destruct (fetchPublicKey_reads_only Sample.engineText Sample.ToString_other
              Sample.encodeURIComponent Sample.fetch "a@x" Sample.emptyWorld) as (_ & _ & H).
  apply (H None {| status := 200; json := inr (JObj [("publicKey", JStr "pk")]) |}
           [("publicKey", JStr "pk")]); reflexivity.
Defined.

(** Two recipients, one without a key: two results, in order. *)
Lemma fetchRecipientKeys_one_to_one_witness :
  exists results,
    (sample_fetchRecipientKeys (JObj [("emails", JArr [JStr "a@x"; JStr "missing@x"])])
       Sample.emptyWorld).1
    = inr (JObj [("recipients", JArr results)]) /\
    Forall2 (fun email r => (sample_fetchPublicKey email Sample.emptyWorld).1 = inr r)
      ["a@x"; "missing@x"] results /\
    storage (sample_fetchRecipientKeys (JObj [("emails", JArr [JStr "a@x"; JStr "missing@x"])])
               Sample.emptyWorld).2
    = storage Sample.emptyWorld.
Proof.
  destruct (fetchRecipientKeys_one_to_one Sample.engineText Sample.ToString_other
              Sample.encodeURIComponent Sample.fetch
              [("emails", JArr [JStr "a@x"; JStr "missing@x"])] ["a@x"; "missing@x"]
              Sample.emptyWorld) as (H & _).
  apply H. reflexivity.
Defined.

(** The metadata of a file is saved with the stored token. *)
Lemma saveFileMetadata_propagates_witness :
  (saveFileMetadata Sample.engineText Sample.ToString_other Sample.expiredBackend
     (JStr "f1") (JStr "report.pdf") (JArr [JStr "a@x"]) JNull (JStr "u@x.com")
     Sample.signedInWorld).1
  = inr (JObj [("success", JBool true)]).
Proof.
  assert (Hb : sample_bearer Sample.signedInWorld = inr (Some "Bearer tok"))
    by (vm_compute; reflexivity).
  destruct (saveFileMetadata_propagates Sample.engineText Sample.ToString_other
              Sample.expiredBackend (JStr "f1") (JStr "report.pdf") (JArr [JStr "a@x"]) JNull
              (JStr "u@x.com") Sample.signedInWorld (Some "Bearer tok") Hb) as (_ & _ & _ & H).
  apply (H {| status := 200; json := inr (JObj [("success", JBool true)]) |}); reflexivity.
Defined.

(** A logout leaves the other stored items and the network alone. *)
Lemma operations_write_only_credentials_witness :
  storage (after Sample.engineText Sample.URL_origin Sample.ToString_other Sample.fetch
             Sample.manifest_version InternalLogout Sample.signedInWorld) !! "settings"
  = storage Sample.signedInWorld !! "settings" /\
  network (after Sample.engineText Sample.URL_origin Sample.ToString_other Sample.fetch
             Sample.manifest_version InternalLogout Sample.signedInWorld)
  = network Sample.signedInWorld.
Proof.
  destruct (operations_write_only_credentials Sample.engineText Sample.URL_origin
              Sample.ToString_other Sample.fetch Sample.manifest_version InternalLogout
              Sample.signedInWorld) as (H & _ & K).
  split; [apply H; discriminate | apply K; reflexivity].
Defined.

(** A ping from the production site. *)
Lemma external_types_witness :
  sample_onMessageExternal (JObj [("type", JStr "SEAL_PING")]) Sample.sealSender
    Sample.signedInWorld
  = (inr {| sent := JObj [("installed", JBool true); ("version", JStr "1.0.0")];
            keepOpen := false |}, Sample.signedInWorld).
Proof.
  destruct (external_types Sample.engineText Sample.URL_origin Sample.manifest_version
              [("type", JStr "SEAL_PING")] Sample.sealSender Sample.signedInWorld
              "https://seal.email") as (H & _).
  destruct (H eq_refl seal_origin_allowed) as (_ & K & _).
  apply K. reflexivity.
Defined.

(** The popup asks for the stored email. *)
Lemma onMessage_known_action_witness :
  exists handler answer,
    messageHandlers Sample.engineText Sample.ToString_other Sample.encodeURIComponent
      Sample.fetch Sample.gmailTabs Sample.tabs_sendMessage "getStoredEmail" = Some handler /\
    sample_onMessage (JObj [("action", JStr "getStoredEmail")]) (Sample.idle Sample.signedInWorld)
    = (inr (Some {| sent := answer; keepOpen := true |}),
       (handler (JObj [("action", JStr "getStoredEmail")])
          (Sample.idle Sample.signedInWorld)).2) /\
    answer = match (handler (JObj [("action", JStr "getStoredEmail")])
                      (Sample.idle Sample.signedInWorld)).1 with
             | inr v => v
             | inl e => JObj [("error", JStr (message e))]
             end.
Proof.
  apply (onMessage_known_action Sample.engineText Sample.ToString_other
           Sample.encodeURIComponent Sample.fetch Sample.gmailTabs Sample.tabs_sendMessage
           [("action", JStr "getStoredEmail")] "getStoredEmail"
           (Sample.idle Sample.signedInWorld) eq_refl).
  unfold handlerNames. cbn [In]. do 5 right. left. reflexivity.
Defined.

Lemma toString_not_a_handler : ~ In "toString" handlerNames.
Proof.
  unfold handlerNames. cbn [In]. intros H.
  repeat (destruct H as [H | H]; [discriminate H |]). exact H.
Qed.

Lemma toString_inherited : In "toString" objectPrototypeNames.
Proof. unfold objectPrototypeNames. cbn [In]. do 8 right. left. reflexivity. Qed.

(** The action [toString] makes the listener throw. *)
Lemma onMessage_unknown_action_witness :
  sample_onMessage (JObj [("action", JStr "toString")]) (Sample.idle Sample.emptyWorld)
  = (inl (typeError Sample.engineText
            (NotAFunction (JObj [("action", JStr "toString")]) "toString")),
     Sample.idle Sample.emptyWorld).
Proof.
  destruct (onMessage_unknown_action Sample.engineText Sample.ToString_other
              Sample.encodeURIComponent Sample.fetch Sample.gmailTabs Sample.tabs_sendMessage
              [("action", JStr "toString")] "toString" (Sample.idle Sample.emptyWorld)
              eq_refl toString_not_a_handler) as (_ & H & _).
  apply H. exact toString_inherited.
Defined.

(** A file is relayed to the one Gmail tab. *)
Lemma attachToGmail_relays_witness :
  let request := [("action", JStr "attachToGmail"); ("sealFile", JStr "ct");
                  ("filename", JStr "report.seal")] in
  tabMessages (sample_attachToGmail (JObj request) (Sample.idle Sample.emptyWorld)).2
  = [(7, JObj [("action", JStr "attachSealFile"); ("sealFile", JStr "ct");
               ("filename", JStr "report.seal")])] /\
  (sample_attachToGmail (JObj request) (Sample.idle Sample.emptyWorld)).1
  = inr (JObj [("success", JBool true)]).
Proof.
  cbv zeta.
  destruct (attachToGmail_relays Sample.engineText Sample.gmailTabs Sample.tabs_sendMessage
              [("action", JStr "attachToGmail"); ("sealFile", JStr "ct");
               ("filename", JStr "report.seal")] (Sample.idle Sample.emptyWorld))
    as (_ & _ & _ & H).
  apply (H 7 []). reflexivity.
Defined.


(** The route answers the known user. *)
Lemma POST_answers_witness :
  let request := Sample.loginPost (JStr "u@x.com") (JStr "pw") in
  let h := [("Access-Control-Allow-Origin", "chrome-extension://seal")] in
  (exists answer, (sample_POST request []).1 = inr answer /\ routeAnswer h answer) /\
  ((sample_POST request []).2 = [] \/
   exists email password, (sample_POST request []).2 = ([] ++ [(email, password)])%list).
Proof.
  cbv zeta.
  apply (POST_answers Sample.engineText Sample.corsHeaders Sample.env_supabaseUrl
           Sample.env_supabaseAnonKey Sample.signInWithPassword
           (Sample.loginPost (JStr "u@x.com") (JStr "pw")) []
           [("Access-Control-Allow-Origin", "chrome-extension://seal")] eq_refl).
Defined.

(** A login without a password is refused before any attempt. *)
Lemma POST_rejects_before_sign_in_witness :
  let h := [("Access-Control-Allow-Origin", "chrome-extension://seal")] in
  sample_POST (Sample.loginPost (JStr "u@x.com") (JStr "")) []
  = (inr (respond 400 [("error", JStr "Email and password are required")] h), []).
Proof.
  cbv zeta.
  destruct (POST_rejects_before_sign_in Sample.engineText Sample.corsHeaders
              Sample.env_supabaseUrl Sample.env_supabaseAnonKey Sample.signInWithPassword
              (Sample.loginPost (JStr "u@x.com") (JStr "")) []
              [("Access-Control-Allow-Origin", "chrome-extension://seal")] eq_refl)
    as (H & _).
  apply (H [("email", JStr "u@x.com"); ("password", JStr "")]); [reflexivity |].
  right. reflexivity.
Defined.

(** The known user is signed in; a wrong password is refused with the
    message of the identity service, after one attempt. *)
Lemma POST_signs_in_witness :
  let h := [("Access-Control-Allow-Origin", "chrome-extension://seal")] in
  (sample_POST (Sample.loginPost (JStr "u@x.com") (JStr "pw")) []).1
  = inr (respond 200 [("authenticated", JBool true); ("email", JStr "u@x.com");
                      ("token", JStr "tok")] h) /\
  sample_POST (Sample.loginPost (JStr "u@x.com") (JStr "wrong")) []
  = (inr (respond 401 [("error", JStr "Invalid login credentials")] h),
     [(JStr "u@x.com", JStr "wrong")]).
Proof.
  cbv zeta.
  destruct (POST_signs_in Sample.engineText Sample.corsHeaders Sample.env_supabaseUrl
              Sample.env_supabaseAnonKey Sample.signInWithPassword
              (Sample.loginPost (JStr "u@x.com") (JStr "pw")) []
              [("Access-Control-Allow-Origin", "chrome-extension://seal")]
              [("email", JStr "u@x.com"); ("password", JStr "pw")]
              [("data", JObj [("user", JObj [("email", JStr "u@x.com")]);
                              ("session", JObj [("access_token", JStr "tok")])]);
               ("error", JNull)]
              "https://project.supabase.co" "anon"
              eq_refl eq_refl eq_refl eq_refl eq_refl eq_refl eq_refl) as (_ & _ & _ & H).
  destruct (POST_signs_in Sample.engineText Sample.corsHeaders Sample.env_supabaseUrl
              Sample.env_supabaseAnonKey Sample.signInWithPassword
              (Sample.loginPost (JStr "u@x.com") (JStr "wrong")) []
              [("Access-Control-Allow-Origin", "chrome-extension://seal")]
              [("email", JStr "u@x.com"); ("password", JStr "wrong")]
              [("data", JObj [("user", JNull); ("session", JNull)]);
               ("error", JObj [("message", JStr "Invalid login credentials")])]
              "https://project.supabase.co" "anon"
              eq_refl eq_refl eq_refl eq_refl eq_refl eq_refl eq_refl) as (K1 & K2 & _).
  split.
  - apply (H [("user", JObj [("email", JStr "u@x.com")]);
              ("session", JObj [("access_token", JStr "tok")])]
             [("access_token", JStr "tok")] [("email", JStr "u@x.com")]); reflexivity.
  - apply injective_projections; [| exact K1].
    apply (K2 [("message", JStr "Invalid login credentials")]). reflexivity.
Defined.

(** The extension signs the known user in against the route. *)
Lemma extension_login_against_route_witness :
  let fields := [("action", JStr "loginWithCredentials"); ("email", JStr "u@x.com");
                 ("password", JStr "pw")] in
  let out := sample_loginWithCredentials (JObj fields) Sample.emptyWorld in
  exists email token,
    out.1 = inr (JObj [("authenticated", JBool true); ("email", email)]) /\
    storage out.2 !! "authToken" = written token (storage Sample.emptyWorld !! "authToken") /\
    storage out.2 !! "userEmail" = written email (storage Sample.emptyWorld !! "userEmail").
Proof.
  cbv zeta.
  destruct (extension_login_against_route Sample.engineText Sample.fetch Sample.corsHeaders
              Sample.env_supabaseUrl Sample.env_supabaseAnonKey Sample.signInWithPassword
              [("action", JStr "loginWithCredentials"); ("email", JStr "u@x.com");
               ("password", JStr "pw")]
              Sample.emptyWorld (Sample.loginPost (JStr "u@x.com") (JStr "pw")) []
              [("Access-Control-Allow-Origin", "chrome-extension://seal")]
              (respond 200 [("authenticated", JBool true); ("email", JStr "u@x.com");
                            ("token", JStr "tok")]
                 [("Access-Control-Allow-Origin", "chrome-extension://seal")])
              eq_refl eq_refl eq_refl eq_refl eq_refl eq_refl) as (_ & H & _).
  destruct (H eq_refl) as (email & token & _ & K1 & _ & K2 & K3 & _).
  exists email, token. split; [exact K1 |]. split; [exact K2 | exact K3].
Defined.

(** ** The popup on the sample platform *)

Local Abbreviation sample_sendMessage :=
  (sendMessage Sample.engineText Sample.ToString_other Sample.encodeURIComponent Sample.fetch
     [] Sample.tabs_sendMessage Sample.portClosedText).
Local Abbreviation sample_init :=
  (init Sample.engineText Sample.ToString_other Sample.encodeURIComponent Sample.fetch
     Sample.gmailTabs Sample.tabs_sendMessage Sample.portClosedText).
Local Abbreviation sample_handleLogin :=
  (handleLogin Sample.engineText Sample.ToString_other Sample.encodeURIComponent Sample.fetch
     Sample.gmailTabs Sample.tabs_sendMessage Sample.portClosedText Sample.trim).
Local Abbreviation sample_handleLogout :=
  (handleLogout Sample.engineText Sample.ToString_other Sample.encodeURIComponent Sample.fetch
     Sample.gmailTabs Sample.tabs_sendMessage Sample.portClosedText).
Local Abbreviation sample_handleNamed :=
  (handleFile Sample.engineText Sample.ToString_other Sample.JSON_parse_named Sample.Date_value
     Sample.now Sample.toLocaleDateString Sample.toLowerCase Sample.gt0_other
     Sample.formatFileSize).
Local Abbreviation sample_openInViewer :=
  (openInViewer Sample.engineText Sample.ToString_other).

(** A complete envelope reaches the info screen; no error is written. *)
Lemma handleFile_settles_witness :
  let p := Sample.dropScreen (JStr "u@x.com") in
  activeScreen (sample_handleFile (Sample.sealFileOf Sample.completeText) p).2 = Info /\
  errorMessage (sample_handleFile (Sample.sealFileOf Sample.completeText) p).2 = errorMessage p.
Proof.
  cbv zeta.
  assert (Hinfo : activeScreen (sample_handleFile (Sample.sealFileOf Sample.completeText)
                                  (Sample.dropScreen (JStr "u@x.com"))).2 = Info)
    by (vm_compute; reflexivity).
  split; [exact Hinfo |].
  destruct (handleFile_settles Sample.engineText Sample.ToString_other Sample.JSON_parse
              Sample.Date_value Sample.now Sample.toLocaleDateString Sample.toLowerCase
              Sample.gt0_other Sample.formatFileSize (Sample.sealFileOf Sample.completeText)
              (Sample.dropScreen (JStr "u@x.com"))) as (_ & _ & _ & _ & H).
  apply H. exact Hinfo.
Defined.

(** With no Gmail tab open, the popup sees the failure of [attachToGmail]. *)
Lemma sendMessage_relays_failure_witness :
  let g := Sample.opened (Sample.idle Sample.emptyWorld) in
  sample_sendMessage (JObj [("action", JStr "attachToGmail")]) g
  = (Rejected {| kind := ErrorK; message := "No Gmail tab found" |}, g).
Proof.
  cbv zeta.
  destruct (sendMessage_relays_failure Sample.engineText Sample.ToString_other
              Sample.encodeURIComponent Sample.fetch [] Sample.tabs_sendMessage
              Sample.portClosedText [("action", JStr "attachToGmail")] "attachToGmail"
              (attachToGmail Sample.engineText [] Sample.tabs_sendMessage)
              (Sample.opened (Sample.idle Sample.emptyWorld)) eq_refl eq_refl eq_refl)
    as (H & _).
  apply (H {| kind := ErrorK; message := "No Gmail tab found" |}). reflexivity.
Defined.

(** A signed-in user opens the popup and sees the drop screen. *)
Lemma init_follows_checkAuth_witness :
  let g := Sample.opened (Sample.idle Sample.signedInWorld) in
  (sample_init g).1 = Resolved tt /\
  userEmail (viewer (sample_init g).2) = JStr "u@x.com" /\
  storedEmail (agentWorld (worker (sample_init g).2)) = JStr "u@x.com" /\
  activeScreen (viewer (sample_init g).2) = Drop /\
  userEmailDisplay (sample_init g).2 = "u@x.com".
Proof.
  cbv zeta.
  assert (Hb : sample_bearer (agentWorld (worker (Sample.opened (Sample.idle Sample.signedInWorld))))
               = inr (Some "Bearer tok")) by (vm_compute; reflexivity).
  destruct (init_follows_checkAuth Sample.engineText Sample.ToString_other
              Sample.encodeURIComponent Sample.fetch Sample.gmailTabs Sample.tabs_sendMessage
              Sample.portClosedText (Sample.opened (Sample.idle Sample.signedInWorld))
              (Some "Bearer tok") Hb) as (_ & _ & _ & H).
  destruct (H {| status := 200;
                 json := inr (JObj [("authenticated", JBool true); ("email", JStr "u@x.com")]) |}
              [("authenticated", JBool true); ("email", JStr "u@x.com")]
              eq_refl eq_refl eq_refl eq_refl eq_refl eq_refl eq_refl) as (K1 & K2 & K3 & K4).
  split; [exact K1 |]. split; [exact K2 |]. split; [exact K3 |]. exact K4.
Defined.

(** The known user signs in from the form, with spaces around the email. *)
Lemma handleLogin_against_worker_witness :
  let g := Sample.opened (Sample.idle Sample.emptyWorld) in
  let out := sample_handleLogin " u@x.com " "pw" g in
  out.1 = Resolved tt /\
  storage (agentWorld (worker out.2)) !! "authToken" = Some (JStr "tok") /\
  storage (agentWorld (worker out.2)) !! "userEmail" = Some (JStr "u@x.com") /\
  agentWorld (worker out.2)
  = withAuth (JStr "tok") (JStr "u@x.com")
      (sending (loginRequest (JStr "u@x.com") (JStr "pw")) Sample.emptyWorld) /\
  userEmail (viewer out.2) = JStr "u@x.com" /\
  activeScreen (viewer out.2) = Drop /\
  userEmailDisplay out.2 = "u@x.com" /\
  loginErrorHidden (form out.2) = true.
Proof.
  cbv zeta.
  destruct (handleLogin_against_worker Sample.engineText Sample.ToString_other
              Sample.encodeURIComponent Sample.fetch Sample.gmailTabs Sample.tabs_sendMessage
              Sample.portClosedText Sample.trim " u@x.com " "pw"
              (Sample.opened (Sample.idle Sample.emptyWorld))) as (_ & H).
  assert (He : Sample.trim " u@x.com " <> "") by (vm_compute; discriminate).
  assert (Hp : "pw" <> "") by discriminate.
  destruct (H He Hp) as (_ & _ & K).
  destruct (K {| status := 200;
                 json := inr (JObj [("authenticated", JBool true); ("email", JStr "u@x.com");
                                    ("token", JStr "tok")]) |}
              (JObj [("authenticated", JBool true); ("email", JStr "u@x.com");
                     ("token", JStr "tok")])
              (JBool true) (JStr "tok") (JStr "u@x.com")
              eq_refl eq_refl eq_refl eq_refl eq_refl eq_refl eq_refl)
    as (K1 & K2 & K3 & _ & K4 & K5).
  assert (Ht : JStr "tok" <> JUndefined) by discriminate.
  assert (Ha : JStr "u@x.com" <> JUndefined) by discriminate.
  split; [exact K1 |]. split; [exact K2 |]. split; [exact K3 |].
  split; [exact (K4 Ht Ha) |]. exact K5.
Defined.

(** After a logout another stored item is still there. *)
Lemma handleLogout_clears_witness :
  let g := Sample.opened (Sample.idle Sample.signedInWorld) in
  storage (agentWorld (worker (sample_handleLogout g).2)) !! "settings"
  = storage Sample.signedInWorld !! "settings".
Proof.
  cbv zeta.
  destruct (handleLogout_clears Sample.engineText Sample.ToString_other
              Sample.encodeURIComponent Sample.fetch Sample.gmailTabs Sample.tabs_sendMessage
              Sample.portClosedText (Sample.opened (Sample.idle Sample.signedInWorld)))
    as (_ & _ & _ & _ & _ & _ & _ & _ & _ & H & _).
  apply (H "settings"); discriminate.
Defined.

(** A named envelope is downloaded under its original name. *)
Lemma openInViewer_downloads_the_dropped_file_witness :
  let g := Sample.opened (Sample.idle Sample.emptyWorld) in
  let dropped := (inViewer (sample_handleNamed (Sample.sealFileOf Sample.namedText)) g).2 in
  sample_openInViewer dropped
  = (inr tt, set_tabsOpened ["https://seal.email/viewer"]
               (set_downloads [(Sample.namedText, "report.pdf.seal")] dropped)).
Proof.
  cbv zeta.
  assert (Hsize : size (Sample.sealFileOf Sample.namedText) <= sizeLimit)
    by (vm_compute; discriminate).
  destruct (openInViewer_downloads_the_dropped_file Sample.engineText Sample.ToString_other
              Sample.JSON_parse_named Sample.Date_value Sample.now Sample.toLocaleDateString
              Sample.toLowerCase Sample.gt0_other Sample.formatFileSize
              (Sample.sealFileOf Sample.namedText)
              (Sample.opened (Sample.idle Sample.emptyWorld)) Sample.namedText
              Sample.namedFields "report.pdf"
              eq_refl Hsize eq_refl eq_refl eq_refl eq_refl eq_refl eq_refl eq_refl)
    as (H & _).
  exact H.
Defined.

(** Just under a mebibyte the size reads as 1024.0 KB. *)
Lemma formatFileSize_rounds_witness :
  Integer.formatFileSize 1048575 = Some "1024.0 KB" /\
  Integer.formatFileSize 512 = Some (numberText 512 ++ " B")%string.
Proof.
  assert (H1 : 0 <= 1048575 < 2 ^ 53) by (split; [discriminate | reflexivity]).
  assert (H2 : 0 <= 512 < 2 ^ 53) by (split; [discriminate | reflexivity]).
  destruct (formatFileSize_rounds 1048575 H1) as (_ & _ & H).
  destruct (formatFileSize_rounds 512 H2) as (K & _).
  split; [apply H; split; [discriminate | reflexivity] | apply K; reflexivity].
Defined.

(** An envelope without metadata is described by the size of the
    [.seal] file. *)
Lemma info_screen_describes_the_file_witness :
  let shown :=
    (handleFile Sample.engineText Sample.ToString_other Sample.JSON_parse Sample.Date_value
       Sample.now Sample.toLocaleDateString Sample.toLowerCase Sample.gt0_other
       Sample.formatSizes (Sample.sealFileOf Sample.completeText)
       (Sample.dropScreen (JStr "u@x.com"))).2 in
  infoFilename shown = "Unknown file" /\
  Integer.formatFileSize 64 = Some (infoSize shown) /\
  infoDate shown = "Unknown" /\
  infoRecipients shown = "Unknown".
Proof.
  cbv zeta.
  assert (Hsize : size (Sample.sealFileOf Sample.completeText) <= sizeLimit)
    by (vm_compute; discriminate).
  assert (Hinfo : activeScreen
                    (handleFile Sample.engineText Sample.ToString_other Sample.JSON_parse
                       Sample.Date_value Sample.now Sample.toLocaleDateString
                       Sample.toLowerCase Sample.gt0_other Sample.formatSizes
                       (Sample.sealFileOf Sample.completeText)
                       (Sample.dropScreen (JStr "u@x.com"))).2 = Info)
    by (vm_compute; reflexivity).
  destruct (info_screen_describes_the_file Sample.engineText Sample.ToString_other
              Sample.JSON_parse Sample.Date_value Sample.now Sample.toLocaleDateString
              Sample.toLowerCase Sample.gt0_other Sample.formatSizes
              (Sample.sealFileOf Sample.completeText) (Sample.dropScreen (JStr "u@x.com"))
              Sample.completeText
              [("version", JNum 1); ("fileId", JStr "f1"); ("payload", JStr "ct")]
              eq_refl Hsize eq_refl eq_refl eq_refl eq_refl eq_refl eq_refl Hinfo)
    as (_ & _ & Hformat & Hdate & Hrecipients).
  assert (Hplatform : formatsIntegers Sample.formatSizes).
  { intros n shown H. unfold Sample.formatSizes. now rewrite H. }
  destruct (Hformat Hplatform) as (_ & Hown).
  split; [vm_compute; reflexivity |].
  split; [apply Hown; [reflexivity | vm_compute; discriminate] |].
  split; [apply Hdate; reflexivity | apply Hrecipients; reflexivity].
Defined.

(** A complete envelope is kept in memory; a text file leaves the
    memory as it was. *)
Lemma handleFile_memory_witness :
  let p := Sample.dropScreen (JStr "u@x.com") in
  let notes := {| name := "notes.txt"; size := 64; text := inr "hello" |} in
  let kept := (sample_handleFile (Sample.sealFileOf Sample.completeText) p).2 in
  (currentSealFile kept = Sample.complete /\ currentRawText kept = Some Sample.completeText /\
   activeScreen kept = Info) /\
  (currentSealFile (sample_handleFile notes p).2 = JNull /\
   currentRawText (sample_handleFile notes p).2 = None /\
   activeScreen (sample_handleFile notes p).2 = Error).
Proof.
  cbv zeta. split.
  - destruct (handleFile_memory Sample.engineText Sample.ToString_other Sample.JSON_parse
                Sample.Date_value Sample.now Sample.toLocaleDateString Sample.toLowerCase
                Sample.gt0_other Sample.formatFileSize (Sample.sealFileOf Sample.completeText)
                (Sample.dropScreen (JStr "u@x.com"))) as (H & _).
    assert (Hpasses : passesChecks Sample.engineText Sample.JSON_parse
                        (Sample.sealFileOf Sample.completeText) Sample.completeText
                        Sample.complete).
    { split; [reflexivity |]. split; [vm_compute; discriminate |].
      split; [reflexivity |]. split; [reflexivity |]. split; [reflexivity |].
      exists (JNum 1), (JStr "f1"), (JStr "ct"). repeat apply conj; reflexivity. }
    destruct (H _ _ Hpasses) as (H1 & H2 & H3).
    split; [exact H1 |]. split; [exact H2 |]. exact H3.
  - destruct (handleFile_memory Sample.engineText Sample.ToString_other Sample.JSON_parse
                Sample.Date_value Sample.now Sample.toLocaleDateString Sample.toLowerCase
                Sample.gt0_other Sample.formatFileSize
                {| name := "notes.txt"; size := 64; text := inr "hello" |}
                (Sample.dropScreen (JStr "u@x.com"))) as (_ & H).
    apply H. intros t sealFile (Hext & _). discriminate Hext.
Defined.

(** An email that cannot be shown: [init] has made it the user of the
    popup when the assignment of the text throws, and ends on the login
    screen. *)
Example init_email_not_convertible :
  let g := Sample.opened (Sample.idle Sample.emptyWorld) in
  let out := init Sample.engineText Sample.strictText Sample.encodeURIComponent
               Sample.oddSession Sample.gmailTabs Sample.tabs_sendMessage
               Sample.portClosedText g in
  out.1 = Resolved tt /\
  userEmail (viewer out.2) = JObj [("toString", JNum 0)] /\
  activeScreen (viewer out.2) = Login /\
  userEmailDisplay out.2 = "" /\ listening out.2 = true.
Proof. cbv zeta. repeat apply conj; vm_compute; reflexivity. Qed.
